(** * Scroll Control plugin (src/main.ts): a shallow embedding

    The development follows [src/main.ts]:
    - [JS]: the parts of the JavaScript runtime the plugin relies on
      (strings as sequences of UTF-16 code units, IEEE-754 binary64 numbers,
      [parseInt] with radix 16, insertion-ordered [Map] and [Set]);
    - [Dom]: the elements the plugin creates with [document.createElement];
    - the plugin class [ScrollControlPlugin]: contrast colour, overlay
      construction, pane tracking, focus handling, scrolling, unloading. *)

From Stdlib Require Import ZArith NArith Bool String Ascii.
From Stdlib Require Import Floats.SpecFloat.
From stdpp Require Import base tactics option list sets strings.

Local Open Scope Z_scope.
Set Warnings "-clear-no-such-hyp".

(* ================================================================== *)
(** * The JavaScript runtime                                            *)
(* ================================================================== *)

Module JS.

(** ** Strings

    A JavaScript string is a sequence of 16-bit code units; indexing,
    [length] and [substring] all count code units. *)

Definition code_unit := N.
Definition jsstring := list code_unit.

(** Literals of the source, written as Rocq strings. *)
Definition lit (s : string) : jsstring :=
  N_of_ascii <$> list_ascii_of_string s.

(** [s.substring(i, j)] for [i <= j]; both ends are clamped to the length. *)
Definition substring (i j : nat) (s : jsstring) : jsstring :=
  take (j - i)%nat (drop i s).

(** [s[i]] used as a one-unit string in a concatenation (in range). *)
Definition charAt (i : nat) (s : jsstring) : jsstring :=
  substring i (S i) s.

(** ** Numbers

    A JavaScript number is an IEEE-754 binary64 value; the arithmetic
    operators round to nearest, ties to even. *)

Definition number := spec_float.

Definition prec : Z := 53.
Definition emax : Z := 1024.

Definition mul (x y : number) : number := SFmul prec emax x y.
Definition add (x y : number) : number := SFadd prec emax x y.
Definition div (x y : number) : number := SFdiv prec emax x y.

(** [x > y]: false as soon as one side is [NaN]. *)
Definition gt (x y : number) : bool := SFltb y x.
(** [x <= y]: false as soon as one side is [NaN]. *)
Definition le (x y : number) : bool := SFleb x y.

Definition NaN : number := S754_nan.

(** The number that an integer denotes (exact below 2^53, rounded above);
    [negzero] selects the sign of a zero result. *)
Definition of_Z (z : Z) (negzero : bool) : number :=
  binary_normalize prec emax z 0 negzero.

(** The numeric literals of [getContrastColor]: the binary64 values
    nearest to the decimal literals. *)
Definition lit_0_299 : number := S754_finite false 5386305154335113 (-54).
Definition lit_0_587 : number := S754_finite false 5287225962532962 (-53).
Definition lit_0_114 : number := S754_finite false 8214565720323785 (-56).
Definition lit_0_5 : number := S754_finite false 4503599627370496 (-53).
Definition lit_255 : number := S754_finite false 8972014882652160 (-45).

(** ** [parseInt(s, 16)]

    ECMAScript: skip leading white space, read an optional sign, skip an
    optional [0x]/[0X] prefix, read the longest prefix of hexadecimal
    digits; no digit at all gives [NaN]. *)

Definition isWhiteSpace (c : code_unit) : bool :=
  ((9 <=? c) && (c <=? 13) || (c =? 32) || (c =? 160) || (c =? 5760)
   || (8192 <=? c) && (c <=? 8202) || (c =? 8232) || (c =? 8233)
   || (c =? 8239) || (c =? 8287) || (c =? 12288) || (c =? 65279))%N.

Fixpoint trimStart (s : jsstring) : jsstring :=
  match s with
  | c :: t => if isWhiteSpace c then trimStart t else s
  | [] => []
  end.

Definition hexDigit (c : code_unit) : option Z :=
  if ((48 <=? c) && (c <=? 57))%N then Some (Z.of_N c - 48)
  else if ((97 <=? c) && (c <=? 102))%N then Some (Z.of_N c - 87)
  else if ((65 <=? c) && (c <=? 70))%N then Some (Z.of_N c - 55)
  else None.

Fixpoint digitsPrefix (s : jsstring) : list Z :=
  match s with
  | c :: t =>
      match hexDigit c with
      | Some d => d :: digitsPrefix t
      | None => []
      end
  | [] => []
  end.

Definition mathInt (ds : list Z) : Z :=
  fold_left (fun acc d => 16 * acc + d) ds 0.

Definition stripSign (s : jsstring) : bool * jsstring :=
  match s with
  | c :: t =>
      if (c =? 45)%N then (true, t)
      else if (c =? 43)%N then (false, t)
      else (false, s)
  | [] => (false, s)
  end.

Definition stripPrefix (s : jsstring) : jsstring :=
  match s with
  | z :: x :: t =>
      if ((z =? 48) && ((x =? 120) || (x =? 88)))%N then t else s
  | _ => s
  end.

Definition parseInt16 (s : jsstring) : number :=
  let '(neg, s1) := stripSign (trimStart s) in
  match digitsPrefix (stripPrefix s1) with
  | [] => NaN
  | ds => of_Z (if neg then - mathInt ds else mathInt ds) neg
  end.

(** ** [Map] and [Set]

    Both iterate in insertion order; keys are compared by identity. *)

Section Collections.
Context {K V : Type} `{EqDecision K}.

Fixpoint map_get (k : K) (m : list (K * V)) : option V :=
  match m with
  | [] => None
  | (k', v) :: t => if decide (k' = k) then Some v else map_get k t
  end.

Definition map_has (k : K) (m : list (K * V)) : bool :=
  bool_decide (k ∈ m.*1).

(** [m.set(k, v)]: an existing key keeps its place, a new one goes last. *)
Fixpoint map_set (k : K) (v : V) (m : list (K * V)) : list (K * V) :=
  match m with
  | [] => [(k, v)]
  | (k', v') :: t =>
      if decide (k' = k) then (k', v) :: t else (k', v') :: map_set k v t
  end.

Fixpoint map_delete (k : K) (m : list (K * V)) : list (K * V) :=
  match m with
  | [] => []
  | (k', v') :: t =>
      if decide (k' = k) then map_delete k t else (k', v') :: map_delete k t
  end.

Definition map_keys (m : list (K * V)) : list K := m.*1.

Definition set_add (s : list K) (k : K) : list K :=
  if decide (k ∈ s) then s else s ++ [k].

(** [new Set(iterable)] *)
Definition new_Set (l : list K) : list K := fold_left set_add l [].

Definition set_has (k : K) (s : list K) : bool := bool_decide (k ∈ s).
End Collections.

End JS.

(* ================================================================== *)
(** * [getContrastColor] (src/main.ts, lines 554-581)                   *)
(* ================================================================== *)

Definition black : JS.jsstring := JS.lit "#000000".
Definition white : JS.jsstring := JS.lit "#FFFFFF".

(** [(0.299 * r + 0.587 * g + 0.114 * b) / 255], evaluated left to right. *)
Definition luminance (r g b : JS.number) : JS.number :=
  JS.div
    (JS.add (JS.add (JS.mul JS.lit_0_299 r) (JS.mul JS.lit_0_587 g))
            (JS.mul JS.lit_0_114 b))
    JS.lit_255.

(** The shorthand expansion ["#" + h[1] + h[1] + h[2] + h[2] + h[3] + h[3]]. *)
Definition expandShorthand (hexColor : JS.jsstring) : JS.jsstring :=
  JS.lit "#"
    ++ JS.charAt 1 hexColor ++ JS.charAt 1 hexColor
    ++ JS.charAt 2 hexColor ++ JS.charAt 2 hexColor
    ++ JS.charAt 3 hexColor ++ JS.charAt 3 hexColor.

Definition getContrastColor (hexColor : JS.jsstring) : JS.jsstring :=
  if bool_decide (hexColor = []) || (length hexColor <? 4)%nat then black
  else
    let hexColor :=
      if (length hexColor =? 4)%nat then expandShorthand hexColor
      else hexColor in
    let r := JS.parseInt16 (JS.substring 1 3 hexColor) in
    let g := JS.parseInt16 (JS.substring 3 5 hexColor) in
    let b := JS.parseInt16 (JS.substring 5 7 hexColor) in
    if JS.gt (luminance r g b) JS.lit_0_5 then black else white.

(* ================================================================== *)
(** * Settings (src/main.ts, lines 15-55)                               *)
(* ================================================================== *)

Inductive ButtonSize := small | medium | large.

Record ScrollControlSettings := {
  showScrollTopButton : bool;
  showScrollBottomButton : bool;
  buttonSize : ButtonSize;
  buttonColor : JS.jsstring;
  useCustomColor : bool;
  animationSpeed : Z;
  useAnimations : bool;
  invertButtonOrder : bool;
  buttonSpacing : Z;
  horizontalPadding : Z;
  verticalPadding : Z
}.

Definition DEFAULT_SETTINGS : ScrollControlSettings := {|
  showScrollTopButton := true;
  showScrollBottomButton := true;
  buttonSize := medium;
  buttonColor := JS.lit "#666666";
  useCustomColor := false;
  animationSpeed := 300;
  useAnimations := true;
  invertButtonOrder := false;
  buttonSpacing := 12;
  horizontalPadding := 20;
  verticalPadding := 40
|}.

(* ================================================================== *)
(** * The host: workspace, panes and views                              *)
(* ================================================================== *)

(** A [WorkspaceLeaf] handle; the plugin only compares handles ([===]). *)
Definition leaf := nat.

(** A view object, the value of [leaf.view]; the plugin holds references
    to view objects and passes them on. A pane may get another view
    object while it stays the same pane. *)
Definition viewObject := nat.

(** A host element the plugin attaches to (a [.view-content] element). *)
Definition node := nat.

(** What the plugin reads from the host when an event is handled. The
    properties of a pane are read anew each time, so they are part of the
    snapshot. *)
Record Workspace := {
  (** [app.workspace.getLeavesOfType('markdown')] *)
  markdownLeaves : list leaf;
  (** [app.workspace.activeLeaf] *)
  activeLeaf : option leaf;
  (** [leaf.view] *)
  leafView : leaf -> viewObject;
  (** [leaf.view instanceof MarkdownView] *)
  isMarkdownView : leaf -> bool;
  (** [leaf.view.containerEl.querySelector('.view-content')] *)
  viewContent : leaf -> option node
}.

Inductive Position := top | bottom.
Inductive Mode := source | preview.

(** What [scrollToPosition] reads from a [MarkdownView]. *)
Record MarkdownView := {
  (** [view.getMode()] *)
  getMode : Mode;
  (** [view.editor.lineCount()] *)
  lineCount : Z;
  (** [scrollHeight] of the element found by
      [previewMode.containerEl.querySelector('.markdown-preview-view')] *)
  previewEl : option Z
}.

Inductive ScrollBehavior := smooth | auto.

(** The request [scrollToPosition] sends to the host, if any. *)
Inductive ScrollRequest :=
| NoRequest
| EditorScrollIntoView (fromLine fromCh toLine toCh : Z) (center : bool)
| PreviewScrollTo (scrollTop : Z) (behavior : ScrollBehavior).

(* ================================================================== *)
(** * The DOM nodes the plugin creates                                  *)
(* ================================================================== *)

Module Dom.

(** An element made by [document.createElement]; it is named by its
    index in the heap of created elements. *)
Abbreviation elem := nat (only parsing).

Inductive Tag := DIV | STYLE.

Inductive Parent := InViewContent (n : node) | InHead.

Inductive Icon := scrollTopIcon | scrollBottomIcon.


(** A button of an overlay: a [div] with an [svg] child and a click
    listener. Buttons are reached only through their container. *)
Record Button := {
  btnClassList : list string;
  (** value assigned to [style.backgroundColor] *)
  btnBackgroundColor : option JS.jsstring;
  (** value assigned to [style.color] *)
  btnColor : option JS.jsstring;
  btnIcon : Icon;
  (** the value that [createSVGFromString] puts in the [stroke]
      attribute of the [svg] element with [setAttribute], when it calls
      it; without the call the element keeps the attribute of its
      markup *)
  btnStroke : option JS.jsstring;
  btnAriaLabel : string;
  (** the listener calls [scrollToPosition(position, view)] with the
      view object that was handed to [createFloatingButtons] *)
  btnOnClick : Position * viewObject
}.

(** The interpolated values of the style sheet text of [updateStyle]
    (horizontal padding, vertical padding, spacing, animation speed);
    the rest of the text is constant. *)
Definition Css := (Z * Z * Z * Z)%type.

Record Element := {
  tagName : Tag;
  idAttr : option string;
  classList : list string;
  parentNode : option Parent;
  childNodes : list Button;
  textContent : option Css
}.

Definition blank (t : Tag) : Element := {|
  tagName := t; idAttr := None; classList := []; parentNode := None;
  childNodes := []; textContent := None
|}.

Abbreviation Heap := (list Element).

(** [document.createElement(tag)] *)
Definition createElement (t : Tag) (h : Heap) : elem * Heap :=
  (length h, h ++ [blank t]).

Definition addClass (c : string) (e : Element) : Element := {|
  tagName := tagName e; idAttr := idAttr e;
  classList := if decide (c ∈ classList e) then classList e
               else classList e ++ [c];
  parentNode := parentNode e; childNodes := childNodes e;
  textContent := textContent e
|}.

Definition removeClass (c : string) (e : Element) : Element := {|
  tagName := tagName e; idAttr := idAttr e;
  classList := filter (fun x => x ≠ c) (classList e);
  parentNode := parentNode e; childNodes := childNodes e;
  textContent := textContent e
|}.

(** Obsidian's [el.toggleClass(cls, value)] *)
Definition toggleClass (c : string) (value : bool) (e : Element) : Element :=
  if value then addClass c e else removeClass c e.

(** [parent.appendChild(e)], seen from the child *)
Definition appendTo (p : Parent) (e : Element) : Element := {|
  tagName := tagName e; idAttr := idAttr e; classList := classList e;
  parentNode := Some p; childNodes := childNodes e;
  textContent := textContent e
|}.

(** [e.remove()] *)
Definition remove (e : Element) : Element := {|
  tagName := tagName e; idAttr := idAttr e; classList := classList e;
  parentNode := None; childNodes := childNodes e;
  textContent := textContent e
|}.

Definition setId (i : string) (e : Element) : Element := {|
  tagName := tagName e; idAttr := Some i; classList := classList e;
  parentNode := parentNode e; childNodes := childNodes e;
  textContent := textContent e
|}.

(** [e.empty()] followed by appending [bs] in order *)
Definition setChildNodes (bs : list Button) (e : Element) : Element := {|
  tagName := tagName e; idAttr := idAttr e; classList := classList e;
  parentNode := parentNode e; childNodes := bs;
  textContent := textContent e
|}.

Definition setTextContent (c : Css) (e : Element) : Element := {|
  tagName := tagName e; idAttr := idAttr e; classList := classList e;
  parentNode := parentNode e; childNodes := childNodes e;
  textContent := Some c
|}.

Definition attached (e : Element) : Prop := is_Some (parentNode e).

Definition hasClass (c : string) (e : Element) : Prop := c ∈ classList e.

End Dom.

(* ================================================================== *)
(** * The plugin: [ScrollControlPlugin] (src/main.ts, lines 66-582)     *)
(* ================================================================== *)

(** The fields of the plugin object, together with the elements it has
    created so far. *)
Record State := {
  settings : ScrollControlSettings;
  (** [Map<WorkspaceLeaf, HTMLElement>], in insertion order *)
  leafButtonContainers : list (leaf * Dom.elem);
  styleEl : option Dom.elem;
  dom : Dom.Heap
}.

Definition with_dom (f : Dom.Heap -> Dom.Heap) (s : State) : State := {|
  settings := settings s;
  leafButtonContainers := leafButtonContainers s;
  styleEl := styleEl s;
  dom := f (dom s)
|}.

Definition with_containers
    (f : list (leaf * Dom.elem) -> list (leaf * Dom.elem)) (s : State) : State := {|
  settings := settings s;
  leafButtonContainers := f (leafButtonContainers s);
  styleEl := styleEl s;
  dom := dom s
|}.

Definition with_styleEl (e : option Dom.elem) (s : State) : State := {|
  settings := settings s;
  leafButtonContainers := leafButtonContainers s;
  styleEl := e;
  dom := dom s
|}.

Definition with_settings (cfg : ScrollControlSettings) (s : State) : State := {|
  settings := cfg;
  leafButtonContainers := leafButtonContainers s;
  styleEl := styleEl s;
  dom := dom s
|}.

(** The constructor: default settings, nothing tracked, no style element. *)
Definition constructor : State := {|
  settings := DEFAULT_SETTINGS;
  leafButtonContainers := [];
  styleEl := None;
  dom := []
|}.

(** ** [scrollToPosition] (lines 298-323) *)

Definition scrollToPosition
    (cfg : ScrollControlSettings) (position : Position)
    (view : option MarkdownView) : ScrollRequest :=
  match view with
  | None => NoRequest
  | Some view =>
      match getMode view with
      | source =>
          let line :=
            match position with top => 0 | bottom => lineCount view - 1 end in
          EditorScrollIntoView line 0 line 0 true
      | preview =>
          match previewEl view with
          | Some scrollHeight =>
              PreviewScrollTo
                (match position with top => 0 | bottom => scrollHeight end)
                (if useAnimations cfg then smooth else auto)
          | None => NoRequest
          end
      end
  end.

(** ** [createFloatingButtons] (lines 331-395) *)

Definition sizeClass (b : ButtonSize) : string :=
  match b with
  | small => "scroll-control-button-small"
  | medium => "scroll-control-button-medium"
  | large => "scroll-control-button-large"
  end.

Definition currentColor : JS.jsstring := JS.lit "currentColor".

(** The inner [createButton]: the button element that gets appended. *)
Definition createButton
    (cfg : ScrollControlSettings) (icon : Dom.Icon) (tooltip : string)
    (callback : Position * viewObject) : Dom.Button :=
  let classes :=
    ["scroll-control-button"; sizeClass (buttonSize cfg)]
      ++ (if useAnimations cfg then ["scroll-control-button-animated"] else []) in
  let iconColor :=
    if useCustomColor cfg then getContrastColor (buttonColor cfg)
    else currentColor in
  {| Dom.btnClassList :=
       classes ++ [if useCustomColor cfg then "scroll-control-button-custom"
                   else "scroll-control-button-default"];
     Dom.btnBackgroundColor :=
       if useCustomColor cfg then Some (buttonColor cfg) else None;
     Dom.btnColor := if useCustomColor cfg then Some iconColor else None;
     Dom.btnIcon := icon;
     Dom.btnStroke :=
       if bool_decide (iconColor = currentColor) then None else Some iconColor;
     Dom.btnAriaLabel := tooltip;
     Dom.btnOnClick := callback |}.


(** A button descriptor: icon, tooltip, callback, order. *)
Record BtnData := {
  icon : Dom.Icon;
  tooltip : string;
  callback : Position * viewObject;
  order : Z
}.

(** [buttons.sort((a, b) => a.order - b.order)]: a stable sort; [x] comes
    before every element of [l] in the array. *)
Fixpoint insertByOrder (x : BtnData) (l : list BtnData) : list BtnData :=
  match l with
  | [] => [x]
  | y :: t => if order x <=? order y then x :: y :: t else y :: insertByOrder x t
  end.

Definition sortByOrder (l : list BtnData) : list BtnData :=
  foldr insertByOrder [] l.

Definition buttonData (cfg : ScrollControlSettings) (view : viewObject)
    : list BtnData :=
  (if showScrollTopButton cfg then
     [{| icon := Dom.scrollTopIcon; tooltip := "Scroll to Top";
         callback := (top, view);
         order := if invertButtonOrder cfg then 1 else 0 |}]
   else [])
  ++
  (if showScrollBottomButton cfg then
     [{| icon := Dom.scrollBottomIcon; tooltip := "Scroll to Bottom";
         callback := (bottom, view);
         order := if invertButtonOrder cfg then 0 else 1 |}]
   else []).

Definition floatingButtons (cfg : ScrollControlSettings) (view : viewObject)
    : list Dom.Button :=
  (fun d => createButton cfg (icon d) (tooltip d) (callback d))
    <$> sortByOrder (buttonData cfg view).

Definition createFloatingButtons
    (container : Dom.elem) (view : viewObject) (s : State) : State :=
  with_dom
    (alter (Dom.setChildNodes (floatingButtons (settings s) view)) container) s.

(** ** Pane tracking (lines 167-290) *)

Definition setVisibility (visible : bool) (e : Dom.Element) : Dom.Element :=
  Dom.toggleClass "scroll-control-hidden" (negb visible)
    (Dom.toggleClass "scroll-control-visible" visible e).

Definition updateSingleLeafVisibility
    (w : Workspace) (l : leaf) (s : State) : State :=
  match JS.map_get l (leafButtonContainers s) with
  | Some container =>
      let isActive := bool_decide (activeLeaf w = Some l) in
      with_dom (alter (setVisibility isActive) container) s
  | None => s
  end.

Definition addButtonsToLeaf (w : Workspace) (l : leaf) (s : State) : State :=
  if negb (isMarkdownView w l) || JS.map_has l (leafButtonContainers s) then s
  else
    let view := leafView w l in
    let '(container, h) := Dom.createElement Dom.DIV (dom s) in
    let h := alter (Dom.addClass "scroll-control-button-container") container h in
    match viewContent w l with
    | None => with_dom (fun _ => h) s
    | Some vc =>
        let h := alter (Dom.appendTo (Dom.InViewContent vc)) container h in
        let s := with_dom (fun _ => h) s in
        let s := with_containers (JS.map_set l container) s in
        let s := createFloatingButtons container view s in
        updateSingleLeafVisibility w l s
    end.

Definition removeButtonsFromLeaf (l : leaf) (s : State) : State :=
  if JS.map_has l (leafButtonContainers s) then
    let s :=
      match JS.map_get l (leafButtonContainers s) with
      | Some container => with_dom (alter Dom.remove container) s
      | None => s
      end in
    with_containers (JS.map_delete l) s
  else s.

(** [forAllMarkdownLeaves(callback)] *)
Definition forAllMarkdownLeaves
    (w : Workspace) (callback : leaf -> State -> State) (s : State) : State :=
  fold_left (fun st l => callback l st) (markdownLeaves w) s.

Definition initializeAllButtons (w : Workspace) (s : State) : State :=
  forAllMarkdownLeaves w (fun l st => addButtonsToLeaf w l st) s.

Definition updateAllButtons (w : Workspace) (s : State) : State :=
  forAllMarkdownLeaves w
    (fun l st => addButtonsToLeaf w l (removeButtonsFromLeaf l st)) s.

(** The callback that [handleLayoutChange] debounces (lines 196-215); when
    it runs is decided by the host's [debounce]. *)
Definition handleLayoutChange (w : Workspace) (s : State) : State :=
  let currentLeaves := JS.new_Set (markdownLeaves w) in
  let knownLeaves := JS.new_Set (JS.map_keys (leafButtonContainers s)) in
  let s :=
    fold_left
      (fun st l =>
         if negb (JS.set_has l knownLeaves) then addButtonsToLeaf w l st else st)
      currentLeaves s in
  fold_left
    (fun st l =>
       if negb (JS.set_has l currentLeaves) then removeButtonsFromLeaf l st
       else st)
    knownLeaves s.

Definition handleActiveLeafChange
    (w : Workspace) (active : option leaf) (s : State) : State :=
  fold_left
    (fun st '(l, container) =>
       if isMarkdownView w l then
         let shouldBeVisible := bool_decide (Some l = active) in
         with_dom (alter (setVisibility shouldBeVisible) container) st
       else st)
    (leafButtonContainers s) s.

(** ** Style sheet (lines 401-525) *)

Definition css (cfg : ScrollControlSettings) : Dom.Css :=
  (horizontalPadding cfg, verticalPadding cfg, buttonSpacing cfg,
   animationSpeed cfg).

Definition updateStyle (s : State) : State :=
  match styleEl s with
  | None => s
  | Some e => with_dom (alter (Dom.setTextContent (css (settings s))) e) s
  end.

Definition removeStyleEl (s : State) : State :=
  match styleEl s with
  | Some e => with_dom (alter Dom.remove e) s
  | None => s
  end.

Definition addStyle (s : State) : State :=
  let s := removeStyleEl s in
  let '(e, h) := Dom.createElement Dom.STYLE (dom s) in
  let h := alter (Dom.setId "scroll-control-styles") e h in
  let h := alter (Dom.appendTo Dom.InHead) e h in
  updateStyle (with_styleEl (Some e) (with_dom (fun _ => h) s)).

(** ** Settings and life cycle (lines 120-161) *)

Definition saveSettings (w : Workspace) (s : State) : State :=
  updateStyle (updateAllButtons w s).

Definition onunload (s : State) : State :=
  let s :=
    fold_left
      (fun st '(_, container) => with_dom (alter Dom.remove container) st)
      (leafButtonContainers s) s in
  let s := with_containers (fun _ => []) s in
  let s := removeStyleEl s in
  with_styleEl None s.

(** The states of a plugin instance: what the constructor builds, and
    whatever the entry points make of it, each against the workspace of
    the moment. [loadSettings] and the settings tab replace or mutate the
    settings record. *)
Inductive reachable : State -> Prop :=
| reach_constructor : reachable constructor
| reach_settings s cfg : reachable s -> reachable (with_settings cfg s)
| reach_addStyle s : reachable s -> reachable (addStyle s)
| reach_initializeAllButtons w s :
    reachable s -> reachable (initializeAllButtons w s)
| reach_handleLayoutChange w s :
    reachable s -> reachable (handleLayoutChange w s)
| reach_handleActiveLeafChange w a s :
    reachable s -> reachable (handleActiveLeafChange w a s)
| reach_saveSettings w s : reachable s -> reachable (saveSettings w s)
| reach_onunload s : reachable s -> reachable (onunload s).

(** ** The debounced handler (lines 195-218) *)

(** The delay handed to [debounce] (line 216), in milliseconds. *)
Definition quiescenceWindow : Z := 300.

(** Modelled from the spec: the state of the [debounce] utility of the
    host, which is not under [src/]: "a timer-based coalescing queue"
    with "a single pending timer". Beside the plugin, the time at which
    the pending timer expires, if one is pending, and the times at which
    the reconciliation has run so far. *)
Record Debounced := {
  plugin : State;
  pendingTimer : option Z;
  reconciliations : list Z
}.

(** Modelled from the spec: the expiry of the timer of the host's
    [debounce], which is not under [src/]: "on expiry, the queue drains
    to one reconciliation call using the latest snapshot". Time has
    advanced to [now]; a timer that has expired by then has run the
    handler of lines 196-215 at its expiry time, on the workspace of
    that time. *)
Definition expire
    (workspaceAt : Z -> Workspace) (now : Z) (d : Debounced) : Debounced :=
  match pendingTimer d with
  | Some expiry =>
      if expiry <=? now then
        {| plugin := handleLayoutChange (workspaceAt expiry) (plugin d);
           pendingTimer := None;
           reconciliations := reconciliations d ++ [expiry] |}
      else d
  | None => d
  end.

(** Modelled from the spec: a call of the function that the host's
    [debounce] returns, which is not under [src/]: "each trigger resets
    a single pending timer", and "during the quiescence window, arriving
    events reset the window", with "leading-edge suppression". A
    [layout-change] event at time [t] runs nothing by itself and leaves
    the timer to expire one window later. *)
Definition layoutChange
    (workspaceAt : Z -> Workspace) (t : Z) (d : Debounced) : Debounced :=
  let d := expire workspaceAt t d in
  {| plugin := plugin d;
     pendingTimer := Some (t + quiescenceWindow);
     reconciliations := reconciliations d |}.

(** [layout-change] events at the given times, in this order. *)
Definition layoutChanges
    (workspaceAt : Z -> Workspace) (events : list Z) (d : Debounced)
    : Debounced :=
  fold_left (fun d t => layoutChange workspaceAt t d) events d.

(** The events, and then no event until the pending timer has expired. *)
Definition afterEvents
    (workspaceAt : Z -> Workspace) (events : list Z) (d : Debounced)
    : Debounced :=
  let d := layoutChanges workspaceAt events d in
  match pendingTimer d with
  | Some expiry => expire workspaceAt expiry d
  | None => d
  end.

(** ** Observations used by the properties *)

(** The panes tracked in [leafButtonContainers]. *)
Definition tracked (s : State) : list leaf :=
  JS.map_keys (leafButtonContainers s).

(** A pane on which [addButtonsToLeaf] can attach an overlay: its view is
    a [MarkdownView] and its [.view-content] element is found. *)
Definition attachable (w : Workspace) (l : leaf) : Prop :=
  isMarkdownView w l = true ∧ is_Some (viewContent w l).

(** How the handlers mark an overlay: with one of the two classes. *)
Definition markedVisible (e : Dom.Element) : Prop :=
  Dom.hasClass "scroll-control-visible" e
  ∧ ¬ Dom.hasClass "scroll-control-hidden" e.

Definition markedHidden (e : Dom.Element) : Prop :=
  Dom.hasClass "scroll-control-hidden" e
  ∧ ¬ Dom.hasClass "scroll-control-visible" e.

(** ** Commands (lines 84-96 and 133-139) *)

(** [getActiveMarkdownView()]: the view object of the active pane, when
    it is a [MarkdownView]. *)
Definition getActiveMarkdownView (w : Workspace) : option viewObject :=
  match activeLeaf w with
  | Some l => if isMarkdownView w l then Some (leafView w l) else None
  | None => None
  end.

(** The two commands registered by [onload]. *)
Inductive Command := scroll_to_top | scroll_to_bottom.

(** The callback of a command; [reading view] is what
    [scrollToPosition] reads from the view object when the command
    runs. *)
Definition commandCallback
    (cfg : ScrollControlSettings) (w : Workspace)
    (reading : viewObject -> MarkdownView) (c : Command) : ScrollRequest :=
  match c with
  | scroll_to_top =>
      scrollToPosition cfg top (reading <$> getActiveMarkdownView w)
  | scroll_to_bottom =>
      scrollToPosition cfg bottom (reading <$> getActiveMarkdownView w)
  end.

(** ** [loadSettings] and [onload] (lines 80-118 and 144-150) *)

(** The object [loadData()] resolves to: any of the settings may be
    missing from it. *)
Record StoredData := {
  stored_showScrollTopButton : option bool;
  stored_showScrollBottomButton : option bool;
  stored_buttonSize : option ButtonSize;
  stored_buttonColor : option JS.jsstring;
  stored_useCustomColor : option bool;
  stored_animationSpeed : option Z;
  stored_useAnimations : option bool;
  stored_invertButtonOrder : option bool;
  stored_buttonSpacing : option Z;
  stored_horizontalPadding : option Z;
  stored_verticalPadding : option Z
}.

(** The object [saveSettings] hands to [saveData]: the settings record. *)
Definition saveData (cfg : ScrollControlSettings) : StoredData := {|
  stored_showScrollTopButton := Some (showScrollTopButton cfg);
  stored_showScrollBottomButton := Some (showScrollBottomButton cfg);
  stored_buttonSize := Some (buttonSize cfg);
  stored_buttonColor := Some (buttonColor cfg);
  stored_useCustomColor := Some (useCustomColor cfg);
  stored_animationSpeed := Some (animationSpeed cfg);
  stored_useAnimations := Some (useAnimations cfg);
  stored_invertButtonOrder := Some (invertButtonOrder cfg);
  stored_buttonSpacing := Some (buttonSpacing cfg);
  stored_horizontalPadding := Some (horizontalPadding cfg);
  stored_verticalPadding := Some (verticalPadding cfg)
|}.

(** [Object.assign({}, DEFAULT_SETTINGS, data)]: the properties of [data]
    go over the defaults; a [null] source is skipped. *)
Definition loadSettings (data : option StoredData) : ScrollControlSettings :=
  match data with
  | None => DEFAULT_SETTINGS
  | Some d => {|
      showScrollTopButton :=
        default (showScrollTopButton DEFAULT_SETTINGS) (stored_showScrollTopButton d);
      showScrollBottomButton :=
        default (showScrollBottomButton DEFAULT_SETTINGS) (stored_showScrollBottomButton d);
      buttonSize :=
        default (buttonSize DEFAULT_SETTINGS) (stored_buttonSize d);
      buttonColor :=
        default (buttonColor DEFAULT_SETTINGS) (stored_buttonColor d);
      useCustomColor :=
        default (useCustomColor DEFAULT_SETTINGS) (stored_useCustomColor d);
      animationSpeed :=
        default (animationSpeed DEFAULT_SETTINGS) (stored_animationSpeed d);
      useAnimations :=
        default (useAnimations DEFAULT_SETTINGS) (stored_useAnimations d);
      invertButtonOrder :=
        default (invertButtonOrder DEFAULT_SETTINGS) (stored_invertButtonOrder d);
      buttonSpacing :=
        default (buttonSpacing DEFAULT_SETTINGS) (stored_buttonSpacing d);
      horizontalPadding :=
        default (horizontalPadding DEFAULT_SETTINGS) (stored_horizontalPadding d);
      verticalPadding :=
        default (verticalPadding DEFAULT_SETTINGS) (stored_verticalPadding d)
    |}
  end.

(** [onload], with the callback it hands to [onLayoutReady]: [data] is
    what [loadData()] resolves to and [w] the workspace when the layout
    is ready. *)
Definition onload (data : option StoredData) (w : Workspace) : State :=
  let s := with_settings (loadSettings data) constructor in
  let s := addStyle s in
  initializeAllButtons w s.

(** ** The settings tab (lines 600-825) *)

Definition set_showScrollTopButton (value : bool) (cfg : ScrollControlSettings)
    : ScrollControlSettings := {|
  showScrollTopButton := value;
  showScrollBottomButton := showScrollBottomButton cfg;
  buttonSize := buttonSize cfg;
  buttonColor := buttonColor cfg;
  useCustomColor := useCustomColor cfg;
  animationSpeed := animationSpeed cfg;
  useAnimations := useAnimations cfg;
  invertButtonOrder := invertButtonOrder cfg;
  buttonSpacing := buttonSpacing cfg;
  horizontalPadding := horizontalPadding cfg;
  verticalPadding := verticalPadding cfg
|}.

Definition set_showScrollBottomButton (value : bool) (cfg : ScrollControlSettings)
    : ScrollControlSettings := {|
  showScrollTopButton := showScrollTopButton cfg;
  showScrollBottomButton := value;
  buttonSize := buttonSize cfg;
  buttonColor := buttonColor cfg;
  useCustomColor := useCustomColor cfg;
  animationSpeed := animationSpeed cfg;
  useAnimations := useAnimations cfg;
  invertButtonOrder := invertButtonOrder cfg;
  buttonSpacing := buttonSpacing cfg;
  horizontalPadding := horizontalPadding cfg;
  verticalPadding := verticalPadding cfg
|}.

Definition set_buttonSize (value : ButtonSize) (cfg : ScrollControlSettings)
    : ScrollControlSettings := {|
  showScrollTopButton := showScrollTopButton cfg;
  showScrollBottomButton := showScrollBottomButton cfg;
  buttonSize := value;
  buttonColor := buttonColor cfg;
  useCustomColor := useCustomColor cfg;
  animationSpeed := animationSpeed cfg;
  useAnimations := useAnimations cfg;
  invertButtonOrder := invertButtonOrder cfg;
  buttonSpacing := buttonSpacing cfg;
  horizontalPadding := horizontalPadding cfg;
  verticalPadding := verticalPadding cfg
|}.

Definition set_buttonColor (value : JS.jsstring) (cfg : ScrollControlSettings)
    : ScrollControlSettings := {|
  showScrollTopButton := showScrollTopButton cfg;
  showScrollBottomButton := showScrollBottomButton cfg;
  buttonSize := buttonSize cfg;
  buttonColor := value;
  useCustomColor := useCustomColor cfg;
  animationSpeed := animationSpeed cfg;
  useAnimations := useAnimations cfg;
  invertButtonOrder := invertButtonOrder cfg;
  buttonSpacing := buttonSpacing cfg;
  horizontalPadding := horizontalPadding cfg;
  verticalPadding := verticalPadding cfg
|}.

Definition set_useCustomColor (value : bool) (cfg : ScrollControlSettings)
    : ScrollControlSettings := {|
  showScrollTopButton := showScrollTopButton cfg;
  showScrollBottomButton := showScrollBottomButton cfg;
  buttonSize := buttonSize cfg;
  buttonColor := buttonColor cfg;
  useCustomColor := value;
  animationSpeed := animationSpeed cfg;
  useAnimations := useAnimations cfg;
  invertButtonOrder := invertButtonOrder cfg;
  buttonSpacing := buttonSpacing cfg;
  horizontalPadding := horizontalPadding cfg;
  verticalPadding := verticalPadding cfg
|}.

Definition set_animationSpeed (value : Z) (cfg : ScrollControlSettings)
    : ScrollControlSettings := {|
  showScrollTopButton := showScrollTopButton cfg;
  showScrollBottomButton := showScrollBottomButton cfg;
  buttonSize := buttonSize cfg;
  buttonColor := buttonColor cfg;
  useCustomColor := useCustomColor cfg;
  animationSpeed := value;
  useAnimations := useAnimations cfg;
  invertButtonOrder := invertButtonOrder cfg;
  buttonSpacing := buttonSpacing cfg;
  horizontalPadding := horizontalPadding cfg;
  verticalPadding := verticalPadding cfg
|}.

Definition set_useAnimations (value : bool) (cfg : ScrollControlSettings)
    : ScrollControlSettings := {|
  showScrollTopButton := showScrollTopButton cfg;
  showScrollBottomButton := showScrollBottomButton cfg;
  buttonSize := buttonSize cfg;
  buttonColor := buttonColor cfg;
  useCustomColor := useCustomColor cfg;
  animationSpeed := animationSpeed cfg;
  useAnimations := value;
  invertButtonOrder := invertButtonOrder cfg;
  buttonSpacing := buttonSpacing cfg;
  horizontalPadding := horizontalPadding cfg;
  verticalPadding := verticalPadding cfg
|}.

Definition set_invertButtonOrder (value : bool) (cfg : ScrollControlSettings)
    : ScrollControlSettings := {|
  showScrollTopButton := showScrollTopButton cfg;
  showScrollBottomButton := showScrollBottomButton cfg;
  buttonSize := buttonSize cfg;
  buttonColor := buttonColor cfg;
  useCustomColor := useCustomColor cfg;
  animationSpeed := animationSpeed cfg;
  useAnimations := useAnimations cfg;
  invertButtonOrder := value;
  buttonSpacing := buttonSpacing cfg;
  horizontalPadding := horizontalPadding cfg;
  verticalPadding := verticalPadding cfg
|}.

Definition set_buttonSpacing (value : Z) (cfg : ScrollControlSettings)
    : ScrollControlSettings := {|
  showScrollTopButton := showScrollTopButton cfg;
  showScrollBottomButton := showScrollBottomButton cfg;
  buttonSize := buttonSize cfg;
  buttonColor := buttonColor cfg;
  useCustomColor := useCustomColor cfg;
  animationSpeed := animationSpeed cfg;
  useAnimations := useAnimations cfg;
  invertButtonOrder := invertButtonOrder cfg;
  buttonSpacing := value;
  horizontalPadding := horizontalPadding cfg;
  verticalPadding := verticalPadding cfg
|}.

Definition set_horizontalPadding (value : Z) (cfg : ScrollControlSettings)
    : ScrollControlSettings := {|
  showScrollTopButton := showScrollTopButton cfg;
  showScrollBottomButton := showScrollBottomButton cfg;
  buttonSize := buttonSize cfg;
  buttonColor := buttonColor cfg;
  useCustomColor := useCustomColor cfg;
  animationSpeed := animationSpeed cfg;
  useAnimations := useAnimations cfg;
  invertButtonOrder := invertButtonOrder cfg;
  buttonSpacing := buttonSpacing cfg;
  horizontalPadding := value;
  verticalPadding := verticalPadding cfg
|}.

Definition set_verticalPadding (value : Z) (cfg : ScrollControlSettings)
    : ScrollControlSettings := {|
  showScrollTopButton := showScrollTopButton cfg;
  showScrollBottomButton := showScrollBottomButton cfg;
  buttonSize := buttonSize cfg;
  buttonColor := buttonColor cfg;
  useCustomColor := useCustomColor cfg;
  animationSpeed := animationSpeed cfg;
  useAnimations := useAnimations cfg;
  invertButtonOrder := invertButtonOrder cfg;
  buttonSpacing := buttonSpacing cfg;
  horizontalPadding := horizontalPadding cfg;
  verticalPadding := value
|}.

(** A change reported by one of the controls of the tab, with the value
    the control hands to its [onChange] callback. *)
Inductive SettingChange :=
| ButtonSizeChanged (value : string)
| UseCustomColorChanged (value : bool)
| ButtonColorChanged (value : JS.jsstring)
| UseAnimationsChanged (value : bool)
| AnimationSpeedChanged (value : Z)
| ShowScrollTopButtonChanged (value : bool)
| ShowScrollBottomButtonChanged (value : bool)
| InvertButtonOrderChanged (value : bool)
| ButtonSpacingChanged (value : Z)
| HorizontalPaddingChanged (value : Z)
| VerticalPaddingChanged (value : Z).

(** The test of the dropdown callback:
    [value === 'small' || value === 'medium' || value === 'large']. *)
Definition buttonSizeOf (value : string) : option ButtonSize :=
  if String.eqb value "small" then Some small
  else if String.eqb value "medium" then Some medium
  else if String.eqb value "large" then Some large
  else None.

(** The settings an [onChange] callback writes; [None] when it returns
    without writing. *)
Definition onChange (c : SettingChange) (cfg : ScrollControlSettings)
    : option ScrollControlSettings :=
  match c with
  | ButtonSizeChanged value =>
      match buttonSizeOf value with
      | Some size => Some (set_buttonSize size cfg)
      | None => None
      end
  | UseCustomColorChanged value => Some (set_useCustomColor value cfg)
  | ButtonColorChanged value =>
      (* value || DEFAULT_SETTINGS.buttonColor *)
      Some (set_buttonColor
              (match value with
               | [] => buttonColor DEFAULT_SETTINGS
               | _ => value
               end) cfg)
  | UseAnimationsChanged value => Some (set_useAnimations value cfg)
  | AnimationSpeedChanged value => Some (set_animationSpeed value cfg)
  | ShowScrollTopButtonChanged value => Some (set_showScrollTopButton value cfg)
  | ShowScrollBottomButtonChanged value =>
      Some (set_showScrollBottomButton value cfg)
  | InvertButtonOrderChanged value => Some (set_invertButtonOrder value cfg)
  | ButtonSpacingChanged value => Some (set_buttonSpacing value cfg)
  | HorizontalPaddingChanged value => Some (set_horizontalPadding value cfg)
  | VerticalPaddingChanged value => Some (set_verticalPadding value cfg)
  end.

(** What an [onChange] callback does to the plugin: it writes the
    setting and calls [saveSettings]. *)
Definition settingChanged (w : Workspace) (c : SettingChange) (s : State)
    : State :=
  match onChange c (settings s) with
  | Some cfg => saveSettings w (with_settings cfg s)
  | None => s
  end.

(** ** [updatePreviewButtons] (lines 830-952) *)

Definition themeBackground : JS.jsstring := JS.lit "var(--background-secondary)".
Definition themeText : JS.jsstring := JS.lit "var(--text-normal)".

(** A button of the preview: as an overlay button, without listener. *)
Record PreviewButton := {
  pvClassList : list string;
  pvBackgroundColor : option JS.jsstring;
  pvColor : option JS.jsstring;
  pvIcon : Dom.Icon;
  pvStroke : option JS.jsstring;
  pvAriaLabel : string
}.

Record PreviewData := {
  pvDataIcon : Dom.Icon;
  pvDataTooltip : string;
  pvDataOrder : Z
}.

Fixpoint insertPreviewByOrder (x : PreviewData) (l : list PreviewData)
    : list PreviewData :=
  match l with
  | [] => [x]
  | y :: t =>
      if pvDataOrder x <=? pvDataOrder y then x :: y :: t
      else y :: insertPreviewByOrder x t
  end.

Definition sortPreviewByOrder (l : list PreviewData) : list PreviewData :=
  foldr insertPreviewByOrder [] l.

Definition previewData (cfg : ScrollControlSettings) : list PreviewData :=
  (if showScrollTopButton cfg then
     [{| pvDataIcon := Dom.scrollTopIcon;
         pvDataTooltip := "Scroll to Top (Preview)";
         pvDataOrder := if invertButtonOrder cfg then 1 else 0 |}]
   else [])
  ++
  (if showScrollBottomButton cfg then
     [{| pvDataIcon := Dom.scrollBottomIcon;
         pvDataTooltip := "Scroll to Bottom (Preview)";
         pvDataOrder := if invertButtonOrder cfg then 0 else 1 |}]
   else []).

(** What the preview container holds after [empty()]: the span
    [No buttons enabled], or the wrapper with its [gap] and buttons. *)
Inductive PreviewContent :=
| NoButtonsEnabled
| PreviewWrapper (gap : Z) (buttons : list PreviewButton).

Record Preview := {
  (** value assigned to [previewContainer.style.backgroundColor] *)
  previewBackgroundColor : JS.jsstring;
  (** value assigned to [previewContainer.style.color] *)
  previewTextColor : JS.jsstring;
  previewContent : PreviewContent
}.

(** The colours chosen first: button background, icon colour, preview
    background, preview text. [cssAccepts v] tells whether
    [style.backgroundColor] is non-empty after [v] was assigned to it on
    a new element. *)
Definition previewColors
    (cssAccepts : JS.jsstring -> bool) (cfg : ScrollControlSettings)
    : JS.jsstring * JS.jsstring * JS.jsstring * JS.jsstring :=
  if useCustomColor cfg then
    if cssAccepts (buttonColor cfg) then
      let buttonBackgroundColor := buttonColor cfg in
      let finalIconColor := getContrastColor buttonBackgroundColor in
      let contrastToButtonBg := getContrastColor buttonBackgroundColor in
      (buttonBackgroundColor, finalIconColor, contrastToButtonBg,
       getContrastColor contrastToButtonBg)
    else (themeBackground, themeText, themeText, themeBackground)
  else (themeBackground, themeText, themeText, themeBackground).

Definition previewButton
    (cssAccepts : JS.jsstring -> bool) (cfg : ScrollControlSettings)
    (buttonBackgroundColor finalIconColor : JS.jsstring) (d : PreviewData)
    : PreviewButton :=
  let classes :=
    ["scroll-control-button"; sizeClass (buttonSize cfg);
     "scroll-control-preview-button"] in
  let '(background, color, cls, iconColor) :=
    if useCustomColor cfg then
      if cssAccepts buttonBackgroundColor then
        (Some buttonBackgroundColor, Some finalIconColor,
         "scroll-control-button-custom", finalIconColor)
      else (None, None, "scroll-control-button-default", themeText)
    else
      (Some buttonBackgroundColor, Some finalIconColor,
       "scroll-control-button-default", finalIconColor) in
  {| pvClassList := classes ++ [cls];
     pvBackgroundColor := background;
     pvColor := color;
     pvIcon := pvDataIcon d;
     pvStroke :=
       if bool_decide (iconColor = currentColor) then None else Some iconColor;
     pvAriaLabel := pvDataTooltip d |}.

Definition updatePreviewButtons
    (cssAccepts : JS.jsstring -> bool) (cfg : ScrollControlSettings) : Preview :=
  let '(buttonBackgroundColor, finalIconColor, previewBackground, previewText) :=
    previewColors cssAccepts cfg in
  let buttons := previewData cfg in
  {| previewBackgroundColor := previewBackground;
     previewTextColor := previewText;
     previewContent :=
       match buttons with
       | [] => NoButtonsEnabled
       | _ =>
           PreviewWrapper (buttonSpacing cfg)
             (previewButton cssAccepts cfg buttonBackgroundColor finalIconColor
                <$> sortPreviewByOrder buttons)
       end |}.

(* ================================================================== *)
(** * The earlier variant of the plugin ([src/unnamed/part_001])        *)
(* ================================================================== *)

(** The earlier variant has one set of buttons, fixed to the window, and
    two more commands that scroll by a number of lines. *)
Module Legacy.

Inductive ButtonPosition := toolbar | ribbon | floating.

Record ScrollControlSettings := {
  showScrollTopButton : bool;
  showScrollBottomButton : bool;
  showScrollUpButton : bool;
  showScrollDownButton : bool;
  buttonPosition : ButtonPosition;
  scrollStep : Z;
  buttonSize : ButtonSize;
  buttonColor : JS.jsstring;
  useCustomColor : bool;
  animationSpeed : Z;
  useAnimations : bool;
  autoHide : bool;
  autoHideDelay : Z;
  horizontalPadding : Z;
  verticalPadding : Z
}.

Definition DEFAULT_SETTINGS : ScrollControlSettings := {|
  showScrollTopButton := true;
  showScrollBottomButton := true;
  showScrollUpButton := false;
  showScrollDownButton := false;
  buttonPosition := floating;
  scrollStep := 10;
  buttonSize := medium;
  buttonColor := JS.lit "#666666";
  useCustomColor := false;
  animationSpeed := 300;
  useAnimations := true;
  autoHide := false;
  autoHideDelay := 2000;
  horizontalPadding := 16;
  verticalPadding := 40
|}.

Inductive Direction := up | down.

(** What the scroll functions read from the view that
    [getActiveViewOfType(MarkdownView)] returns. *)
Record View := {
  getMode : Mode;
  (** [view.editor.lineCount()] *)
  lineCount : Z;
  (** [view.editor.getCursor().line] *)
  cursorLine : Z;
  (** [scrollHeight] of the element found by
      [contentEl.querySelector('.markdown-preview-view')] *)
  previewEl : option Z
}.

(** The request [scrollPartial] sends to the host, if any; the preview
    always scrolls smoothly. *)
Inductive ScrollRequest :=
| NoRequest
| EditorScrollIntoView (fromLine fromCh toLine toCh : Z) (center : bool)
| PreviewScrollBy (scrollTop : Z).

(** [scrollPartial] (lines 127-161) *)
Definition scrollPartial
    (cfg : ScrollControlSettings) (direction : Direction) (view : option View)
    : ScrollRequest :=
  match view with
  | None => NoRequest
  | Some view =>
      match getMode view with
      | source =>
          let currentLine := cursorLine view in
          let targetLine :=
            match direction with
            | up => Z.max 0 (currentLine - scrollStep cfg)
            | down => Z.min (lineCount view - 1) (currentLine + scrollStep cfg)
            end in
          EditorScrollIntoView targetLine 0 targetLine 0 true
      | preview =>
          match previewEl view with
          | Some _ =>
              let scrollAmount := scrollStep cfg * 20 in
              PreviewScrollBy
                (match direction with
                 | up => - scrollAmount
                 | down => scrollAmount
                 end)
          | None => NoRequest
          end
      end
  end.

(** [createFloatingButtons] (lines 174-244) *)

Inductive Icon := scrollTop | scrollBottom | scrollUp | scrollDown.

Inductive Action :=
| ScrollToPosition (position : Position)
| ScrollPartial (direction : Direction).

(** A button appended to [document.body]. *)
Record Button := {
  btnClassList : list string;
  btnIcon : Icon;
  btnAriaLabel : string;
  (** the number of pixels written to [style.bottom]: a binary64 number,
      the result of an addition and a multiplication *)
  btnBottom : JS.number;
  (** the number of pixels written to [style.right]: the setting *)
  btnRight : Z;
  btnBackgroundColor : option JS.jsstring;
  btnOnClick : Action;
  (** whether [setupAutoHide] was called on the button *)
  btnAutoHide : bool
}.

Definition createButton
    (cfg : ScrollControlSettings) (icon : Icon) (tooltip : string)
    (callback : Action) (position : Z) : Button := {|
  btnClassList :=
    ["scroll-control-button"; sizeClass (buttonSize cfg)]
      ++ (if useAnimations cfg then ["scroll-control-button-animated"] else []);
  btnIcon := icon;
  btnAriaLabel := tooltip;
  btnBottom :=
    JS.add (JS.of_Z (verticalPadding cfg) false)
           (JS.mul (JS.of_Z position false) (JS.of_Z 48 false));
  btnRight := horizontalPadding cfg;
  btnBackgroundColor :=
    if useCustomColor cfg then Some (buttonColor cfg) else None;
  btnOnClick := callback;
  btnAutoHide := autoHide cfg
|}.

(** One [if (...) createButton(..., position++)]: the buttons pushed so
    far and the counter, which counts from 0 to at most 4. *)
Definition pushButton
    (cfg : ScrollControlSettings) (enabled : bool) (icon : Icon)
    (tooltip : string) (callback : Action) (st : list Button * Z)
    : list Button * Z :=
  if enabled then
    (st.1 ++ [createButton cfg icon tooltip callback st.2], st.2 + 1)
  else st.

(** The buttons in [this.floatingButtons] after [createFloatingButtons]
    has run on an empty list. *)
Definition createFloatingButtons (cfg : ScrollControlSettings) : list Button :=
  let st := ([], 0) in
  let st :=
    pushButton cfg (showScrollTopButton cfg) scrollTop "Scroll to Top"
      (ScrollToPosition top) st in
  let st :=
    pushButton cfg (showScrollUpButton cfg) scrollUp "Scroll Up"
      (ScrollPartial up) st in
  let st :=
    pushButton cfg (showScrollDownButton cfg) scrollDown "Scroll Down"
      (ScrollPartial down) st in
  let st :=
    pushButton cfg (showScrollBottomButton cfg) scrollBottom "Scroll to Bottom"
      (ScrollToPosition bottom) st in
  st.1.

End Legacy.

(* ================================================================== *)
(** * Notions used to state the properties                              *)
(* ================================================================== *)

(** ** Colours *)

(** Numbers that are neither [NaN] nor negative: the values the
    luminance of a parsed colour goes through. *)
Definition nonneg (x : JS.number) : Prop :=
  match x with
  | S754_zero false | S754_infinity false | S754_finite false _ _ => True
  | _ => False
  end.

(** The colour a valid hex string denotes, as the specification reads it:
    [#RRGGBB] gives three bytes, [#RGB] stands for [#RRGGBB] with each
    nibble doubled. Anything else is not a valid colour. *)
Definition hexByte (hi lo : JS.code_unit) : option Z :=
  d1 ← JS.hexDigit hi; d2 ← JS.hexDigit lo; Some (16 * d1 + d2).

Definition rgbOfHex (s : JS.jsstring) : option (Z * Z * Z) :=
  match s with
  | [h; r1; g1; b1] =>
      if (h =? 35)%N then
        r ← hexByte r1 r1; g ← hexByte g1 g1; b ← hexByte b1 b1; Some (r, g, b)
      else None
  | [h; r1; r2; g1; g2; b1; b2] =>
      if (h =? 35)%N then
        r ← hexByte r1 r2; g ← hexByte g1 g2; b ← hexByte b1 b2; Some (r, g, b)
      else None
  | _ => None
  end.

(** The byte values. *)
Definition bytes : list Z := Z.of_nat <$> seq 0 256.

(** For a red and a green byte, the blue byte, if any, at which the exact
    luminance [(299 r + 587 g + 114 b) / 255000] is 1/2; the check that
    the computed luminance exceeds 0.5 there for one colour only. *)
Definition tieBlue (r g : Z) : option Z :=
  let n := 127500 - 299 * r - 587 * g in
  if (n mod 114 =? 0) && (0 <=? n / 114) && (n / 114 <? 256)
  then Some (n / 114) else None.

Definition tieChecked (r g : Z) : bool :=
  match tieBlue r g with
  | Some b =>
      Bool.eqb
        (JS.gt (luminance (JS.of_Z r false) (JS.of_Z g false) (JS.of_Z b false))
               JS.lit_0_5)
        ((r =? 218) && (g =? 58))
  | None => true
  end.

(** ** Tracking *)

(** The panes tracked so far that are still open can be attached to: their
    attachment point resolves as it did when their overlay was made. *)
Definition trackedAttachable (w : Workspace) (s : State) : Prop :=
  ∀ l, l ∈ tracked s → l ∈ markdownLeaves w → attachable w l.

(** Among the open panes, exactly those that can be attached to are
    tracked: the state a reconciliation leaves. *)
Definition inSync (w : Workspace) (s : State) : Prop :=
  ∀ l, l ∈ markdownLeaves w → (l ∈ tracked s ↔ attachable w l).

(** ** Numbers of the earlier variant *)

(** Equality of binary64 values as data. *)
Definition number_eqb (x y : JS.number) : bool :=
  match x, y with
  | S754_zero s, S754_zero s' => Bool.eqb s s'
  | S754_infinity s, S754_infinity s' => Bool.eqb s s'
  | S754_nan, S754_nan => true
  | S754_finite s m e, S754_finite s' m' e' =>
      Bool.eqb s s' && (m =? m')%positive && (e =? e')
  | _, _ => false
  end.

(** The check, for one vertical padding, that the binary64 sum computed
    for each of the four places is the number of the exact sum, and that
    the four exact sums are four different numbers. *)
Definition stackChecked (padding : Z) : bool :=
  forallb
    (fun i =>
       number_eqb
         (JS.add (JS.of_Z padding false)
                 (JS.mul (JS.of_Z i false) (JS.of_Z 48 false)))
         (JS.of_Z (padding + 48 * i) false))
    [0; 1; 2; 3]
  && forallb
       (fun '(i, j) =>
          negb (number_eqb (JS.of_Z (padding + 48 * i) false)
                           (JS.of_Z (padding + 48 * j) false)))
       [(0, 1); (0, 2); (0, 3); (1, 2); (1, 3); (2, 3)].

(** The paddings for which the check is run. *)
Definition paddings : list Z := Z.of_nat <$> seq 0 1001.

(** Stored settings with a vertical padding that binary64 cannot tell
    from its neighbours 48 and 96 away. *)
Definition hugePadding : Legacy.ScrollControlSettings := {|
  Legacy.showScrollTopButton := true;
  Legacy.showScrollBottomButton := true;
  Legacy.showScrollUpButton := false;
  Legacy.showScrollDownButton := false;
  Legacy.buttonPosition := Legacy.floating;
  Legacy.scrollStep := 10;
  Legacy.buttonSize := medium;
  Legacy.buttonColor := JS.lit "#666666";
  Legacy.useCustomColor := false;
  Legacy.animationSpeed := 300;
  Legacy.useAnimations := true;
  Legacy.autoHide := false;
  Legacy.autoHideDelay := 2000;
  Legacy.horizontalPadding := 16;
  Legacy.verticalPadding := 2 ^ 60
|}.

(** ** Bursts of events *)

(** A burst: an event at time [t] and later events, in order of time,
    each one within the quiescence window of the one before. *)
Fixpoint burst (t : Z) (later : list Z) : Prop :=
  match later with
  | [] => True
  | t' :: later => t ≤ t' < t + quiescenceWindow ∧ burst t' later
  end.

(** The plugin with no timer pending. *)
Definition idle (s : State) (calls : list Z) : Debounced :=
  {| plugin := s; pendingTimer := None; reconciliations := calls |}.

(** ** Elements *)

(** The elements stored in the table. *)
Definition containers (s : State) : list Dom.elem := (leafButtonContainers s).*2.

(** The invariant of the plugin states: the table has one entry per pane
    and one element per entry, its elements exist, every element that
    has a parent is in the table or is the style element, and the style
    element exists and is not in the table. *)
Definition wf (s : State) : Prop :=
  NoDup (tracked s)
  ∧ NoDup (containers s)
  ∧ (∀ c, c ∈ containers s → (c < length (dom s))%nat)
  ∧ (∀ e el, dom s !! e = Some el → Dom.attached el →
             e ∈ containers s ∨ styleEl s = Some e)
  ∧ (∀ e, styleEl s = Some e →
          (e ∉ containers s) ∧ (e < length (dom s))%nat).

(** Every overlay in the table sits under a [.view-content] element: the
    attachment point that was resolved when the overlay was made. *)
Definition overlaysAttached (s : State) : Prop :=
  ∀ l c, (l, c) ∈ leafButtonContainers s →
    ∃ el vc, dom s !! c = Some el
             ∧ Dom.parentNode el = Some (Dom.InViewContent vc).

(** [s'] differs from [s] only by scratch elements: elements created
    after those of [s], never given a parent nor children. *)
Definition scratchOnly (s s' : State) : Prop :=
  settings s' = settings s
  ∧ leafButtonContainers s' = leafButtonContainers s
  ∧ styleEl s' = styleEl s
  ∧ ∃ scratch,
      dom s' = dom s ++ scratch
      ∧ Forall (fun el => Dom.parentNode el = None ∧ Dom.childNodes el = [])
               scratch.

(** The overlay container that [addButtonsToLeaf] attaches for pane [l]
    under [vc], as [createFloatingButtons] and
    [updateSingleLeafVisibility] leave it: its buttons are made for the
    view object the pane has in [w]. *)
Definition overlayFor
    (w : Workspace) (cfg : ScrollControlSettings) (l : leaf) (vc : node)
    : Dom.Element :=
  setVisibility (bool_decide (activeLeaf w = Some l))
    (Dom.setChildNodes (floatingButtons cfg (leafView w l))
       (Dom.appendTo (Dom.InViewContent vc)
          (Dom.addClass "scroll-control-button-container"
             (Dom.blank Dom.DIV)))).

(** What the pass over the table does to the pane [l]. *)
Definition focusOn
    (w : Workspace) (a : option leaf) (l : leaf) (el : Dom.Element)
    : Dom.Element :=
  if isMarkdownView w l then setVisibility (bool_decide (Some l = a)) el
  else el.

(** The single-focus property as the specification states it: after the
    focus handler has run, the overlay of the focused pane is marked
    visible and every other tracked overlay is marked hidden, and nothing
    left the table or lost its parent. *)
Definition singleFocus (w : Workspace) (a : option leaf) (s : State) : Prop :=
  let s' := handleActiveLeafChange w a s in
  leafButtonContainers s' = leafButtonContainers s
  ∧ (∀ e, Dom.parentNode <$> dom s' !! e = Dom.parentNode <$> dom s !! e)
  ∧ ∀ l c, (l, c) ∈ leafButtonContainers s →
      ∃ el, dom s' !! c = Some el
            ∧ if bool_decide (Some l = a) then markedVisible el
              else markedHidden el.

(** ** Sample workspaces *)

(** Two Markdown panes, 1 and 4, both with their content element; pane 1
    has the focus. *)
Definition workspaceA : Workspace := {|
  markdownLeaves := [1; 4]%nat;
  activeLeaf := Some 1%nat;
  leafView := fun l => (200 + l)%nat;
  isMarkdownView := fun _ => true;
  viewContent := fun l => Some (100 + l)%nat
|}.

(** Later: pane 4 is closed, panes 2, 3 and 5 are open; the content
    element of pane 2 is not found and the view of pane 3 is not a
    [MarkdownView] (yet). *)
Definition workspaceB : Workspace := {|
  markdownLeaves := [1; 2; 3; 5]%nat;
  activeLeaf := Some 5%nat;
  leafView := fun l => (200 + l)%nat;
  isMarkdownView := fun l => negb (l =? 3)%nat;
  viewContent := fun l => if (l =? 2)%nat then None else Some (100 + l)%nat
|}.

(** Pane 1 now shows something else than Markdown, in a new view object;
    pane 4 has the focus. *)
Definition workspaceC : Workspace := {|
  markdownLeaves := [4]%nat;
  activeLeaf := Some 4%nat;
  leafView := fun l => if (l =? 1)%nat then 301%nat else (200 + l)%nat;
  isMarkdownView := fun l => negb (l =? 1)%nat;
  viewContent := fun l => Some (100 + l)%nat
|}.

(** The plugin after [onload] in [workspaceA]. *)
Definition loadedA : State :=
  initializeAllButtons workspaceA (addStyle constructor).

(* ================================================================== *)
(** * Further notions: colours                                          *)
(* ================================================================== *)

(** The string whose digit pairs [getContrastColor] parses: the expansion
    of a four-unit string, the string itself otherwise. *)
Definition expanded (hexColor : JS.jsstring) : JS.jsstring :=
  if (length hexColor =? 4)%nat then expandShorthand hexColor else hexColor.

(** The numbers [r], [g] and [b] of [getContrastColor]. *)
Definition channels (hexColor : JS.jsstring)
    : JS.number * JS.number * JS.number :=
  (JS.parseInt16 (JS.substring 1 3 (expanded hexColor)),
   JS.parseInt16 (JS.substring 3 5 (expanded hexColor)),
   JS.parseInt16 (JS.substring 5 7 (expanded hexColor))).

(** The check that a grey of level [v] gets black from 128 on. *)
Definition greyChecked (v : Z) : bool :=
  Bool.eqb
    (JS.gt (luminance (JS.of_Z v false) (JS.of_Z v false) (JS.of_Z v false))
           JS.lit_0_5)
    (128 <=? v).

(** ** Shapes *)

(** What the code makes of an overlay container of pane [l]: a [div] with
    the container class whose children are the buttons that
    [createFloatingButtons] builds from some settings for some view
    object; [views l view] says which view objects are expected for the
    pane. *)
Definition overlayShape
    (views : leaf -> viewObject -> Prop) (l : leaf) (el : Dom.Element) : Prop :=
  Dom.tagName el = Dom.DIV
  ∧ Dom.hasClass "scroll-control-button-container" el
  ∧ ∃ cfg view,
      views l view ∧ Dom.childNodes el = floatingButtons cfg view.

(** What the code makes of its style element: a [style] element with the
    plugin's id, in the document head, whose text is the style sheet of
    some settings. *)
Definition styleShape (el : Dom.Element) : Prop :=
  Dom.tagName el = Dom.STYLE
  ∧ Dom.idAttr el = Some "scroll-control-styles"
  ∧ Dom.parentNode el = Some Dom.InHead
  ∧ ∃ cfg, Dom.textContent el = Some (css cfg).

Definition shaped (views : leaf -> viewObject -> Prop) (s : State) : Prop :=
  (∀ l c, (l, c) ∈ leafButtonContainers s →
          ∃ el, dom s !! c = Some el ∧ overlayShape views l el)
  ∧ (∀ e, styleEl s = Some e → ∃ el, dom s !! e = Some el ∧ styleShape el).

(** The states of a plugin instance whose entry points only ever see
    workspaces that satisfy [ok]. *)
Inductive reachableIn (ok : Workspace -> Prop) : State -> Prop :=
| reachIn_constructor : reachableIn ok constructor
| reachIn_settings s cfg :
    reachableIn ok s -> reachableIn ok (with_settings cfg s)
| reachIn_addStyle s : reachableIn ok s -> reachableIn ok (addStyle s)
| reachIn_initializeAllButtons w s :
    ok w -> reachableIn ok s -> reachableIn ok (initializeAllButtons w s)
| reachIn_handleLayoutChange w s :
    ok w -> reachableIn ok s -> reachableIn ok (handleLayoutChange w s)
| reachIn_handleActiveLeafChange w a s :
    ok w -> reachableIn ok s -> reachableIn ok (handleActiveLeafChange w a s)
| reachIn_saveSettings w s :
    ok w -> reachableIn ok s -> reachableIn ok (saveSettings w s)
| reachIn_onunload s : reachableIn ok s -> reachableIn ok (onunload s).

(** A workspace in which every pane has the view object that [views]
    gives it: while this holds, no pane changes its view object. *)
Definition keepsViews (views : leaf -> viewObject) (w : Workspace) : Prop :=
  ∀ l, leafView w l = views l.

(** Pane 1 of [workspaceA] has got another Markdown view object; the
    panes are the same. *)
Definition workspaceD : Workspace := {|
  markdownLeaves := [1; 4]%nat;
  activeLeaf := Some 1%nat;
  leafView := fun l => if (l =? 1)%nat then 301%nat else (200 + l)%nat;
  isMarkdownView := fun _ => true;
  viewContent := fun l => Some (100 + l)%nat
|}.

(** Settings as a user may leave them in the settings tab. *)
Definition compactSettings : ScrollControlSettings := {|
  showScrollTopButton := true;
  showScrollBottomButton := false;
  buttonSize := small;
  buttonColor := JS.lit "#ffcc00";
  useCustomColor := true;
  animationSpeed := 150;
  useAnimations := false;
  invertButtonOrder := true;
  buttonSpacing := 4;
  horizontalPadding := 8;
  verticalPadding := 16
|}.

(** Two elements that differ at most by the two visibility classes. *)
Definition sameButVisibility (el el' : Dom.Element) : Prop :=
  Dom.tagName el' = Dom.tagName el
  ∧ Dom.idAttr el' = Dom.idAttr el
  ∧ Dom.parentNode el' = Dom.parentNode el
  ∧ Dom.childNodes el' = Dom.childNodes el
  ∧ Dom.textContent el' = Dom.textContent el
  ∧ ∀ cls : string,
      cls ≠ "scroll-control-visible" → cls ≠ "scroll-control-hidden" →
      (Dom.hasClass cls el' ↔ Dom.hasClass cls el).

(** The descriptor of the preview button that stands for an overlay
    button. *)
Definition toPreview (d : BtnData) : PreviewData := {|
  pvDataIcon := icon d;
  pvDataTooltip := String.append (tooltip d) " (Preview)";
  pvDataOrder := order d
|}.

(* ================================================================== *)
(** * Proof tools                                                       *)
(* ================================================================== *)

Ltac fields :=
  cbn [dom leafButtonContainers styleEl settings
       with_dom with_containers with_styleEl with_settings].

Ltac bools :=
  repeat progress
    rewrite ?andb_true_iff, ?orb_true_iff, ?andb_false_iff, ?orb_false_iff,
      ?N.leb_le, ?N.leb_gt, ?N.eqb_eq, ?N.eqb_neq in *.

(* ================================================================== *)
(** * Properties of [getContrastColor]                                  *)
(* ================================================================== *)

Section Numbers.

Lemma shr_1_nonneg mrs : 0 ≤ shr_m mrs → 0 ≤ shr_m (shr_1 mrs).
Proof.
  destruct mrs as [m r s]; simpl.
  destruct m as [|[p|p|]|[p|p|]]; simpl; lia.
Qed.

Lemma iter_shr_1_nonneg p :
  ∀ mrs, 0 ≤ shr_m mrs → 0 ≤ shr_m (SpecFloat.iter_pos shr_1 p mrs).
Proof.
  induction p as [p IH|p IH|]; simpl; intros mrs Hm.
  - apply IH, IH, shr_1_nonneg, Hm.
  - apply IH, IH, Hm.
  - apply shr_1_nonneg, Hm.
Qed.

Lemma shr_fexp_nonneg m e l :
  0 ≤ m → 0 ≤ shr_m (fst (shr_fexp JS.prec JS.emax m e l)).
Proof.
  intros Hm. unfold shr_fexp, shr.
  assert (H0 : 0 ≤ shr_m (shr_record_of_loc m l))
    by (destruct l as [|[]]; exact Hm).
  destruct (_ - e) as [|p|p]; simpl; auto using iter_shr_1_nonneg.
Qed.

Lemma round_nearest_even_nonneg m l : 0 ≤ m → 0 ≤ round_nearest_even m l.
Proof.
  intros Hm. destruct l as [|[]]; simpl; try lia.
  destruct (Z.even m); lia.
Qed.

Lemma binary_round_aux_nonneg m e l :
  0 ≤ m → nonneg (binary_round_aux JS.prec JS.emax false m e l).
Proof.
  intros Hm. unfold binary_round_aux.
  pose proof (shr_fexp_nonneg m e l Hm) as H1.
  destruct (shr_fexp JS.prec JS.emax m e l) as [mrs' e']; simpl in H1.
  pose proof (shr_fexp_nonneg _ e' loc_Exact
                (round_nearest_even_nonneg _ (loc_of_shr_record mrs') H1)) as H2.
  destruct (shr_fexp JS.prec JS.emax _ e' loc_Exact) as [mrs'' e'']; simpl in H2.
  destruct (shr_m mrs'') as [|p|p]; simpl; [done| |lia].
  destruct (e'' <=? _); done.
Qed.

Lemma of_Z_nonneg z : 0 ≤ z → nonneg (JS.of_Z z false).
Proof.
  intros Hz. unfold JS.of_Z, binary_normalize.
  destruct z as [|p|p]; [done| |lia].
  unfold binary_round. destruct (shl_align _ _ _) as [mz ez].
  apply binary_round_aux_nonneg. lia.
Qed.

Lemma mul_nonneg m e x :
  nonneg x → nonneg (JS.mul (S754_finite false m e) x).
Proof.
  unfold JS.mul, SFmul.
  destruct x as [[]|[]| |[] mx ex]; try done.
  intros _. apply binary_round_aux_nonneg. lia.
Qed.

Lemma add_nonneg x y : nonneg x → nonneg y → nonneg (JS.add x y).
Proof.
  unfold JS.add, SFadd.
  destruct x as [[]|[]| |[] mx ex], y as [[]|[]| |[] my ey]; try done.
  intros _ _. unfold binary_normalize, cond_Zopp.
  destruct (shl_align mx ex _) as [ax ?], (shl_align my ey _) as [ay ?].
  cbn [fst]. change (Z.pos ax + Z.pos ay) with (Z.pos (ax + ay)).
  unfold binary_round. destruct (shl_align _ _ _) as [mz ez].
  apply binary_round_aux_nonneg. lia.
Qed.

Lemma div_nonneg x m e : nonneg x → nonneg (JS.div x (S754_finite false m e)).
Proof.
  unfold JS.div, SFdiv.
  destruct x as [[]|[]| |[] mx ex]; try done.
  intros _. unfold SFdiv_core_binary.
  set (m' := match _ - _ with 0 => _ | Z.pos _ => _ | Z.neg _ => _ end).
  assert (Hm' : 0 ≤ m').
  { subst m'. destruct (_ - _); try lia. apply Z.shiftl_nonneg. lia. }
  pose proof (Z.div_pos m' (Z.pos m) Hm' ltac:(lia)) as Hq.
  unfold Z.div in Hq. destruct (Z.div_eucl m' (Z.pos m)) as [q r].
  apply binary_round_aux_nonneg, Hq.
Qed.

(** A number that is not [NaN] is on one side of 0.5. *)
Lemma nonneg_le_or_gt x :
  nonneg x →
  (JS.le x JS.lit_0_5 = true ∧ JS.gt x JS.lit_0_5 = false)
  ∨ (JS.le x JS.lit_0_5 = false ∧ JS.gt x JS.lit_0_5 = true).
Proof.
  unfold JS.le, JS.gt, SFleb, SFltb, JS.lit_0_5, SFcompare.
  destruct x as [[]|[]| |[] mx ex]; try done; intros _.
  - by left.
  - by right.
  - lazy beta iota.
    rewrite (Z.compare_antisym ex (-53)).
    assert (Pos.compare_cont Eq 4503599627370496 mx
            = CompOpp (Pos.compare_cont Eq mx 4503599627370496)) as ->
      by (rewrite Pos.compare_cont_antisym; reflexivity).
    destruct (ex ?= -53); cbn [CompOpp]; auto.
    destruct (Pos.compare_cont Eq mx _); cbn [CompOpp]; auto.
Qed.

End Numbers.

Section ContrastColor.

Lemma hexDigit_Some c d :
  JS.hexDigit c = Some d →
  0 ≤ d < 16 ∧ JS.isWhiteSpace c = false
  ∧ (c =? 45)%N = false ∧ (c =? 43)%N = false
  ∧ (c =? 120)%N = false ∧ (c =? 88)%N = false.
Proof.
  unfold JS.hexDigit, JS.isWhiteSpace.
  destruct ((48 <=? c) && (c <=? 57))%N eqn:E1;
    [|destruct ((97 <=? c) && (c <=? 102))%N eqn:E2;
      [|destruct ((65 <=? c) && (c <=? 70))%N eqn:E3]];
    intros [= <-] || discriminate; bools; lia.
Qed.

(** Two hexadecimal digits parse to the byte they denote. *)
Lemma parseInt16_hexByte hi lo v :
  hexByte hi lo = Some v →
  JS.parseInt16 [hi; lo] = JS.of_Z v false ∧ 0 ≤ v < 256.
Proof.
  unfold hexByte. intros H.
  destruct (JS.hexDigit hi) as [d1|] eqn:H1; [|done].
  destruct (JS.hexDigit lo) as [d2|] eqn:H2; [|done].
  injection H as <-.
  destruct (hexDigit_Some _ _ H1) as (R1 & W1 & M1 & P1 & _).
  destruct (hexDigit_Some _ _ H2) as (R2 & _ & _ & _ & X2 & X2').
  split; [|lia].
  unfold JS.parseInt16, JS.trimStart, JS.stripSign, JS.stripPrefix.
  rewrite W1, M1, P1, X2, X2', andb_false_r.
  cbn [JS.digitsPrefix]. rewrite H1, H2.
  unfold JS.mathInt. cbn [fold_left]. by rewrite Z.mul_0_r, Z.add_0_l.
Qed.

Lemma getContrastColor_7 h r1 r2 g1 g2 b1 b2 :
  getContrastColor [h; r1; r2; g1; g2; b1; b2]
  = if JS.gt (luminance (JS.parseInt16 [r1; r2]) (JS.parseInt16 [g1; g2])
                (JS.parseInt16 [b1; b2])) JS.lit_0_5
    then black else white.
Proof. reflexivity. Qed.

Lemma getContrastColor_4 h r1 g1 b1 :
  getContrastColor [h; r1; g1; b1]
  = getContrastColor [35%N; r1; r1; g1; g1; b1; b1].
Proof. reflexivity. Qed.

Lemma getContrastColor_short s :
  (length s < 4)%nat → getContrastColor s = black.
Proof.
  intros H. unfold getContrastColor.
  apply Nat.ltb_lt in H. rewrite H, orb_true_r. reflexivity.
Qed.

Lemma white_neq_black : white ≠ black.
Proof. discriminate. Qed.

(** The luminance of three bytes is a number, not [NaN]. *)
Lemma luminance_bytes r g b :
  0 ≤ r → 0 ≤ g → 0 ≤ b →
  nonneg (luminance (JS.of_Z r false) (JS.of_Z g false) (JS.of_Z b false)).
Proof.
  intros Hr Hg Hb. unfold luminance, JS.lit_255.
  apply div_nonneg.
  repeat apply add_nonneg; apply mul_nonneg; by apply of_Z_nonneg.
Qed.

Lemma rgbOfHex_7 h r1 r2 g1 g2 b1 b2 r g b :
  rgbOfHex [h; r1; r2; g1; g2; b1; b2] = Some (r, g, b) →
  hexByte r1 r2 = Some r ∧ hexByte g1 g2 = Some g ∧ hexByte b1 b2 = Some b.
Proof.
  unfold rgbOfHex. destruct (h =? 35)%N; [|done].
  destruct (hexByte r1 r2), (hexByte g1 g2), (hexByte b1 b2); try done.
  by intros [= -> -> ->].
Qed.

Lemma rgbOfHex_4 h r1 g1 b1 :
  rgbOfHex [h; r1; g1; b1] = rgbOfHex [h; r1; r1; g1; g1; b1; b1].
Proof. reflexivity. Qed.

Lemma rgbOfHex_shape s rgb :
  rgbOfHex s = Some rgb →
  (∃ r1 g1 b1, s = [35%N; r1; g1; b1])
  ∨ (∃ r1 r2 g1 g2 b1 b2, s = [35%N; r1; r2; g1; g2; b1; b2]).
Proof.
  destruct s as [|h [|r1 [|g1 [|b1 [|g2 [|b1' [|b2 [|? ?]]]]]]]]; try done;
    unfold rgbOfHex; destruct (N.eqb_spec h 35) as [->|]; try done; eauto 10.
Qed.

Lemma getContrastColor_rgb s r g b :
  rgbOfHex s = Some (r, g, b) →
  (0 ≤ r < 256 ∧ 0 ≤ g < 256 ∧ 0 ≤ b < 256)
  ∧ getContrastColor s
    = if JS.gt (luminance (JS.of_Z r false) (JS.of_Z g false)
                  (JS.of_Z b false)) JS.lit_0_5
      then black else white.
Proof.
  intros H.
  assert (H7 : ∃ h r1 r2 g1 g2 b1 b2,
             rgbOfHex [h; r1; r2; g1; g2; b1; b2] = Some (r, g, b)
             ∧ getContrastColor s
               = getContrastColor [h; r1; r2; g1; g2; b1; b2]).
  { destruct (rgbOfHex_shape _ _ H) as [(r1 & g1 & b1 & ->)
                                       |(r1 & r2 & g1 & g2 & b1 & b2 & ->)].
    - exists 35%N, r1, r1, g1, g1, b1, b1.
      by rewrite <- rgbOfHex_4, getContrastColor_4.
    - by exists 35%N, r1, r2, g1, g2, b1, b2. }
  destruct H7 as (h & r1 & r2 & g1 & g2 & b1 & b2 & Hrgb & ->).
  apply rgbOfHex_7 in Hrgb as (Hr & Hg & Hb).
  apply parseInt16_hexByte in Hr as [Hr ?], Hg as [Hg ?], Hb as [Hb ?].
  by rewrite getContrastColor_7, Hr, Hg, Hb.
Qed.

(** The numeric literals are the correctly rounded quotients. *)
Lemma literals_rounded :
  JS.lit_0_299 = JS.div (JS.of_Z 299 false) (JS.of_Z 1000 false)
  ∧ JS.lit_0_587 = JS.div (JS.of_Z 587 false) (JS.of_Z 1000 false)
  ∧ JS.lit_0_114 = JS.div (JS.of_Z 114 false) (JS.of_Z 1000 false)
  ∧ JS.lit_0_5 = JS.div (JS.of_Z 1 false) (JS.of_Z 2 false)
  ∧ JS.lit_255 = JS.of_Z 255 false.
Proof. vm_compute. repeat split. Qed.

(** Rounding is visible at one colour: the exact luminance of [#da3af8]
    is 1/2, the computed one is the next number above 0.5. *)
Lemma luminance_da3af8 :
  rgbOfHex (JS.lit "#da3af8") = Some (218, 58, 248)
  ∧ 299 * 218 + 587 * 58 + 114 * 248 = 127500
  ∧ luminance (JS.of_Z 218 false) (JS.of_Z 58 false) (JS.of_Z 248 false)
    = S754_finite false 4503599627370497 (-53)
  ∧ getContrastColor (JS.lit "#da3af8") = black.
Proof. vm_compute. repeat split. Qed.

Lemma elem_of_bytes z : 0 ≤ z < 256 → z ∈ bytes.
Proof.
  intros Hz. unfold bytes. apply list_elem_of_fmap.
  exists (Z.to_nat z). split; [lia|]. apply elem_of_seq. lia.
Qed.

Lemma ties_checked : forallb (fun r => forallb (tieChecked r) bytes) bytes = true.
Proof. vm_compute. reflexivity. Qed.

(** Where the exact luminance of a colour is 1/2, the computed luminance
    is above 0.5 for [#da3af8] only: every other such colour gets white. *)
Lemma luminance_exact_ties r g b :
  0 ≤ r < 256 → 0 ≤ g < 256 → 0 ≤ b < 256 →
  299 * r + 587 * g + 114 * b = 127500 →
  JS.gt (luminance (JS.of_Z r false) (JS.of_Z g false) (JS.of_Z b false))
        JS.lit_0_5 = true
  ↔ (r, g, b) = (218, 58, 248).
Proof.
  intros Hr Hg Hb Htie.
  assert (Hr' := proj1 (list_elem_of_In _ _) (elem_of_bytes r Hr)).
  assert (Hg' := proj1 (list_elem_of_In _ _) (elem_of_bytes g Hg)).
  pose proof (proj1 (forallb_forall (fun r => forallb (tieChecked r) bytes) bytes)
                ties_checked r Hr') as H.
  change (forallb (tieChecked r) bytes = true) in H.
  pose proof (proj1 (forallb_forall (tieChecked r) bytes) H g Hg') as H2.
  clear H Hr' Hg'. unfold tieChecked, tieBlue in H2.
  replace (127500 - 299 * r - 587 * g) with (b * 114) in H2 by lia.
  rewrite Z.mod_mul, Z.div_mul in H2 by lia.
  rewrite Z.eqb_refl in H2.
  rewrite (proj2 (Z.leb_le 0 b)), (proj2 (Z.ltb_lt b 256)) in H2 by lia.
  cbn [andb] in H2. apply eqb_prop in H2. rewrite H2. clear H2.
  rewrite andb_true_iff, !Z.eqb_eq. split.
  - intros [-> ->]. assert (b = 248) as -> by lia. reflexivity.
  - by intros [= -> -> ->].
Qed.

(** Some values: the empty string and a mid grey; a short form and its
    long form; strings of five units, whose third pair is empty. *)
Lemma getContrastColor_examples :
  getContrastColor (JS.lit "") = black
  ∧ getContrastColor (JS.lit "#888888") = black
  ∧ getContrastColor (JS.lit "#03F") = getContrastColor (JS.lit "#0033FF")
  ∧ getContrastColor (JS.lit "#03F") = white
  ∧ getContrastColor (JS.lit "#1234") = white
  ∧ getContrastColor (JS.lit "#ffff") = white.
Proof. vm_compute. repeat split. Qed.

(** The luminance of the code, written out on the binary64 operations
    of the library. *)
Lemma luminance_binary64 r g b :
  luminance (JS.of_Z r false) (JS.of_Z g false) (JS.of_Z b false)
  = SFdiv 53 1024
      (SFadd 53 1024
         (SFadd 53 1024
            (SFmul 53 1024 (S754_finite false 5386305154335113 (-54))
               (binary_normalize 53 1024 r 0 false))
            (SFmul 53 1024 (S754_finite false 5287225962532962 (-53))
               (binary_normalize 53 1024 g 0 false)))
         (SFmul 53 1024 (S754_finite false 8214565720323785 (-56))
            (binary_normalize 53 1024 b 0 false)))
      (binary_normalize 53 1024 255 0 false).
Proof. reflexivity. Qed.

(** C3. For a valid [#RGB] or [#RRGGBB] string, whose bytes are [r], [g]
    and [b] (the short form with its nibbles doubled), the result of
    [getContrastColor] is decided by the luminance
    [(0.299*r + 0.587*g + 0.114*b)/255] of these bytes, computed in
    binary64 from left to right as the code does: white when it is at
    most 0.5, black when it is above, and one of the two is the case.
    The formula is written out here on the binary64 operations of the
    library (precision 53, exponents below 1024), with the numbers of
    the source as the binary64 values nearest to 299/1000, 587/1000,
    114/1000 and 1/2. In particular ["#000000"] gives white, ["#FFFFFF"]
    gives black, and ["#fff"] gives what ["#ffffff"] gives. *)
Theorem getContrastColor_valid_hex :
  (∀ s r g b,
     rgbOfHex s = Some (r, g, b) →
     let num z := binary_normalize 53 1024 z 0 false in
     let lum :=
       SFdiv 53 1024
         (SFadd 53 1024
            (SFadd 53 1024
               (SFmul 53 1024 (S754_finite false 5386305154335113 (-54))
                  (num r))
               (SFmul 53 1024 (S754_finite false 5287225962532962 (-53))
                  (num g)))
            (SFmul 53 1024 (S754_finite false 8214565720323785 (-56))
               (num b)))
         (num 255) in
     let half := S754_finite false 4503599627370496 (-53) in
     (0 ≤ r < 256 ∧ 0 ≤ g < 256 ∧ 0 ≤ b < 256)
     ∧ (SFleb lum half = true ↔ getContrastColor s = JS.lit "#FFFFFF")
     ∧ (SFltb half lum = true ↔ getContrastColor s = JS.lit "#000000")
     ∧ (SFleb lum half = true ∨ SFltb half lum = true))
  ∧ (let num z := binary_normalize 53 1024 z 0 false in
     S754_finite false 5386305154335113 (-54)
     = SFdiv 53 1024 (num 299) (num 1000)
     ∧ S754_finite false 5287225962532962 (-53)
       = SFdiv 53 1024 (num 587) (num 1000)
     ∧ S754_finite false 8214565720323785 (-56)
       = SFdiv 53 1024 (num 114) (num 1000)
     ∧ S754_finite false 4503599627370496 (-53)
       = SFdiv 53 1024 (num 1) (num 2))
  ∧ (∀ r1 g1 b1,
       rgbOfHex [35%N; r1; g1; b1] = rgbOfHex [35%N; r1; r1; g1; g1; b1; b1]
       ∧ getContrastColor [35%N; r1; g1; b1]
         = getContrastColor [35%N; r1; r1; g1; g1; b1; b1])
  ∧ getContrastColor (JS.lit "#000000") = JS.lit "#FFFFFF"
  ∧ getContrastColor (JS.lit "#FFFFFF") = JS.lit "#000000"
  ∧ getContrastColor (JS.lit "#fff") = getContrastColor (JS.lit "#ffffff").
Proof.
  split; [|split; [by vm_compute|split; [|by vm_compute]]].
  - intros s r g b H num lum half.
    destruct (getContrastColor_rgb _ _ _ _ H) as [Hrange ->].
    split; [done|].
    change (JS.lit "#FFFFFF") with white. change (JS.lit "#000000") with black.
    change (SFleb lum half) with (JS.le lum JS.lit_0_5).
    change (SFltb half lum) with (JS.gt lum JS.lit_0_5).
    assert (Hlum : lum = luminance (JS.of_Z r false) (JS.of_Z g false)
                           (JS.of_Z b false)) by apply eq_sym, luminance_binary64.
    clearbody lum. subst lum. clear num half.
    set (lum := luminance _ _ _).
    destruct (nonneg_le_or_gt lum) as [[-> ->]|[-> ->]].
    { apply luminance_bytes; lia. }
    + split_and!; [done| |by left].
      split; [done|]. intros E. by destruct (white_neq_black E).
    + split_and!; [|done|by right].
      split; [done|]. intros E. by destruct (white_neq_black (eq_sym E)).
  - intros r1 g1 b1. split; [apply rgbOfHex_4|apply getContrastColor_4].
Qed.

Lemma getContrastColor_valid_hex_witness :
  rgbOfHex (JS.lit "#888888") = Some (136, 136, 136)
  ∧ getContrastColor (JS.lit "#888888") = black.
Proof.
  assert (H : rgbOfHex (JS.lit "#888888") = Some (136, 136, 136))
    by reflexivity.
  split; [exact H|].
  apply (proj1 getContrastColor_valid_hex _ _ _ _ H).
  vm_compute. reflexivity.
Defined.

(** C10. [getContrastColor] is a total function of its string argument,
    and its result is always one of ["#000000"] and ["#FFFFFF"]. *)
Theorem getContrastColor_total s :
  getContrastColor s = JS.lit "#000000" ∨ getContrastColor s = JS.lit "#FFFFFF".
Proof.
  unfold getContrastColor.
  destruct (_ || _); [by left|].
  destruct (JS.gt _ _); [by left|by right].
Qed.

(** C4, at a malformed input. A seven-unit string whose digits are not
    hexadecimal is parsed to [NaN] three times; the luminance is [NaN],
    the comparison with 0.5 fails, and the result is white, not the
    black that the guard on short inputs returns. *)
Theorem getContrastColor_malformed_white :
  rgbOfHex (JS.lit "#GGGGGG") = None
  ∧ JS.parseInt16 (JS.lit "GG") = JS.NaN
  ∧ getContrastColor (JS.lit "#GGGGGG") = JS.lit "#FFFFFF"
  ∧ getContrastColor (JS.lit "#GGGGGG") ≠ JS.lit "#000000".
Proof. vm_compute. repeat split. discriminate. Qed.

End ContrastColor.

(* ================================================================== *)
(** * Properties of [Map] and [Set]                                     *)
(* ================================================================== *)

Section CollectionsFacts.
Context {K V : Type} `{EqDecision K}.
Implicit Types (m : list (K * V)) (k x : K) (v : V).

Lemma elem_of_set_add (s : list K) k x :
  x ∈ JS.set_add s k ↔ x ∈ s ∨ x = k.
Proof.
  unfold JS.set_add. case_decide; set_solver.
Qed.

Lemma elem_of_fold_set_add (l acc : list K) x :
  x ∈ fold_left JS.set_add l acc ↔ x ∈ acc ∨ x ∈ l.
Proof.
  revert acc. induction l as [|k l IH]; intros acc; simpl.
  - set_solver.
  - rewrite IH, elem_of_set_add. set_solver.
Qed.

Lemma elem_of_new_Set (l : list K) x : x ∈ JS.new_Set l ↔ x ∈ l.
Proof. unfold JS.new_Set. rewrite elem_of_fold_set_add. set_solver. Qed.

Lemma set_has_new_Set (l : list K) x :
  JS.set_has x (JS.new_Set l) = bool_decide (x ∈ l).
Proof. unfold JS.set_has. apply bool_decide_ext, elem_of_new_Set. Qed.

Lemma map_has_true k m : JS.map_has k m = true ↔ k ∈ JS.map_keys m.
Proof. unfold JS.map_has, JS.map_keys. apply bool_decide_eq_true. Qed.

Lemma map_has_false k m : JS.map_has k m = false ↔ k ∉ JS.map_keys m.
Proof. unfold JS.map_has, JS.map_keys. apply bool_decide_eq_false. Qed.

Lemma map_get_Some k m v : JS.map_get k m = Some v → (k, v) ∈ m.
Proof.
  induction m as [|[k' v'] m IH]; simpl; [done|].
  case_decide; [intros [= ->]; subst; left|right; auto].
Qed.

Lemma map_get_None k m : JS.map_get k m = None ↔ k ∉ JS.map_keys m.
Proof.
  unfold JS.map_keys. induction m as [|[k' v'] m IH]; simpl.
  - split; [intros _; apply not_elem_of_nil|done].
  - rewrite not_elem_of_cons. case_decide; naive_solver.
Qed.

Lemma map_get_NoDup k m v :
  NoDup (JS.map_keys m) → (k, v) ∈ m → JS.map_get k m = Some v.
Proof.
  unfold JS.map_keys. induction m as [|[k' v'] m IH]; simpl.
  - intros _ H'. by apply elem_of_nil in H'.
  - rewrite NoDup_cons, elem_of_cons. intros [Hk Hm] [[= -> ->]|Hin].
    + by rewrite decide_True.
    + rewrite decide_False; [auto|].
      intros ->. apply Hk. apply list_elem_of_fmap. by exists (k, v).
Qed.

Lemma map_set_fresh k v m :
  k ∉ JS.map_keys m → JS.map_set k v m = m ++ [(k, v)].
Proof.
  unfold JS.map_keys. induction m as [|[k' v'] m IH]; simpl; [done|].
  rewrite not_elem_of_cons. intros [Hne Hm].
  rewrite decide_False by done. by rewrite IH.
Qed.

Lemma elem_of_keys_map_set k v m x :
  x ∈ JS.map_keys (JS.map_set k v m) ↔ x = k ∨ x ∈ JS.map_keys m.
Proof.
  unfold JS.map_keys. induction m as [|[k' v'] m IH]; simpl.
  - set_solver.
  - case_decide; simpl; set_solver.
Qed.

Lemma elem_of_map_delete k m (p : K * V) :
  p ∈ JS.map_delete k m ↔ p.1 ≠ k ∧ p ∈ m.
Proof.
  induction m as [|[k' v'] m IH]; simpl.
  - set_solver.
  - case_decide; rewrite ?elem_of_cons, IH; naive_solver.
Qed.

Lemma elem_of_keys_map_delete k m x :
  x ∈ JS.map_keys (JS.map_delete k m) ↔ x ≠ k ∧ x ∈ JS.map_keys m.
Proof.
  unfold JS.map_keys. rewrite !list_elem_of_fmap. split.
  - intros ([k' v'] & -> & Hin). apply elem_of_map_delete in Hin as [? ?].
    split; [done|]. by exists (k', v').
  - intros (Hne & [k' v'] & -> & Hin). exists (k', v'). split; [done|].
    by apply elem_of_map_delete.
Qed.

Lemma map_delete_absent k m : k ∉ JS.map_keys m → JS.map_delete k m = m.
Proof.
  unfold JS.map_keys. induction m as [|[k' v'] m IH]; simpl; [done|].
  rewrite not_elem_of_cons. intros [Hne Hm].
  rewrite decide_False by done. by rewrite IH.
Qed.

Lemma map_delete_sublist k m : sublist (JS.map_delete k m) m.
Proof.
  induction m as [|[k' v'] m IH]; simpl; [done|].
  case_decide; by constructor.
Qed.

End CollectionsFacts.

(* ================================================================== *)
(** * Which panes are tracked                                           *)
(* ================================================================== *)

Lemma reachable_loadedA : reachable loadedA.
Proof.
  exact (reach_initializeAllButtons _ _ (reach_addStyle _ reach_constructor)).
Qed.

Section Tracking.
Implicit Types (w : Workspace) (s : State) (l x : leaf).

Lemma containers_createFloatingButtons c l s :
  leafButtonContainers (createFloatingButtons c l s) = leafButtonContainers s.
Proof. reflexivity. Qed.

Lemma containers_updateSingleLeafVisibility w l s :
  leafButtonContainers (updateSingleLeafVisibility w l s)
  = leafButtonContainers s.
Proof.
  unfold updateSingleLeafVisibility. by destruct (JS.map_get _ _).
Qed.

(** What [addButtonsToLeaf] does to the table: a new entry for the new
    element when the pane is an untracked Markdown pane whose
    [.view-content] is found, nothing otherwise. *)
Lemma containers_addButtonsToLeaf w l s :
  leafButtonContainers (addButtonsToLeaf w l s)
  = if isMarkdownView w l && negb (JS.map_has l (leafButtonContainers s))
    then match viewContent w l with
         | Some _ => JS.map_set l (length (dom s)) (leafButtonContainers s)
         | None => leafButtonContainers s
         end
    else leafButtonContainers s.
Proof.
  unfold addButtonsToLeaf.
  destruct (isMarkdownView w l), (JS.map_has l _); simpl; try done.
  destruct (viewContent w l); [|done].
  by rewrite containers_updateSingleLeafVisibility.
Qed.

Lemma containers_removeButtonsFromLeaf l s :
  leafButtonContainers (removeButtonsFromLeaf l s)
  = JS.map_delete l (leafButtonContainers s).
Proof.
  unfold removeButtonsFromLeaf.
  destruct (JS.map_has l _) eqn:E.
  - by destruct (JS.map_get _ _).
  - symmetry. by apply map_delete_absent, map_has_false.
Qed.

Lemma tracked_addButtonsToLeaf w l s x :
  x ∈ tracked (addButtonsToLeaf w l s)
  ↔ x ∈ tracked s ∨ (x = l ∧ attachable w l).
Proof.
  unfold tracked, attachable. rewrite containers_addButtonsToLeaf.
  destruct (isMarkdownView w l); simpl; [|naive_solver].
  destruct (JS.map_has l _) eqn:E; simpl.
  - apply map_has_true in E. naive_solver.
  - destruct (viewContent w l) as [vc|].
    + rewrite elem_of_keys_map_set. naive_solver.
    + split; [auto|]. intros [?|(_ & _ & [? [=]])]. done.
Qed.

Lemma tracked_removeButtonsFromLeaf l s x :
  x ∈ tracked (removeButtonsFromLeaf l s) ↔ x ∈ tracked s ∧ x ≠ l.
Proof.
  unfold tracked. rewrite containers_removeButtonsFromLeaf.
  rewrite elem_of_keys_map_delete. naive_solver.
Qed.

(** A [forEach] that adds the panes selected by [sel]. *)
Lemma tracked_fold_add w (sel : leaf → bool) ls s x :
  x ∈ tracked
        (fold_left
           (fun st l => if sel l then addButtonsToLeaf w l st else st) ls s)
  ↔ x ∈ tracked s ∨ (x ∈ ls ∧ sel x = true ∧ attachable w x).
Proof.
  revert s. induction ls as [|l ls IH]; intros s; simpl.
  - set_solver.
  - rewrite IH, elem_of_cons. destruct (sel l) eqn:E.
    + rewrite tracked_addButtonsToLeaf.
      intuition (subst; eauto; congruence).
    + intuition (subst; eauto; congruence).
Qed.

(** A [forEach] that removes the panes selected by [sel]. *)
Lemma tracked_fold_remove (sel : leaf → bool) ls s x :
  x ∈ tracked
        (fold_left
           (fun st l => if sel l then removeButtonsFromLeaf l st else st) ls s)
  ↔ x ∈ tracked s ∧ ¬ (x ∈ ls ∧ sel x = true).
Proof.
  revert s. induction ls as [|l ls IH]; intros s; simpl.
  - set_solver.
  - rewrite IH, elem_of_cons. destruct (sel l) eqn:E.
    + rewrite tracked_removeButtonsFromLeaf.
      destruct (decide (x = l)); intuition (subst; eauto; congruence).
    + intuition (subst; eauto; congruence).
Qed.

(** The tracked panes after a reconciliation: the open panes that were
    tracked before or can be attached to now. *)
Lemma tracked_handleLayoutChange w s x :
  x ∈ tracked (handleLayoutChange w s)
  ↔ x ∈ markdownLeaves w ∧ (x ∈ tracked s ∨ attachable w x).
Proof.
  unfold handleLayoutChange.
  rewrite tracked_fold_remove, tracked_fold_add.
  rewrite !elem_of_new_Set, !set_has_new_Set.
  rewrite !negb_true_iff, !bool_decide_eq_false.
  fold (tracked s).
  destruct (decide (x ∈ tracked s)), (decide (x ∈ markdownLeaves w));
    naive_solver.
Qed.

Lemma tracked_initializeAllButtons w s x :
  x ∈ tracked (initializeAllButtons w s)
  ↔ x ∈ tracked s ∨ (x ∈ markdownLeaves w ∧ attachable w x).
Proof.
  unfold initializeAllButtons, forAllMarkdownLeaves.
  rewrite (tracked_fold_add w (fun _ => true)). naive_solver.
Qed.

(** The tracked panes after [updateAllButtons]: those that are not
    open stay, the open ones are tracked exactly when an overlay can be
    attached now. *)
Lemma tracked_updateAllButtons w s x :
  x ∈ tracked (updateAllButtons w s)
  ↔ (x ∈ tracked s ∧ x ∉ markdownLeaves w)
    ∨ (x ∈ markdownLeaves w ∧ attachable w x).
Proof.
  unfold updateAllButtons, forAllMarkdownLeaves.
  generalize (markdownLeaves w) as ls. intros ls.
  revert s. induction ls as [|l ls IH]; intros s; simpl.
  - set_solver.
  - rewrite IH, tracked_addButtonsToLeaf, tracked_removeButtonsFromLeaf.
    rewrite !not_elem_of_cons, !elem_of_cons.
    destruct (decide (x = l)) as [<-|], (decide (x ∈ ls));
      intuition congruence.
Qed.

End Tracking.

Section TrackingClaims.
Implicit Types (w : Workspace) (s : State) (l : leaf).

Lemma trackedAttachable_constructor w : trackedAttachable w constructor.
Proof. intros l Hl. by apply elem_of_nil in Hl. Qed.

Lemma trackedAttachable_initializeAllButtons w s :
  trackedAttachable w s → trackedAttachable w (initializeAllButtons w s).
Proof.
  intros H l Hl Ho. apply tracked_initializeAllButtons in Hl as [?|[_ ?]]; auto.
Qed.

Lemma trackedAttachable_handleLayoutChange w s :
  trackedAttachable w s → trackedAttachable w (handleLayoutChange w s).
Proof.
  intros H l Hl Ho. apply tracked_handleLayoutChange in Hl as [_ [?|?]]; auto.
Qed.

Lemma trackedAttachable_updateAllButtons w s :
  trackedAttachable w (updateAllButtons w s).
Proof.
  intros l Hl Ho. apply tracked_updateAllButtons in Hl as [[_ ?]|[_ ?]]; done.
Qed.

Lemma inSync_handleLayoutChange w s :
  trackedAttachable w s → inSync w (handleLayoutChange w s).
Proof.
  intros H l Ho. rewrite tracked_handleLayoutChange. split.
  - intros [_ [?|?]]; auto.
  - auto.
Qed.

(** C6 as stated fails: [updateAllButtons] goes through the open panes,
    not through the tracked ones. With panes 1 and 4 tracked and pane 5
    just opened, pane 5 gets an overlay and is tracked afterwards. *)
Lemma updateAllButtons_changes_tracked :
  reachable loadedA
  ∧ ¬ (∀ l, l ∈ tracked (updateAllButtons workspaceB loadedA)
            ↔ l ∈ tracked loadedA).
Proof.
  split; [exact reachable_loadedA|].
  intros H. specialize (H 5%nat).
  change (tracked (updateAllButtons workspaceB loadedA)) with [4; 1; 5]%nat in H.
  change (tracked loadedA) with [1; 4]%nat in H.
  assert (H5 : 5%nat ∈ [1; 4]%nat) by (apply H; set_solver).
  set_solver.
Qed.

End TrackingClaims.

(* ================================================================== *)
(** * [scrollToPosition]                                                *)
(* ================================================================== *)

(** C7. [scrollToPosition] sends no request when the view is absent; in
    source mode it asks the editor to scroll line 0 (top) or line
    [lineCount - 1] (bottom) into view, centred; in preview mode it sets
    the scroll offset of the preview element to 0 (top) or to its
    [scrollHeight] (bottom), smoothly exactly when [useAnimations] is set. *)
Theorem scrollToPosition_spec cfg position :
  scrollToPosition cfg position None = NoRequest
  ∧ (∀ view, getMode view = source →
       scrollToPosition cfg position (Some view)
       = let line :=
           match position with top => 0 | bottom => lineCount view - 1 end in
         EditorScrollIntoView line 0 line 0 true)
  ∧ (∀ view scrollHeight,
       getMode view = preview → previewEl view = Some scrollHeight →
       scrollToPosition cfg position (Some view)
       = PreviewScrollTo
           (match position with top => 0 | bottom => scrollHeight end)
           (if useAnimations cfg then smooth else auto)).
Proof.
  split; [reflexivity|]. split.
  - intros view Hm. unfold scrollToPosition. by rewrite Hm.
  - intros view h Hm Hp. unfold scrollToPosition. by rewrite Hm, Hp.
Qed.

Lemma scrollToPosition_spec_witness :
  scrollToPosition DEFAULT_SETTINGS bottom
    (Some {| getMode := preview; lineCount := 10; previewEl := Some 2000 |})
  = PreviewScrollTo 2000 smooth
  ∧ scrollToPosition DEFAULT_SETTINGS bottom
      (Some {| getMode := source; lineCount := 10; previewEl := None |})
    = EditorScrollIntoView 9 0 9 0 true.
Proof.
  split.
  - exact (proj2 (proj2 (scrollToPosition_spec DEFAULT_SETTINGS bottom))
             {| getMode := preview; lineCount := 10; previewEl := Some 2000 |}
             2000 eq_refl eq_refl).
  - exact (proj1 (proj2 (scrollToPosition_spec DEFAULT_SETTINGS bottom))
             {| getMode := source; lineCount := 10; previewEl := None |} eq_refl).
Defined.

(* ================================================================== *)
(** * Idempotence of the reconciliation                                 *)
(* ================================================================== *)

Section Idempotence.
Implicit Types (w : Workspace) (s : State) (l : leaf).

Lemma fold_left_cons {A B} (f : A → B → A) x xs a :
  fold_left f (x :: xs) a = fold_left f xs (f a x).
Proof. reflexivity. Qed.

Lemma alter_created (f : Dom.Element → Dom.Element) (h : Dom.Heap) el :
  alter f (length h) (h ++ [el]) = h ++ [f el].
Proof. by rewrite <- (Nat.add_0_r (length h)), alter_app_r. Qed.

Lemma scratchOnly_refl s : scratchOnly s s.
Proof.
  repeat split. exists []. by rewrite app_nil_r.
Qed.

Lemma scratchOnly_trans s1 s2 s3 :
  scratchOnly s1 s2 → scratchOnly s2 s3 → scratchOnly s1 s3.
Proof.
  intros (E1 & E2 & E3 & g & E4 & Hg) (F1 & F2 & F3 & g' & F4 & Hg').
  repeat split; try congruence.
  exists (g ++ g'). split.
  - by rewrite F4, E4, app_assoc.
  - by apply Forall_app.
Qed.

(** An [addButtonsToLeaf] that cannot attach leaves at most a scratch
    element behind. *)
Lemma addButtonsToLeaf_scratch w l s :
  ¬ (attachable w l ∧ l ∉ tracked s) → scratchOnly s (addButtonsToLeaf w l s).
Proof.
  intros Hno. unfold addButtonsToLeaf.
  destruct (isMarkdownView w l) eqn:Hmd; simpl; [|apply scratchOnly_refl].
  destruct (JS.map_has l _) eqn:Hhas; simpl; [apply scratchOnly_refl|].
  apply map_has_false in Hhas.
  destruct (viewContent w l) as [vc|] eqn:Hvc.
  { destruct Hno. split; [|done]. split; [done|]. rewrite Hvc. by eexists. }
  repeat split. rewrite alter_created.
  eexists. split; [reflexivity|]. by repeat constructor.
Qed.

Lemma fold_add_scratch w (sel : leaf → bool) ls s :
  (∀ l, l ∈ ls → sel l = true → ¬ (attachable w l ∧ l ∉ tracked s)) →
  scratchOnly s
    (fold_left (fun st l => if sel l then addButtonsToLeaf w l st else st) ls s).
Proof.
  revert s. induction ls as [|l ls IH]; intros s H; simpl.
  - apply scratchOnly_refl.
  - assert (H1 : scratchOnly s (if sel l then addButtonsToLeaf w l s else s)).
    { destruct (sel l) eqn:E; [|apply scratchOnly_refl].
      apply addButtonsToLeaf_scratch, H; [left|done]. }
    eapply scratchOnly_trans; [exact H1|]. apply IH.
    intros l' Hl' Hsel. unfold tracked.
    destruct H1 as (_ & -> & _). apply H; [by right|done].
Qed.

Lemma removeButtonsFromLeaf_untracked l s :
  l ∉ tracked s → removeButtonsFromLeaf l s = s.
Proof.
  intros H. apply map_has_false in H. unfold removeButtonsFromLeaf.
  by rewrite H.
Qed.

Lemma fold_remove_none (sel : leaf → bool) ls s :
  (∀ l, l ∈ ls → sel l = true → l ∉ tracked s) →
  fold_left (fun st l => if sel l then removeButtonsFromLeaf l st else st) ls s
  = s.
Proof.
  induction ls as [|l ls IH]; intros H; simpl; [done|].
  assert ((if sel l then removeButtonsFromLeaf l s else s) = s) as ->.
  { destruct (sel l) eqn:E; [|done].
    apply removeButtonsFromLeaf_untracked, H; [left|done]. }
  apply IH. intros l' Hl'. apply H. by right.
Qed.

(** A reconciliation in a state where every open attachable pane is
    tracked and every tracked pane is open changes nothing but scratch. *)
Lemma handleLayoutChange_scratch w s :
  (∀ l, l ∈ markdownLeaves w → attachable w l → l ∈ tracked s) →
  (∀ l, l ∈ tracked s → l ∈ markdownLeaves w) →
  scratchOnly s (handleLayoutChange w s).
Proof.
  intros Hin Hopen. unfold handleLayoutChange.
  match goal with
  | |- scratchOnly _ (fold_left ?f ?ks (fold_left ?g ?cs _)) =>
      assert (H1 : scratchOnly s (fold_left g cs s))
  end.
  { apply fold_add_scratch. intros l Hl _ [Ha Hn].
    rewrite elem_of_new_Set in Hl. by apply Hn, Hin. }
  rewrite fold_remove_none; [done|].
  intros l Hl Hsel. exfalso.
  rewrite elem_of_new_Set in Hl.
  rewrite set_has_new_Set, negb_true_iff, bool_decide_eq_false in Hsel.
  by apply Hsel, Hopen.
Qed.

(** C2. Running the reconciliation body a second time against the same
    workspace leaves the association table (and the other fields of the
    plugin) as the first run left them, and every element that exists
    after the first run as it is; the second run can only create scratch
    elements, which are never inserted into the document. *)
Theorem handleLayoutChange_idempotent w s :
  let s1 := handleLayoutChange w s in
  let s2 := handleLayoutChange w s1 in
  leafButtonContainers s2 = leafButtonContainers s1
  ∧ styleEl s2 = styleEl s1
  ∧ settings s2 = settings s1
  ∧ ∃ scratch,
      dom s2 = dom s1 ++ scratch
      ∧ Forall (fun el => Dom.parentNode el = None ∧ Dom.childNodes el = [])
               scratch.
Proof.
  intros s1 s2.
  destruct (handleLayoutChange_scratch w s1) as (E1 & E2 & E3 & Hdom).
  - intros l Ho Ha. apply tracked_handleLayoutChange. auto.
  - intros l Hl. by apply tracked_handleLayoutChange in Hl as [? _].
  - done.
Qed.

End Idempotence.

(* ================================================================== *)
(** * Ownership of the created elements                                 *)
(* ================================================================== *)

Section Ownership.
Implicit Types (w : Workspace) (s : State) (l : leaf) (c e : Dom.elem)
  (el : Dom.Element) (f : Dom.Element → Dom.Element).

Lemma attached_remove el : ¬ Dom.attached (Dom.remove el).
Proof. intros [? [=]]. Qed.

Lemma parentNode_setVisibility b el :
  Dom.parentNode (setVisibility b el) = Dom.parentNode el.
Proof. by destruct b. Qed.

(** Changing an element without giving it a parent keeps the invariant. *)
Lemma wf_alter f c s :
  (∀ el, Dom.attached (f el) → Dom.attached el) →
  wf s → wf (with_dom (alter f c) s).
Proof.
  intros Hf (K & C & B & O & S). unfold wf, tracked, containers in *; fields.
  split_and!; try done.
  - intros c' Hc'. rewrite length_alter. auto.
  - intros e el. rewrite list_lookup_alter. case_decide as E.
    + subst e. destruct (dom s !! c) as [el0|] eqn:E0; [|done].
      intros [= <-] Ha. eauto.
    + eauto.
  - intros e He. rewrite length_alter. auto.
Qed.

Lemma wf_with_settings cfg s : wf s → wf (with_settings cfg s).
Proof. done. Qed.

Lemma wf_updateStyle s : wf s → wf (updateStyle s).
Proof.
  intros H. unfold updateStyle. destruct (styleEl s); [|done].
  by apply wf_alter.
Qed.

Lemma wf_createFloatingButtons c l s : wf s → wf (createFloatingButtons c l s).
Proof. intros H. by apply wf_alter. Qed.

Lemma wf_updateSingleLeafVisibility w l s :
  wf s → wf (updateSingleLeafVisibility w l s).
Proof.
  intros H. unfold updateSingleLeafVisibility.
  destruct (JS.map_get _ _); [|done].
  apply wf_alter; [|done]. intros el. unfold Dom.attached.
  by rewrite parentNode_setVisibility.
Qed.

(** A new element put in the table for an untracked pane. *)
Lemma wf_track l el s :
  wf s → l ∉ tracked s →
  wf {| settings := settings s;
        leafButtonContainers :=
          JS.map_set l (length (dom s)) (leafButtonContainers s);
        styleEl := styleEl s;
        dom := dom s ++ [el] |}.
Proof.
  intros (K & C & B & O & S) Hl. unfold wf, tracked, containers in *; fields.
  rewrite map_set_fresh by done. unfold JS.map_keys in *.
  rewrite !fmap_app; simpl. split_and!.
  - apply NoDup_app. split_and!; [done| |apply NoDup_singleton].
    intros x Hx ->%list_elem_of_singleton. done.
  - apply NoDup_app. split_and!; [done| |apply NoDup_singleton].
    intros x Hx ->%list_elem_of_singleton. apply B in Hx. lia.
  - intros c. rewrite elem_of_app, list_elem_of_singleton, length_app; simpl.
    intros [Hc| ->]; [apply B in Hc|]; lia.
  - intros e el'. rewrite elem_of_app, list_elem_of_singleton.
    destruct (decide (e < length (dom s))%nat) as [Hlt|Hge].
    + rewrite lookup_app_l by done. intros He Ha.
      destruct (O _ _ He Ha); auto.
    + intros He%lookup_lt_Some _. rewrite length_app in He; simpl in He.
      left. right. lia.
  - intros e He. destruct (S e He) as [Hn Hlt].
    rewrite not_elem_of_app, list_elem_of_singleton, length_app; simpl.
    split; [split; [done|lia]|lia].
Qed.

(** A scratch element that stays without parent. *)
Lemma wf_scratch el s :
  ¬ Dom.attached el → wf s → wf (with_dom (fun h => h ++ [el]) s).
Proof.
  intros Hel (K & C & B & O & S). unfold wf, tracked, containers in *; fields.
  split_and!; try done.
  - intros c Hc. rewrite length_app. apply B in Hc. lia.
  - intros e el'. rewrite lookup_app.
    destruct (dom s !! e) as [el0|] eqn:E0.
    + intros [= <-]. eauto.
    + destruct (e - length (dom s))%nat; [|done]. by intros [= <-].
  - intros e He. destruct (S e He) as [Hn Hlt].
    rewrite length_app. split; [done|lia].
Qed.

Lemma wf_addButtonsToLeaf w l s : wf s → wf (addButtonsToLeaf w l s).
Proof.
  intros H. unfold addButtonsToLeaf.
  destruct (isMarkdownView w l); simpl; [|done].
  destruct (JS.map_has l _) eqn:Hhas; simpl; [done|].
  apply map_has_false in Hhas. rewrite !alter_created.
  destruct (viewContent w l) as [vc|].
  - apply wf_updateSingleLeafVisibility, wf_createFloatingButtons.
    rewrite alter_created. exact (wf_track l _ s H Hhas).
  - refine (wf_scratch _ s _ H). intros [? [=]].
Qed.

Lemma wf_removeButtonsFromLeaf l s : wf s → wf (removeButtonsFromLeaf l s).
Proof.
  intros H. unfold removeButtonsFromLeaf.
  destruct (JS.map_has l _) eqn:Hhas; [|done].
  destruct (JS.map_get l _) as [c|] eqn:Hget.
  2:{ apply map_get_None in Hget. by apply map_has_true in Hhas. }
  destruct H as (K & C & B & O & S). unfold wf, tracked, containers in *; fields.
  pose proof (map_delete_sublist l (leafButtonContainers s)) as Hsub.
  split_and!.
  - eapply sublist_NoDup; [exact K|]. unfold JS.map_keys. by rewrite Hsub.
  - eapply sublist_NoDup; [exact C|]. by rewrite Hsub.
  - intros c'. rewrite length_alter. intros Hc'. apply B.
    apply list_elem_of_fmap in Hc' as ([l' c''] & -> & Hin).
    apply elem_of_map_delete in Hin as [_ Hin].
    apply list_elem_of_fmap. by exists (l', c'').
  - intros e el. rewrite list_lookup_alter. case_decide as E.
    + subst e. destruct (dom s !! c); [|done].
      intros [= <-] Ha. by destruct (attached_remove _ Ha).
    + intros He Ha. destruct (O _ _ He Ha) as [Hin|?]; [left|by right].
      apply list_elem_of_fmap in Hin as ([l' c'] & -> & Hin).
      apply list_elem_of_fmap. exists (l', c'). split; [done|].
      apply elem_of_map_delete. split; [|done]. simpl. intros ->.
      apply (map_get_NoDup _ _ _ K) in Hin. simpl in E. congruence.
  - intros e He. destruct (S e He) as [Hn Hlt].
    rewrite length_alter. split; [|done].
    intros Hin. apply Hn.
    apply list_elem_of_fmap in Hin as ([l' c'] & -> & Hin).
    apply elem_of_map_delete in Hin as [_ Hin].
    apply list_elem_of_fmap. by exists (l', c').
Qed.

Lemma wf_fold {A} (step : State → A → State) (xs : list A) s :
  (∀ st x, wf st → wf (step st x)) → wf s → wf (fold_left step xs s).
Proof.
  intros Hstep. revert s. induction xs as [|x xs IH]; simpl; auto.
Qed.

Lemma wf_initializeAllButtons w s : wf s → wf (initializeAllButtons w s).
Proof. apply wf_fold. intros st x. apply wf_addButtonsToLeaf. Qed.

Lemma wf_updateAllButtons w s : wf s → wf (updateAllButtons w s).
Proof.
  apply wf_fold. intros st x H.
  by apply wf_addButtonsToLeaf, wf_removeButtonsFromLeaf.
Qed.

Lemma wf_handleLayoutChange w s : wf s → wf (handleLayoutChange w s).
Proof.
  intros H. unfold handleLayoutChange. apply wf_fold.
  { intros st x Hst. destruct (negb _); [|done].
    by apply wf_removeButtonsFromLeaf. }
  apply wf_fold; [|done].
  intros st x Hst. destruct (negb _); [|done]. by apply wf_addButtonsToLeaf.
Qed.

Lemma wf_handleActiveLeafChange w a s : wf s → wf (handleActiveLeafChange w a s).
Proof.
  unfold handleActiveLeafChange. apply wf_fold.
  intros st [l c] Hst. destruct (isMarkdownView w l); [|done].
  apply wf_alter; [|done]. intros el. unfold Dom.attached.
  by rewrite parentNode_setVisibility.
Qed.

End Ownership.

Section LifeCycle.
Implicit Types (w : Workspace) (s : State) (l : leaf) (c e : Dom.elem)
  (el : Dom.Element).

Lemma containers_removeStyleEl s :
  leafButtonContainers (removeStyleEl s) = leafButtonContainers s.
Proof. unfold removeStyleEl. by destruct (styleEl s). Qed.

Lemma styleEl_removeStyleEl s : styleEl (removeStyleEl s) = styleEl s.
Proof. unfold removeStyleEl. by destruct (styleEl s) eqn:E. Qed.

Lemma length_removeStyleEl s : length (dom (removeStyleEl s)) = length (dom s).
Proof.
  unfold removeStyleEl. destruct (styleEl s); [|done].
  fields. apply length_alter.
Qed.

(** Once the style element is removed, what has a parent is in the table. *)
Lemma removeStyleEl_attached s e el :
  wf s → dom (removeStyleEl s) !! e = Some el → Dom.attached el →
  e ∈ containers s.
Proof.
  intros (_ & _ & _ & O & _). unfold removeStyleEl.
  destruct (styleEl s) as [e0|] eqn:E0; fields.
  - rewrite list_lookup_alter. case_decide as E.
    + subst e0. destruct (dom s !! e); [|done].
      intros [= <-] Ha. by destruct (attached_remove _ Ha).
    + intros He Ha. destruct (O _ _ He Ha) as [?|[= ->]]; done.
  - intros He Ha. by destruct (O _ _ He Ha).
Qed.

Lemma wf_addStyle s : wf s → wf (addStyle s).
Proof.
  intros H. unfold addStyle, Dom.createElement. cbv beta iota zeta.
  rewrite !alter_created. apply wf_updateStyle.
  pose proof H as (K & C & B & O & S).
  unfold wf, tracked, containers in *; fields.
  rewrite containers_removeStyleEl. split_and!; try done.
  - intros c Hc. rewrite length_app, length_removeStyleEl.
    apply B in Hc. lia.
  - intros e el.
    destruct (decide (e < length (dom (removeStyleEl s)))%nat) as [Hlt|Hge].
    + rewrite lookup_app_l by done. intros He Ha. left.
      by apply (removeStyleEl_attached s e el).
    + intros He%lookup_lt_Some _. rewrite length_app in He; simpl in He.
      right. f_equal. lia.
  - intros e [= <-]. rewrite length_app, length_removeStyleEl; simpl.
    split; [|lia]. intros Hin%B. lia.
Qed.

(** What the loop of [onunload] leaves with a parent had one before and
    is not in the table. *)
Lemma onunload_loop (entries : list (leaf * Dom.elem)) s :
  let s' :=
    fold_left
      (fun st '(_, container) => with_dom (alter Dom.remove container) st)
      entries s in
  styleEl s' = styleEl s
  ∧ ∀ e el', dom s' !! e = Some el' →
      ∃ el, dom s !! e = Some el
            ∧ (Dom.attached el' → Dom.attached el ∧ e ∉ entries.*2).
Proof.
  revert s. induction entries as [|[l c] entries IH]; intros s; simpl.
  - split; [done|]. intros e el' He. exists el'. split; [done|].
    intros Ha. split; [done|apply not_elem_of_nil].
  - destruct (IH (with_dom (alter Dom.remove c) s)) as [E1 E2].
    split; [by rewrite E1|].
    intros e el' He. destruct (E2 _ _ He) as (el1 & He1 & Hat).
    revert He1. fields. rewrite list_lookup_alter. case_decide as E.
    + subst e. destruct (dom s !! c) as [el|]; [|done].
      intros [= <-]. exists el. split; [done|].
      intros Ha. destruct (Hat Ha) as [Ha' _].
      by destruct (attached_remove _ Ha').
    + intros He1. exists el1. split; [done|].
      intros Ha. destruct (Hat Ha) as [Ha' Hn]. split; [done|].
      rewrite not_elem_of_cons. split; [congruence|done].
Qed.

Lemma onunload_detached s e el :
  wf s → dom (onunload s) !! e = Some el → ¬ Dom.attached el.
Proof.
  intros (_ & _ & _ & O & _) He Ha. unfold onunload in He.
  destruct (onunload_loop (leafButtonContainers s) s) as [E1 E2].
  revert He. fields. unfold removeStyleEl. fields. rewrite E1.
  destruct (styleEl s) as [e0|] eqn:E0; fields.
  - rewrite list_lookup_alter. case_decide as E.
    + destruct (_ !! e0); [|done]. intros [= <-].
      by destruct (attached_remove _ Ha).
    + intros He. destruct (E2 _ _ He) as (el0 & He0 & Hat).
      destruct (Hat Ha) as [Ha0 Hn].
      destruct (O _ _ He0 Ha0) as [?|[= ->]]; done.
  - intros He. destruct (E2 _ _ He) as (el0 & He0 & Hat).
    destruct (Hat Ha) as [Ha0 Hn].
    by destruct (O _ _ He0 Ha0).
Qed.

Lemma containers_onunload s : leafButtonContainers (onunload s) = [].
Proof. unfold onunload. fields. by rewrite containers_removeStyleEl. Qed.

Lemma wf_onunload s : wf s → wf (onunload s).
Proof.
  intros H. unfold wf, tracked, containers.
  rewrite containers_onunload. split_and!.
  - apply NoDup_nil_2.
  - apply NoDup_nil_2.
  - intros c Hc. by apply elem_of_nil in Hc.
  - intros e el He Ha. by destruct (onunload_detached s e el).
  - intros e [=].
Qed.

Lemma wf_constructor : wf constructor.
Proof.
  unfold wf, tracked, containers; simpl. split_and!; try apply NoDup_nil_2.
  - intros c Hc. by apply elem_of_nil in Hc.
  - intros e el He. done.
  - intros e [=].
Qed.

(** Every state of the plugin satisfies the invariant. *)
Lemma reachable_wf s : reachable s → wf s.
Proof.
  induction 1;
    auto using wf_constructor, wf_with_settings, wf_addStyle,
      wf_initializeAllButtons, wf_handleLayoutChange,
      wf_handleActiveLeafChange, wf_onunload.
  by apply wf_updateStyle, wf_updateAllButtons.
Qed.

Lemma remove_remove (el : Dom.Element) : Dom.remove (Dom.remove el) = Dom.remove el.
Proof. reflexivity. Qed.

Lemma remove_detached (el : Dom.Element) : ¬ Dom.attached el → Dom.remove el = el.
Proof.
  destruct el as [t i cl [p|] k x]; [|done].
  intros H. destruct H. by eexists.
Qed.

(** What the loop of [onunload] makes of the elements there are: those
    of the table lose their parent, the others are left alone. *)
Lemma onunload_loop_forward (entries : list (leaf * Dom.elem)) s e el :
  dom s !! e = Some el →
  dom (fold_left
         (fun st '(_, container) => with_dom (alter Dom.remove container) st)
         entries s) !! e
  = Some (if decide (e ∈ entries.*2) then Dom.remove el else el).
Proof.
  revert s el. induction entries as [|[l c] entries IH]; intros s el Hel.
  { cbn [fold_left fmap list_fmap].
    by rewrite (decide_False (P := e ∈ [])) by apply not_elem_of_nil. }
  rewrite fold_left_cons. cbn [fmap list_fmap snd].
  destruct (decide (e = c)) as [->|Hne].
  - rewrite (IH _ (Dom.remove el))
      by (fields; by rewrite list_lookup_alter_eq, Hel).
    rewrite (decide_True (P := c ∈ c :: entries.*2)) by left.
    by destruct (decide (c ∈ entries.*2)).
  - rewrite (IH _ el) by (fields; by rewrite list_lookup_alter_ne).
    destruct (decide (e ∈ entries.*2)) as [Hin|Hn].
    + by rewrite decide_True by (by right).
    + rewrite decide_False; [done|].
      rewrite not_elem_of_cons. by split.
Qed.

Lemma settings_removeStyleEl s : settings (removeStyleEl s) = settings s.
Proof. unfold removeStyleEl. by destruct (styleEl s). Qed.

Lemma onunload_loop_keeps (entries : list (leaf * Dom.elem)) s :
  let s' :=
    fold_left
      (fun st '(_, container) => with_dom (alter Dom.remove container) st)
      entries s in
  settings s' = settings s ∧ length (dom s') = length (dom s).
Proof.
  revert s. induction entries as [|[l c] entries IH]; intros s; [done|].
  rewrite fold_left_cons. intros s'. subst s'.
  destruct (IH (with_dom (alter Dom.remove c) s)) as [-> ->].
  fields. by rewrite length_alter.
Qed.

(** [onunload] takes every element there was out of its parent and
    changes nothing else about it. *)
Lemma onunload_removes s e el :
  wf s → dom s !! e = Some el → dom (onunload s) !! e = Some (Dom.remove el).
Proof.
  intros (_ & _ & _ & O & _) Hel.
  pose proof (onunload_loop_forward (leafButtonContainers s) s e el Hel) as Hl.
  destruct (onunload_loop (leafButtonContainers s) s) as [E1 _].
  unfold onunload. fields. unfold removeStyleEl. fields. rewrite E1.
  assert (Hrest : e ∉ containers s → styleEl s ≠ Some e → Dom.remove el = el).
  { intros Hn Hs. apply remove_detached. intros Ha.
    by destruct (O e el Hel Ha). }
  fold (containers s) in Hl.
  destruct (styleEl s) as [e0|] eqn:E0; fields.
  - rewrite list_lookup_alter. destruct (decide (e0 = e)) as [E|E].
    + subst e0. rewrite Hl. simpl. by destruct (decide (e ∈ containers s)).
    + rewrite Hl. destruct (decide (e ∈ containers s)); [done|].
      rewrite Hrest; [done..|congruence].
  - rewrite Hl. destruct (decide (e ∈ containers s)); [done|].
    by rewrite Hrest.
Qed.

(** C9. After [onunload], whatever the plugin did before, the table is
    empty, the plugin holds no style element, and no element that the
    plugin created (overlay container or style element) has a parent.
    The elements afterwards are those there were before, each one
    taken out of its parent and otherwise unchanged: the overlay
    containers of the table and the style element the plugin held are
    among them; the settings are kept. *)
Theorem onunload_cleans_up s :
  reachable s →
  leafButtonContainers (onunload s) = []
  ∧ styleEl (onunload s) = None
  ∧ (∀ e el, dom (onunload s) !! e = Some el → ¬ Dom.attached el)
  ∧ settings (onunload s) = settings s
  ∧ length (dom (onunload s)) = length (dom s)
  ∧ (∀ e el, dom s !! e = Some el →
       dom (onunload s) !! e = Some (Dom.remove el)
       ∧ ¬ Dom.attached (Dom.remove el))
  ∧ (∀ l c, (l, c) ∈ leafButtonContainers s →
       ∃ el, dom s !! c = Some el
             ∧ dom (onunload s) !! c = Some (Dom.remove el))
  ∧ (∀ e, styleEl s = Some e →
       ∃ el, dom s !! e = Some el
             ∧ dom (onunload s) !! e = Some (Dom.remove el)).
Proof.
  intros H%reachable_wf.
  assert (Hall : ∀ e el, dom s !! e = Some el →
            dom (onunload s) !! e = Some (Dom.remove el)
            ∧ ¬ Dom.attached (Dom.remove el)).
  { intros e el Hel. split; [by apply onunload_removes|].
    apply attached_remove. }
  destruct (onunload_loop_keeps (leafButtonContainers s) s) as [Hset Hlen0].
  assert (Hlen : length (dom (onunload s)) = length (dom s)).
  { unfold onunload. fields. by rewrite length_removeStyleEl. }
  pose proof H as (_ & _ & B & _ & S).
  split; [apply containers_onunload|].
  split; [done|]. split; [intros e el; by apply onunload_detached|].
  split.
  { unfold onunload. fields. by rewrite settings_removeStyleEl. }
  split; [exact Hlen|]. split; [exact Hall|]. split.
  - intros l c Hin.
    assert (Hc : (c < length (dom s))%nat).
    { apply B. apply list_elem_of_fmap. by exists (l, c). }
    destruct (lookup_lt_is_Some_2 _ _ Hc) as [el Hel].
    exists el. split; [done|]. by apply Hall.
  - intros e He. destruct (S e He) as [_ Hc].
    destruct (lookup_lt_is_Some_2 _ _ Hc) as [el Hel].
    exists el. split; [done|]. by apply Hall.
Qed.

Lemma onunload_cleans_up_witness :
  reachable loadedA
  ∧ length (dom loadedA) = 3%nat
  ∧ leafButtonContainers (onunload loadedA) = []
  ∧ (∀ e el, dom (onunload loadedA) !! e = Some el → ¬ Dom.attached el)
  ∧ (∀ e el, dom loadedA !! e = Some el →
       dom (onunload loadedA) !! e = Some (Dom.remove el)).
Proof.
  assert (H := reachable_loadedA).
  pose proof (onunload_cleans_up loadedA H)
    as (E1 & _ & E3 & _ & _ & E6 & _).
  split; [exact H|]. split; [reflexivity|].
  split; [exact E1|]. split; [exact E3|].
  intros e el Hel. exact (proj1 (E6 e el Hel)).
Defined.

End LifeCycle.

(* ================================================================== *)
(** * Focus                                                             *)
(* ================================================================== *)

Section Focus.
Implicit Types (w : Workspace) (s : State) (l : leaf) (c e : Dom.elem)
  (el : Dom.Element) (a : option leaf).

Lemma markedVisible_setVisibility el : markedVisible (setVisibility true el).
Proof.
  unfold markedVisible, Dom.hasClass, setVisibility; simpl.
  rewrite !list_elem_of_filter. split; [|naive_solver].
  split; [done|]. case_decide; [done|].
  apply elem_of_app. right. by apply list_elem_of_singleton.
Qed.

Lemma markedHidden_setVisibility el : markedHidden (setVisibility false el).
Proof.
  unfold markedHidden, Dom.hasClass, setVisibility; simpl.
  split.
  - case_decide; [done|].
    apply elem_of_app. right. by apply list_elem_of_singleton.
  - case_decide.
    + rewrite list_elem_of_filter. naive_solver.
    + rewrite elem_of_app, list_elem_of_filter, list_elem_of_singleton.
      naive_solver.
Qed.

Lemma focus_loop w a (entries : list (leaf * Dom.elem)) s :
  let s' :=
    fold_left
      (fun st '(l, container) =>
         if isMarkdownView w l then
           let shouldBeVisible := bool_decide (Some l = a) in
           with_dom (alter (setVisibility shouldBeVisible) container) st
         else st)
      entries s in
  leafButtonContainers s' = leafButtonContainers s
  ∧ (∀ e, Dom.parentNode <$> dom s' !! e = Dom.parentNode <$> dom s !! e)
  ∧ (∀ e, e ∉ entries.*2 → dom s' !! e = dom s !! e)
  ∧ (NoDup entries.*2 →
     ∀ l c, (l, c) ∈ entries → dom s' !! c = focusOn w a l <$> dom s !! c).
Proof.
  revert s. induction entries as [|[l0 c0] entries IH]; intros s.
  { simpl. split_and!; try done. intros _ l c Hin. by apply elem_of_nil in Hin. }
  rewrite fold_left_cons.
  match goal with |- context [fold_left _ entries ?x] => set (s1 := x) end.
  assert (H1 : leafButtonContainers s1 = leafButtonContainers s
               ∧ (∀ e, Dom.parentNode <$> dom s1 !! e
                       = Dom.parentNode <$> dom s !! e)
               ∧ (∀ e, e ≠ c0 → dom s1 !! e = dom s !! e)
               ∧ dom s1 !! c0 = focusOn w a l0 <$> dom s !! c0).
  { subst s1. cbv beta iota zeta. unfold focusOn.
    destruct (isMarkdownView w l0); fields.
    - split_and!; try done.
      + intros e. rewrite list_lookup_alter. case_decide; [subst|done].
        destruct (dom s !! e); [|done]. simpl.
        by rewrite parentNode_setVisibility.
      + intros e He. by rewrite list_lookup_alter_ne.
      + by rewrite list_lookup_alter_eq.
    - split_and!; try done. by destruct (dom s !! c0). }
  clearbody s1.
  destruct H1 as (A1 & A2 & A3 & A4).
  destruct (IH s1) as (B1 & B2 & B3 & B4).
  intros s'. subst s'. split_and!.
  - by rewrite B1.
  - intros e. by rewrite B2.
  - intros e [Hne Hn]%not_elem_of_cons. rewrite B3 by done. by apply A3.
  - intros [Hc0 Hnd]%NoDup_cons l c [[= -> ->]|Hin]%elem_of_cons.
    + by rewrite B3.
    + rewrite (B4 Hnd _ _ Hin), A3; [done|].
      intros ->. apply Hc0. apply list_elem_of_fmap. by exists (l, c0).
Qed.

(** C5, amended. After the focus handler the table is unchanged and no
    element has lost or changed its parent; the overlay of each tracked
    pane whose view is a [MarkdownView] is marked visible when the pane
    is the newly focused one and hidden otherwise; the overlay of a
    tracked pane whose view is not a [MarkdownView] is left as it is. *)
Theorem handleActiveLeafChange_focus w a s :
  reachable s →
  let s' := handleActiveLeafChange w a s in
  leafButtonContainers s' = leafButtonContainers s
  ∧ (∀ e, Dom.parentNode <$> dom s' !! e = Dom.parentNode <$> dom s !! e)
  ∧ ∀ l c, (l, c) ∈ leafButtonContainers s →
      ∃ el, dom s !! c = Some el
            ∧ if isMarkdownView w l then
                ∃ el', dom s' !! c = Some el'
                       ∧ if bool_decide (Some l = a) then markedVisible el'
                         else markedHidden el'
              else dom s' !! c = Some el.
Proof.
  intros (_ & C & B & _ & _)%reachable_wf s'.
  destruct (focus_loop w a (leafButtonContainers s) s) as (E1 & E2 & _ & E4).
  split; [done|]. split; [done|].
  intros l c Hin.
  assert (Hc : (c < length (dom s))%nat).
  { apply B. apply list_elem_of_fmap. by exists (l, c). }
  destruct (lookup_lt_is_Some_2 _ _ Hc) as [el Hel].
  exists el. split; [done|].
  specialize (E4 C l c Hin). fold s' in E4. rewrite Hel in E4.
  unfold focusOn in E4. simpl in E4.
  destruct (isMarkdownView w l); [|done].
  eexists. split; [exact E4|].
  destruct (bool_decide _);
    [apply markedVisible_setVisibility|apply markedHidden_setVisibility].
Qed.

Lemma handleActiveLeafChange_focus_witness :
  reachable loadedA
  ∧ leafButtonContainers loadedA = [(1, 1); (4, 2)]%nat
  ∧ (∃ el, dom (handleActiveLeafChange workspaceA (Some 4%nat) loadedA) !! 1%nat
           = Some el ∧ markedHidden el)
  ∧ (∃ el, dom (handleActiveLeafChange workspaceA (Some 4%nat) loadedA) !! 2%nat
           = Some el ∧ markedVisible el).
Proof.
  assert (H := reachable_loadedA).
  split; [exact H|]. split; [reflexivity|].
  pose proof (handleActiveLeafChange_focus workspaceA (Some 4%nat) loadedA H)
    as (_ & _ & F).
  split.
  - destruct (F 1%nat 1%nat) as (el & _ & el' & E & V); [set_solver|].
    by exists el'.
  - destruct (F 4%nat 2%nat) as (el & _ & el' & E & V); [set_solver|].
    by exists el'.
Defined.

(** C5 as stated fails. Panes 1 and 4 are tracked and pane 1 has the
    focus; the view of pane 1 is then replaced by one that is not a
    [MarkdownView], and the focus moves to pane 4 before the debounced
    reconciliation has run. The handler skips pane 1, whose overlay
    stays marked visible next to the overlay of pane 4. *)
Lemma handleActiveLeafChange_stale_overlay :
  reachable loadedA
  ∧ ¬ singleFocus workspaceC (Some 4%nat) loadedA.
Proof.
  split; [exact reachable_loadedA|].
  intros (_ & _ & F).
  destruct (F 1%nat 1%nat) as (el & E & V); [set_solver|].
  vm_compute in E. injection E as <-.
  destruct V as [_ V]. apply V. unfold Dom.hasClass. simpl. set_solver.
Qed.

End Focus.

(* ================================================================== *)
(** * Rebuilding the overlays                                           *)
(* ================================================================== *)

Section Rebuild.
Context {K V : Type} `{EqDecision K}.

Lemma map_get_map_set_eq (k : K) (v : V) m :
  JS.map_get k (JS.map_set k v m) = Some v.
Proof.
  induction m as [|[k' v'] m IH]; simpl.
  - by rewrite decide_True.
  - case_decide as E; simpl; [by rewrite decide_True|by rewrite decide_False].
Qed.

Lemma map_get_map_set_ne (k k' : K) (v : V) m :
  k ≠ k' → JS.map_get k (JS.map_set k' v m) = JS.map_get k m.
Proof.
  intros Hne. induction m as [|[k0 v0] m IH]; simpl.
  - by rewrite decide_False.
  - case_decide as E; simpl.
    + subst k0. by rewrite !decide_False.
    + case_decide; [done|apply IH].
Qed.

Lemma map_get_map_delete_ne (k k' : K) (m : list (K * V)) :
  k ≠ k' → JS.map_get k (JS.map_delete k' m) = JS.map_get k m.
Proof.
  intros Hne. induction m as [|[k0 v0] m IH]; simpl; [done|].
  case_decide as E; simpl.
  - subst k0. by rewrite decide_False.
  - case_decide; [done|apply IH].
Qed.

Lemma NoDup_values_key (m : list (K * V)) k k' v :
  NoDup m.*2 → (k, v) ∈ m → (k', v) ∈ m → k = k'.
Proof.
  induction m as [|[k0 v0] m IH]; simpl.
  - intros _ H'. by apply elem_of_nil in H'.
  - rewrite NoDup_cons, !elem_of_cons.
    intros [Hn Hnd] [[= -> ->]|H1] [[= -> ]|H2]; auto.
    + destruct Hn. apply list_elem_of_fmap. by exists (k', v0).
    + subst. destruct Hn. apply list_elem_of_fmap. by exists (k, v0).
Qed.

End Rebuild.

Section RebuildAll.
Implicit Types (w : Workspace) (s : State) (l : leaf) (c e : Dom.elem)
  (el : Dom.Element).

(** The attaching branch of [addButtonsToLeaf], in one step. *)
Lemma addButtonsToLeaf_attach w l s vc :
  isMarkdownView w l = true → l ∉ tracked s → viewContent w l = Some vc →
  addButtonsToLeaf w l s
  = with_containers (fun m => m ++ [(l, length (dom s))])
      (with_dom (fun h => h ++ [overlayFor w (settings s) l vc]) s).
Proof.
  intros Hmd Hl Hvc. unfold addButtonsToLeaf, Dom.createElement.
  rewrite Hmd, (proj2 (map_has_false _ _) Hl), Hvc. cbv beta iota zeta.
  rewrite !alter_created.
  unfold createFloatingButtons, updateSingleLeafVisibility. fields.
  rewrite map_get_map_set_eq. cbn [negb orb].
  unfold with_dom, with_containers. fields.
  rewrite !alter_created, map_set_fresh by done. reflexivity.
Qed.

(** [addButtonsToLeaf] only adds to the heap, and keeps the rest. *)
Lemma addButtonsToLeaf_extends w l s :
  settings (addButtonsToLeaf w l s) = settings s
  ∧ styleEl (addButtonsToLeaf w l s) = styleEl s
  ∧ ∃ g, dom (addButtonsToLeaf w l s) = dom s ++ g.
Proof.
  destruct (decide (attachable w l ∧ l ∉ tracked s)) as [[[Hmd [vc Hvc]] Hl]|Hno].
  - rewrite (addButtonsToLeaf_attach w l s vc) by done. fields.
    split_and!; try done. by eexists.
  - destruct (addButtonsToLeaf_scratch w l s Hno) as (-> & _ & -> & g & -> & _).
    split_and!; try done. by eexists.
Qed.

Lemma removeButtonsFromLeaf_keeps l s :
  settings (removeButtonsFromLeaf l s) = settings s
  ∧ styleEl (removeButtonsFromLeaf l s) = styleEl s
  ∧ length (dom (removeButtonsFromLeaf l s)) = length (dom s).
Proof.
  unfold removeButtonsFromLeaf. destruct (JS.map_has l _); [|done].
  destruct (JS.map_get l _); [|done]. fields.
  split_and!; try done. apply length_alter.
Qed.

Lemma rebuild_extends w ls s :
  let s' :=
    fold_left
      (fun st l => addButtonsToLeaf w l (removeButtonsFromLeaf l st)) ls s in
  settings s' = settings s ∧ styleEl s' = styleEl s
  ∧ (length (dom s) ≤ length (dom s'))%nat.
Proof.
  revert s. induction ls as [|l ls IH]; intros s; [by simpl|].
  rewrite fold_left_cons. intros s'. subst s'.
  destruct (IH (addButtonsToLeaf w l (removeButtonsFromLeaf l s)))
    as (E1 & E2 & E3).
  destruct (addButtonsToLeaf_extends w l (removeButtonsFromLeaf l s))
    as (F1 & F2 & g & F3).
  destruct (removeButtonsFromLeaf_keeps l s) as (G1 & G2 & G3).
  rewrite E1, E2, F1, F2, G1, G2. split_and!; try done.
  rewrite F3, length_app, G3 in E3. lia.
Qed.

Lemma elem_of_containers_addButtonsToLeaf w l0 s l c :
  (l, c) ∈ leafButtonContainers (addButtonsToLeaf w l0 s) →
  (l, c) ∈ leafButtonContainers s ∨ (l = l0 ∧ c = length (dom s)).
Proof.
  rewrite containers_addButtonsToLeaf.
  destruct (isMarkdownView w l0); simpl; [|auto].
  destruct (JS.map_has l0 _) eqn:Hhas; simpl; [auto|].
  destruct (viewContent w l0); [|auto].
  rewrite map_set_fresh by by apply map_has_false.
  rewrite elem_of_app, list_elem_of_singleton. intros [?|[= -> ->]]; auto.
Qed.

(** After [updateAllButtons], an entry of the table is an old entry of
    a pane that is not open, or holds an element made by this call. *)
Lemma rebuild_entries w ls s l c :
  (l, c) ∈ leafButtonContainers
             (fold_left
                (fun st l => addButtonsToLeaf w l (removeButtonsFromLeaf l st))
                ls s) →
  ((l, c) ∈ leafButtonContainers s ∧ l ∉ ls) ∨ (length (dom s) ≤ c)%nat.
Proof.
  revert s. induction ls as [|l0 ls IH]; intros s.
  { simpl. intros Hin. left. split; [done|apply not_elem_of_nil]. }
  rewrite fold_left_cons. intros Hin.
  destruct (removeButtonsFromLeaf_keeps l0 s) as (_ & _ & G3).
  destruct (addButtonsToLeaf_extends w l0 (removeButtonsFromLeaf l0 s))
    as (_ & _ & g & F3).
  apply IH in Hin as [[Hin Hl]|Hc].
  - apply elem_of_containers_addButtonsToLeaf in Hin as [Hin|[-> ->]].
    + rewrite containers_removeButtonsFromLeaf in Hin.
      apply elem_of_map_delete in Hin as [Hne Hin]. left. split; [done|].
      rewrite not_elem_of_cons. done.
    + right. lia.
  - right. rewrite F3, length_app, G3 in Hc. lia.
Qed.

(** One step of [updateAllButtons] leaves the other panes alone. *)
Lemma rebuild_step_frame w l0 s l c :
  wf s → l ≠ l0 → JS.map_get l (leafButtonContainers s) = Some c →
  let s' := addButtonsToLeaf w l0 (removeButtonsFromLeaf l0 s) in
  JS.map_get l (leafButtonContainers s') = Some c
  ∧ dom s' !! c = dom s !! c.
Proof.
  intros Hwf Hne Hget s'.
  pose proof Hwf as (Kd & Cd & B & _ & _).
  set (s1 := removeButtonsFromLeaf l0 s).
  assert (H1 : JS.map_get l (leafButtonContainers s1) = Some c
               ∧ dom s1 !! c = dom s !! c).
  { subst s1. rewrite containers_removeButtonsFromLeaf.
    rewrite map_get_map_delete_ne by done. split; [done|].
    unfold removeButtonsFromLeaf. destruct (JS.map_has l0 _); [|done].
    destruct (JS.map_get l0 _) as [c0|] eqn:Hget0; [|done]. fields.
    apply list_lookup_alter_ne. intros ->.
    apply map_get_Some in Hget, Hget0.
    by destruct Hne; apply (NoDup_values_key _ _ _ _ Cd Hget Hget0). }
  destruct H1 as [H1 H2].
  assert (Hc : (c < length (dom s1))%nat).
  { destruct (removeButtonsFromLeaf_keeps l0 s) as (_ & _ & G3).
    unfold s1. rewrite G3.
    apply B. apply map_get_Some in Hget.
    apply list_elem_of_fmap. by exists (l, c). }
  subst s'. fold s1. split.
  - rewrite containers_addButtonsToLeaf.
    destruct (_ && _); [|done]. destruct (viewContent w l0); [|done].
    by rewrite map_get_map_set_ne.
  - destruct (addButtonsToLeaf_extends w l0 s1) as (_ & _ & g & ->).
    by rewrite lookup_app_l.
Qed.

(** After [updateAllButtons], every open pane that can be attached to
    has a new overlay, built from the current settings. *)
Lemma rebuild_recreates w ls s l :
  wf s → l ∈ ls → attachable w l →
  let s' :=
    fold_left
      (fun st l => addButtonsToLeaf w l (removeButtonsFromLeaf l st)) ls s in
  ∃ c vc,
    viewContent w l = Some vc
    ∧ JS.map_get l (leafButtonContainers s') = Some c
    ∧ (length (dom s) ≤ c)%nat
    ∧ dom s' !! c = Some (overlayFor w (settings s) l vc).
Proof.
  intros Hwf Hin [Hmd [vc Hvc]].
  induction ls as [|l0 ls IH] using rev_ind.
  { by apply elem_of_nil in Hin. }
  rewrite fold_left_app. cbn [fold_left].
  set (st := fold_left _ ls s) in *.
  assert (Hst : wf st).
  { subst st. apply wf_fold; [|done]. intros st x Hx.
    by apply wf_addButtonsToLeaf, wf_removeButtonsFromLeaf. }
  destruct (rebuild_extends w ls s) as (E1 & _ & E3). fold st in E1, E3.
  destruct (decide (l = l0)) as [<-|Hne].
  - set (s1 := removeButtonsFromLeaf l st).
    assert (Hl : l ∉ tracked s1).
    { subst s1. rewrite tracked_removeButtonsFromLeaf. tauto. }
    destruct (removeButtonsFromLeaf_keeps l st) as (G1 & _ & G3). fold s1 in G1, G3.
    rewrite (addButtonsToLeaf_attach w l s1 vc) by done. fields.
    exists (length (dom s1)), vc. split_and!; [done| |lia|].
    + apply map_get_NoDup.
      * unfold JS.map_keys. rewrite fmap_app. apply NoDup_app.
        split_and!; [|by intros x Hx ->%list_elem_of_singleton
                     |apply NoDup_singleton].
        apply (wf_removeButtonsFromLeaf l st Hst).
      * apply elem_of_app. right. by apply list_elem_of_singleton.
    + rewrite lookup_app_r by done. rewrite Nat.sub_diag. simpl.
      by rewrite G1, E1.
  - apply elem_of_app in Hin as [Hin|Hin%list_elem_of_singleton]; [|done].
    destruct (IH Hin) as (c & vc' & Hvc' & Hget & Hc & Hel).
    destruct (rebuild_step_frame w l0 st l c Hst Hne Hget) as [F1 F2].
    exists c, vc'. split_and!; try done. by rewrite F2.
Qed.

End RebuildAll.

Section RebuildClaim.
Implicit Types (w : Workspace) (s : State) (l : leaf) (c e : Dom.elem).

(** [updateAllButtons] leaves the panes that are not open alone. *)
Lemma rebuild_frame w ls s l c :
  wf s → l ∉ ls → JS.map_get l (leafButtonContainers s) = Some c →
  let s' :=
    fold_left
      (fun st l => addButtonsToLeaf w l (removeButtonsFromLeaf l st)) ls s in
  JS.map_get l (leafButtonContainers s') = Some c ∧ dom s' !! c = dom s !! c.
Proof.
  revert s. induction ls as [|l0 ls IH]; intros s Hwf Hl Hget; [by simpl|].
  apply not_elem_of_cons in Hl as [Hne Hl].
  rewrite fold_left_cons. intros s'. subst s'.
  destruct (rebuild_step_frame w l0 s l c Hwf Hne Hget) as [F1 F2].
  destruct (IH (addButtonsToLeaf w l0 (removeButtonsFromLeaf l0 s)))
    as [G1 G2]; try done.
  { by apply wf_addButtonsToLeaf, wf_removeButtonsFromLeaf. }
  by rewrite G2, F2.
Qed.

(** C6, amended. [updateAllButtons] goes through the open panes: the
    overlay of a tracked pane that is open is removed from its parent; an
    open Markdown pane whose [.view-content] element is found gets a new
    overlay, built from the current settings, and is tracked with it; a
    tracked pane that is not open keeps its entry and its overlay. So
    the tracked panes afterwards are the tracked panes that are not open
    and the open panes that can be attached to, and the set of tracked
    panes is unchanged whenever, among the open panes, exactly those
    that can be attached to were tracked. *)
Theorem updateAllButtons_rebuilds w s :
  reachable s →
  let s' := updateAllButtons w s in
  (∀ l, l ∈ tracked s'
        ↔ (l ∈ tracked s ∧ l ∉ markdownLeaves w)
          ∨ (l ∈ markdownLeaves w ∧ attachable w l))
  ∧ (inSync w s → ∀ l, l ∈ tracked s' ↔ l ∈ tracked s)
  ∧ (∀ l c, (l, c) ∈ leafButtonContainers s → l ∈ markdownLeaves w →
       ∃ el, dom s' !! c = Some el ∧ ¬ Dom.attached el)
  ∧ (∀ l, l ∈ markdownLeaves w → attachable w l →
       ∃ c vc,
         viewContent w l = Some vc
         ∧ JS.map_get l (leafButtonContainers s') = Some c
         ∧ (length (dom s) ≤ c)%nat
         ∧ dom s' !! c = Some (overlayFor w (settings s) l vc))
  ∧ (∀ l c, (l, c) ∈ leafButtonContainers s → l ∉ markdownLeaves w →
       (l, c) ∈ leafButtonContainers s' ∧ dom s' !! c = dom s !! c).
Proof.
  intros Hwf%reachable_wf s'.
  pose proof (wf_updateAllButtons w s Hwf) as Hwf'. fold s' in Hwf'.
  pose proof Hwf as (Kd & Cd & B & _ & S).
  destruct (rebuild_extends w (markdownLeaves w) s) as (_ & E2 & E3).
  fold (forAllMarkdownLeaves w
          (fun l st => addButtonsToLeaf w l (removeButtonsFromLeaf l st)) s)
    in E2, E3.
  fold (updateAllButtons w s) in E2, E3. fold s' in E2, E3.
  split_and!.
  - intros l. apply tracked_updateAllButtons.
  - intros H l. subst s'. rewrite tracked_updateAllButtons.
    destruct (decide (l ∈ markdownLeaves w)) as [Ho|Ho].
    + specialize (H l Ho). tauto.
    + tauto.
  - intros l c Hin Ho.
    assert (Hc : (c < length (dom s))%nat).
    { apply B. apply list_elem_of_fmap. by exists (l, c). }
    destruct (lookup_lt_is_Some_2 (dom s') c) as [el Hel]; [lia|].
    exists el. split; [done|]. intros Ha.
    destruct Hwf' as (_ & _ & _ & O' & _).
    destruct (O' _ _ Hel Ha) as [Hc'|Hst].
    + apply list_elem_of_fmap in Hc' as ([l' c'] & Ec & Hin'). simpl in Ec.
      subst c'. apply rebuild_entries in Hin' as [[Hin' Hl']|Hge]; [|lia].
      by rewrite (NoDup_values_key _ _ _ _ Cd Hin Hin') in Ho.
    + rewrite E2 in Hst. destruct (S _ Hst) as [Hn _]. apply Hn.
      apply list_elem_of_fmap. by exists (l, c).
  - intros l Ho Ha. by apply rebuild_recreates.
  - intros l c Hin Ho.
    destruct (rebuild_frame w (markdownLeaves w) s l c) as [F1 F2]; try done.
    { by apply map_get_NoDup. }
    split; [|done]. by apply map_get_Some.
Qed.

Lemma updateAllButtons_rebuilds_witness :
  reachable loadedA
  ∧ inSync workspaceA loadedA
  ∧ tracked (updateAllButtons workspaceA loadedA) = [1; 4]%nat
  ∧ (∀ l, l ∈ tracked (updateAllButtons workspaceA loadedA)
          ↔ l ∈ tracked loadedA).
Proof.
  assert (H := reachable_loadedA).
  assert (Hs : inSync workspaceA loadedA).
  { intros l Hl. change (tracked loadedA) with (markdownLeaves workspaceA).
    split; [|done]. intros _. split; [reflexivity|by eexists]. }
  split; [exact H|]. split; [exact Hs|]. split; [reflexivity|].
  exact (proj1 (proj2 (updateAllButtons_rebuilds workspaceA loadedA H)) Hs).
Defined.

End RebuildClaim.

(* ================================================================== *)
(** * The tracked panes and their attachment points                     *)
(* ================================================================== *)

Section Attachment.
Implicit Types (w : Workspace) (s : State) (l : leaf) (c e : Dom.elem)
  (el : Dom.Element) (f : Dom.Element → Dom.Element).

Lemma fold_left_preserves {A} (P : State → Prop)
    (step : State → A → State) (xs : list A) s :
  (∀ st x, P st → P (step st x)) → P s → P (fold_left step xs s).
Proof.
  intros Hstep. revert s. induction xs as [|x xs IH]; simpl; auto.
Qed.

Lemma overlaysAttached_alter f c s :
  (∀ el, Dom.parentNode (f el) = Dom.parentNode el) →
  overlaysAttached s → overlaysAttached (with_dom (alter f c) s).
Proof.
  intros Hf H l c' Hin. destruct (H l c' Hin) as (el & vc & Hel & Hp).
  fields. rewrite list_lookup_alter. case_decide as E.
  - subst c'. rewrite Hel. simpl. exists (f el), vc. by rewrite Hf.
  - by exists el, vc.
Qed.

Lemma parentNode_overlayFor w cfg l vc :
  Dom.parentNode (overlayFor w cfg l vc) = Some (Dom.InViewContent vc).
Proof. unfold overlayFor. by rewrite parentNode_setVisibility. Qed.

Lemma overlaysAttached_addButtonsToLeaf w l s :
  overlaysAttached s → overlaysAttached (addButtonsToLeaf w l s).
Proof.
  intros H.
  destruct (decide (attachable w l ∧ l ∉ tracked s)) as [[[Hmd [vc Hvc]] Hl]|Hno].
  - rewrite (addButtonsToLeaf_attach w l s vc) by done.
    intros l' c'. fields. rewrite elem_of_app, list_elem_of_singleton.
    intros [Hin|[= -> ->]].
    + destruct (H l' c' Hin) as (el & vc' & Hel & Hp). exists el, vc'.
      split; [|done]. rewrite lookup_app_l; [done|by eapply lookup_lt_Some].
    + eexists _, vc. split; [|apply parentNode_overlayFor].
      rewrite lookup_app_r by done. by rewrite Nat.sub_diag.
  - destruct (addButtonsToLeaf_scratch w l s Hno) as (_ & E & _ & g & Eg & _).
    intros l' c'. rewrite E, Eg. intros Hin.
    destruct (H l' c' Hin) as (el & vc' & Hel & Hp). exists el, vc'.
    split; [|done]. rewrite lookup_app_l; [done|by eapply lookup_lt_Some].
Qed.

Lemma overlaysAttached_removeButtonsFromLeaf l s :
  wf s → overlaysAttached s → overlaysAttached (removeButtonsFromLeaf l s).
Proof.
  intros (_ & Cd & _) H l' c'. rewrite containers_removeButtonsFromLeaf.
  intros [Hne Hin]%elem_of_map_delete. simpl in Hne.
  destruct (H l' c' Hin) as (el & vc & Hel & Hp). exists el, vc.
  split; [|done]. unfold removeButtonsFromLeaf.
  destruct (JS.map_has l _); [|done].
  destruct (JS.map_get l _) as [c|] eqn:Hget; [|done]. fields.
  rewrite list_lookup_alter_ne; [done|]. intros ->.
  apply map_get_Some in Hget.
  by destruct Hne; apply (NoDup_values_key _ _ _ _ Cd Hin Hget).
Qed.

(** The invariant and the attachment of the overlays, together. *)
Lemma reachable_attached s : reachable s → wf s ∧ overlaysAttached s.
Proof.
  induction 1 as [|s cfg _ [Hw Ha]|s _ [Hw Ha]|w s _ [Hw Ha]|w s _ [Hw Ha]
                  |w a s _ [Hw Ha]|w s _ [Hw Ha]|s _ [Hw Ha]].
  - split; [apply wf_constructor|]. intros l c Hin. by apply elem_of_nil in Hin.
  - done.
  - split; [by apply wf_addStyle|].
    destruct Hw as (_ & _ & B & _ & S).
    unfold addStyle, Dom.createElement. cbv beta iota zeta.
    rewrite !alter_created. unfold updateStyle. fields.
    apply overlaysAttached_alter; [done|].
    intros l c. fields. rewrite containers_removeStyleEl. intros Hin.
    destruct (Ha l c Hin) as (el & vc & Hel & Hp). exists el, vc.
    split; [|done].
    assert (Hc : dom (removeStyleEl s) !! c = Some el).
    { unfold removeStyleEl. destruct (styleEl s) as [e0|] eqn:E0; [|done].
      fields. rewrite list_lookup_alter_ne; [done|]. intros ->.
      destruct (S _ eq_refl) as [Hn _]. apply Hn.
      apply list_elem_of_fmap. by exists (l, c). }
    rewrite lookup_app_l; [done|by eapply lookup_lt_Some].
  - apply (fold_left_preserves (fun st => wf st ∧ overlaysAttached st));
      [|done].
    intros st x [? ?].
    split; [by apply wf_addButtonsToLeaf|by apply overlaysAttached_addButtonsToLeaf].
  - unfold handleLayoutChange.
    apply (fold_left_preserves (fun st => wf st ∧ overlaysAttached st)).
    { intros st x [? ?]. destruct (negb _); [|done].
      split; [by apply wf_removeButtonsFromLeaf
             |by apply overlaysAttached_removeButtonsFromLeaf]. }
    apply (fold_left_preserves (fun st => wf st ∧ overlaysAttached st));
      [|done].
    intros st x [? ?]. destruct (negb _); [|done].
    split; [by apply wf_addButtonsToLeaf|by apply overlaysAttached_addButtonsToLeaf].
  - split; [by apply wf_handleActiveLeafChange|].
    unfold handleActiveLeafChange.
    apply (fold_left_preserves overlaysAttached); [|done].
    intros st [l c] Hst. destruct (isMarkdownView w l); [|done].
    apply overlaysAttached_alter; [|done]. intros el.
    apply parentNode_setVisibility.
  - split; [by apply wf_updateStyle, wf_updateAllButtons|].
    unfold saveSettings, updateStyle.
    assert (Hu : wf (updateAllButtons w s) ∧ overlaysAttached (updateAllButtons w s)).
    { apply (fold_left_preserves (fun st => wf st ∧ overlaysAttached st));
        [|done].
      intros st x [? ?].
      split; [by apply wf_addButtonsToLeaf, wf_removeButtonsFromLeaf|].
      by apply overlaysAttached_addButtonsToLeaf,
        overlaysAttached_removeButtonsFromLeaf. }
    destruct (styleEl _); [|apply Hu]. by apply overlaysAttached_alter, Hu.
  - split; [by apply wf_onunload|].
    intros l c. rewrite containers_onunload. intros Hin.
    by apply elem_of_nil in Hin.
Qed.

(** C1. After the reconciliation body has run, in any state of the
    plugin: the tracked panes are the open panes that were tracked before
    or are Markdown panes whose [.view-content] element is found now;
    the overlay of every tracked pane sits under a [.view-content]
    element (its attachment point was resolved); a pane that was not
    tracked and whose [.view-content] element is not found is not added;
    and when the panes tracked before and still open are Markdown panes
    whose attachment point still resolves, the tracked panes are exactly
    the open Markdown panes whose attachment point resolves. *)
Theorem handleLayoutChange_tracks_attachable w s :
  reachable s →
  let s' := handleLayoutChange w s in
  (∀ l, l ∈ tracked s'
        ↔ l ∈ markdownLeaves w ∧ (l ∈ tracked s ∨ attachable w l))
  ∧ overlaysAttached s'
  ∧ (∀ l, l ∉ tracked s → viewContent w l = None → l ∉ tracked s')
  ∧ (trackedAttachable w s →
     ∀ l, l ∈ tracked s' ↔ l ∈ markdownLeaves w ∧ attachable w l).
Proof.
  intros Hr s'. split_and!.
  - intros l. apply tracked_handleLayoutChange.
  - apply reachable_attached. by constructor.
  - intros l Hl Hnone. subst s'. rewrite tracked_handleLayoutChange.
    intros [_ [?|[_ [vc Hvc]]]]; [done|congruence].
  - intros H l. subst s'. rewrite tracked_handleLayoutChange. split.
    + intros [Ho [Ht|Ha]]; auto.
    + intros [Ho Ha]; auto.
Qed.

Lemma handleLayoutChange_tracks_attachable_witness :
  reachable loadedA
  ∧ trackedAttachable workspaceB loadedA
  ∧ tracked loadedA = [1; 4]%nat
  ∧ tracked (handleLayoutChange workspaceB loadedA) = [1; 5]%nat
  ∧ (∀ l, l ∈ tracked (handleLayoutChange workspaceB loadedA)
          ↔ l ∈ markdownLeaves workspaceB ∧ attachable workspaceB l).
Proof.
  assert (Hr := reachable_loadedA).
  assert (H : trackedAttachable workspaceB loadedA).
  { intros l Hl _. change (tracked loadedA) with [1; 4]%nat in Hl.
    apply elem_of_cons in Hl as [->|Hl].
    - split; [reflexivity|by eexists].
    - apply elem_of_cons in Hl as [->|Hl]; [|by apply elem_of_nil in Hl].
      split; [reflexivity|by eexists]. }
  split; [exact Hr|]. split; [exact H|].
  split; [reflexivity|]. split; [reflexivity|].
  exact (proj2 (proj2 (proj2
           (handleLayoutChange_tracks_attachable workspaceB loadedA Hr))) H).
Defined.

End Attachment.

(* ================================================================== *)
(** * More on [getContrastColor]                                        *)
(* ================================================================== *)

Section ContrastColorMore.
Implicit Types (s t : JS.jsstring) (c : JS.code_unit).

(** Past the guard, the result is the comparison of the luminance of the
    three parsed numbers. *)
Lemma getContrastColor_channels s :
  (4 ≤ length s)%nat →
  getContrastColor s
  = let '(r, g, b) := channels s in
    if JS.gt (luminance r g b) JS.lit_0_5 then black else white.
Proof.
  intros H. unfold getContrastColor, channels, expanded.
  assert (bool_decide (s = []) = false) as ->.
  { apply bool_decide_eq_false. intros ->. simpl in H. lia. }
  assert ((length s <? 4)%nat = false) as -> by (apply Nat.ltb_ge; lia).
  reflexivity.
Qed.

Lemma getContrastColor_cases s :
  getContrastColor s = black ∨ getContrastColor s = white.
Proof.
  unfold getContrastColor.
  destruct (_ || _); [by left|].
  destruct (JS.gt _ _); [by left|by right].
Qed.

Lemma luminance_NaN r g b :
  r = JS.NaN ∨ g = JS.NaN ∨ b = JS.NaN →
  JS.gt (luminance r g b) JS.lit_0_5 = false.
Proof.
  assert (Hm : ∀ x, JS.mul x JS.NaN = JS.NaN) by (by intros [| | |]).
  assert (Hal : ∀ y, JS.add JS.NaN y = JS.NaN) by (by intros [| | |]).
  assert (Har : ∀ x, JS.add x JS.NaN = JS.NaN) by (by intros [| | |]).
  unfold luminance. intros [->|[->| ->]]; by rewrite Hm, ?Hal, ?Har.
Qed.

(** X1. Malformed input. A string of fewer than four units gives black.
    From four units on, the result is white as soon as one of the three
    digit pairs does not parse to a number; so every string of five units
    gives white, its third pair being empty. *)
Theorem getContrastColor_unparsed s :
  ((length s < 4)%nat → getContrastColor s = black)
  ∧ ((4 ≤ length s)%nat →
     (channels s).1.1 = JS.NaN ∨ (channels s).1.2 = JS.NaN
     ∨ (channels s).2 = JS.NaN →
     getContrastColor s = white)
  ∧ (length s = 5%nat → getContrastColor s = white).
Proof.
  assert (H4 : (4 ≤ length s)%nat →
     (channels s).1.1 = JS.NaN ∨ (channels s).1.2 = JS.NaN
     ∨ (channels s).2 = JS.NaN →
     getContrastColor s = white).
  { intros H Hnan. rewrite getContrastColor_channels by done.
    destruct (channels s) as [[r g] b]. simpl in Hnan.
    by rewrite luminance_NaN. }
  split_and!; [apply getContrastColor_short|exact H4|].
  intros H5. apply H4; [lia|]. right. right.
  destruct s as [|c0 [|c1 [|c2 [|c3 [|c4 [|c5 ?]]]]]]; try done.
Qed.

Lemma getContrastColor_unparsed_witness :
  getContrastColor (JS.lit "#12") = black
  ∧ getContrastColor (JS.lit "#12zz56") = white
  ∧ getContrastColor (JS.lit "#1234") = white.
Proof.
  split_and!.
  - apply (proj1 (getContrastColor_unparsed (JS.lit "#12"))). simpl. lia.
  - apply (proj1 (proj2 (getContrastColor_unparsed (JS.lit "#12zz56")))).
    + simpl. lia.
    + right. left. reflexivity.
  - by apply (proj2 (proj2 (getContrastColor_unparsed (JS.lit "#1234")))).
Defined.

(** X2. What is read. The first unit of the string is never looked at, and
    nothing past the seventh unit is: a string of eight or more units
    gives what its first seven give. *)
Theorem getContrastColor_reads_units_1_to_6 :
  (∀ c c' t, getContrastColor (c :: t) = getContrastColor (c' :: t))
  ∧ (∀ s, (7 ≤ length s)%nat → getContrastColor s = getContrastColor (take 7 s)).
Proof.
  split.
  - intros c c' t. unfold getContrastColor. simpl length.
    assert (∀ x, bool_decide (x :: t = []) = false) as Hne
      by (intros x; by apply bool_decide_eq_false).
    rewrite !Hne. destruct (_ || _); [done|].
    destruct (_ =? _)%nat; reflexivity.
  - intros s H.
    assert (Hl : length (take 7 s) = 7%nat) by (rewrite length_take; lia).
    rewrite !getContrastColor_channels by lia.
    unfold channels, expanded. rewrite Hl.
    assert ((length s =? 4)%nat = false) as -> by (apply Nat.eqb_neq; lia).
    cbn [Nat.eqb]. unfold JS.substring.
    rewrite !take_drop_commute, !take_take. reflexivity.
Qed.

Lemma getContrastColor_reads_units_1_to_6_witness :
  getContrastColor (JS.lit "#ffffff80") = getContrastColor (JS.lit "#ffffff").
Proof.
  apply (proj2 getContrastColor_reads_units_1_to_6 (JS.lit "#ffffff80")).
  simpl. lia.
Defined.

(** X3. The result depends on the colour only. Two valid strings that
    denote the same three bytes (upper or lower case digits, short or long
    form) give the same result. *)
Theorem getContrastColor_same_colour s s' rgb :
  rgbOfHex s = Some rgb → rgbOfHex s' = Some rgb →
  getContrastColor s = getContrastColor s'.
Proof.
  destruct rgb as [[r g] b]. intros H H'.
  destruct (getContrastColor_rgb _ _ _ _ H) as [_ ->].
  by destruct (getContrastColor_rgb _ _ _ _ H') as [_ ->].
Qed.

Lemma getContrastColor_same_colour_witness :
  getContrastColor (JS.lit "#FA0") = getContrastColor (JS.lit "#ffaa00").
Proof.
  by apply (getContrastColor_same_colour _ _ (255, 170, 0)).
Defined.

(** X4. The contrast of a result is the other result. For every string,
    valid or not, applying [getContrastColor] to its own result gives the
    other colour, and applying it once more gives the first result back. *)
Theorem getContrastColor_of_result s :
  getContrastColor (getContrastColor s) ≠ getContrastColor s
  ∧ getContrastColor (getContrastColor (getContrastColor s))
    = getContrastColor s.
Proof.
  assert (Hb : getContrastColor black = white) by (by vm_compute).
  assert (Hw : getContrastColor white = black) by (by vm_compute).
  destruct (getContrastColor_cases s) as [-> | ->]; rewrite ?Hb, ?Hw, ?Hb;
    split; done.
Qed.

Lemma greys_checked : forallb greyChecked bytes = true.
Proof. vm_compute. reflexivity. Qed.

(** X5. Greys. A grey [#vvvvvv] (or [#vvv]) gets a white foreground up to
    level 127 and a black one from level 128 on. *)
Theorem getContrastColor_grey s v :
  rgbOfHex s = Some (v, v, v) →
  getContrastColor s = if 128 <=? v then black else white.
Proof.
  intros H. destruct (getContrastColor_rgb _ _ _ _ H) as [(Hv & _ & _) ->].
  pose proof (proj1 (forallb_forall greyChecked bytes) greys_checked v
                (proj1 (list_elem_of_In _ _) (elem_of_bytes v Hv))) as Hc.
  unfold greyChecked in Hc. apply eqb_prop in Hc. by rewrite Hc.
Qed.

Lemma getContrastColor_grey_witness :
  getContrastColor (JS.lit "#7f7f7f") = white
  ∧ getContrastColor (JS.lit "#808080") = black.
Proof.
  split.
  - by apply (getContrastColor_grey (JS.lit "#7f7f7f") 127).
  - by apply (getContrastColor_grey (JS.lit "#808080") 128).
Defined.

End ContrastColorMore.

(* ================================================================== *)
(** * The buttons of an overlay                                         *)
(* ================================================================== *)

Section Buttons.
Implicit Types (cfg : ScrollControlSettings) (view : viewObject)
  (b : Dom.Button) (d : BtnData).

Lemma insertByOrder_Permutation d ds : insertByOrder d ds ≡ₚ d :: ds.
Proof.
  induction ds as [|y ds IH]; simpl; [done|].
  destruct (order d <=? order y); [done|].
  rewrite IH. apply Permutation_swap.
Qed.

Lemma sortByOrder_Permutation ds : sortByOrder ds ≡ₚ ds.
Proof.
  induction ds as [|d ds IH]; simpl; [done|].
  unfold sortByOrder in *. simpl.
  by rewrite insertByOrder_Permutation, IH.
Qed.

(** X6. Which buttons, in which order. The overlay holds the enabled
    buttons only; with both enabled the top button comes first, unless
    [invertButtonOrder] is set, and then the bottom button comes first;
    with none enabled the overlay is empty. *)
Theorem floatingButtons_order cfg view :
  Dom.btnIcon <$> floatingButtons cfg view
  = match showScrollTopButton cfg, showScrollBottomButton cfg with
    | true, true =>
        if invertButtonOrder cfg
        then [Dom.scrollBottomIcon; Dom.scrollTopIcon]
        else [Dom.scrollTopIcon; Dom.scrollBottomIcon]
    | true, false => [Dom.scrollTopIcon]
    | false, true => [Dom.scrollBottomIcon]
    | false, false => []
    end.
Proof.
  unfold floatingButtons, buttonData, sortByOrder.
  by destruct (showScrollTopButton cfg), (showScrollBottomButton cfg),
    (invertButtonOrder cfg).
Qed.

Lemma currentColor_not_result s : getContrastColor s ≠ currentColor.
Proof. by destruct (getContrastColor_cases s) as [-> | ->]. Qed.




End Buttons.

(* ================================================================== *)
(** * Adding and removing one overlay                                   *)
(* ================================================================== *)

Section AddRemove.
Implicit Types (w : Workspace) (s : State) (l : leaf) (c e : Dom.elem)
  (el : Dom.Element).

Lemma visibility_overlayFor w cfg l vc :
  if bool_decide (activeLeaf w = Some l)
  then markedVisible (overlayFor w cfg l vc)
  else markedHidden (overlayFor w cfg l vc).
Proof.
  unfold overlayFor. destruct (bool_decide _);
    [apply markedVisible_setVisibility|apply markedHidden_setVisibility].
Qed.

Lemma childNodes_setVisibility b el :
  Dom.childNodes (setVisibility b el) = Dom.childNodes el.
Proof. by destruct b. Qed.

Lemma childNodes_overlayFor w cfg l vc :
  Dom.childNodes (overlayFor w cfg l vc) = floatingButtons cfg (leafView w l).
Proof. unfold overlayFor. by rewrite childNodes_setVisibility. Qed.

Lemma map_delete_snoc (m : list (leaf * Dom.elem)) l c :
  l ∉ JS.map_keys m → JS.map_delete l (m ++ [(l, c)]) = m.
Proof.
  unfold JS.map_keys. induction m as [|[l' c'] m IH]; simpl.
  - intros _. by rewrite decide_True.
  - rewrite not_elem_of_cons. intros [Hne Hm].
    rewrite decide_False by done. by rewrite IH.
Qed.

Lemma map_get_snoc (m : list (leaf * Dom.elem)) l c :
  l ∉ JS.map_keys m → JS.map_get l (m ++ [(l, c)]) = Some c.
Proof.
  unfold JS.map_keys. induction m as [|[l' c'] m IH]; simpl.
  - intros _. by rewrite decide_True.
  - rewrite not_elem_of_cons. intros [Hne Hm].
    rewrite decide_False by done. by apply IH.
Qed.

(** X8. A new overlay. For an untracked Markdown pane whose
    [.view-content] element is found, [addButtonsToLeaf] creates one
    element and changes no other: the new element is the value of the
    pane in the table, sits under the [.view-content] element, holds the
    buttons of the current settings, and is marked visible exactly when
    the pane is the active one of the workspace. *)
Theorem addButtonsToLeaf_new_overlay w l s vc :
  isMarkdownView w l = true → viewContent w l = Some vc → l ∉ tracked s →
  let s' := addButtonsToLeaf w l s in
  ∃ el,
    dom s' = dom s ++ [el]
    ∧ JS.map_get l (leafButtonContainers s') = Some (length (dom s))
    ∧ Dom.parentNode el = Some (Dom.InViewContent vc)
    ∧ Dom.childNodes el = floatingButtons (settings s) (leafView w l)
    ∧ (if bool_decide (activeLeaf w = Some l) then markedVisible el
       else markedHidden el)
    ∧ (∀ l', l' ≠ l →
         JS.map_get l' (leafButtonContainers s')
         = JS.map_get l' (leafButtonContainers s)).
Proof.
  intros Hmd Hvc Hl s'. subst s'.
  rewrite (addButtonsToLeaf_attach w l s vc) by done. fields.
  exists (overlayFor w (settings s) l vc). split_and!.
  - done.
  - by apply map_get_snoc.
  - apply parentNode_overlayFor.
  - apply childNodes_overlayFor.
  - apply visibility_overlayFor.
  - intros l' Hne. rewrite <- (map_set_fresh l (length (dom s))) by done.
    by apply map_get_map_set_ne.
Qed.

Lemma addButtonsToLeaf_new_overlay_witness :
  ∃ el,
    dom (addButtonsToLeaf workspaceB 5%nat loadedA) = dom loadedA ++ [el]
    ∧ markedVisible el.
Proof.
  destruct (addButtonsToLeaf_new_overlay workspaceB 5%nat loadedA 105%nat)
    as (el & Hdom & _ & _ & _ & Hvis & _).
  - reflexivity.
  - reflexivity.
  - change (tracked loadedA) with [1; 4]%nat. set_solver.
  - exists el. split; [exact Hdom|exact Hvis].
Defined.

(** X9. Adding then removing. For an untracked pane, removing right after
    adding gives the table back as it was; the elements that existed are
    unchanged, and the one that may have been created has no parent. *)
Theorem removeButtonsFromLeaf_after_add w l s :
  l ∉ tracked s →
  let s' := removeButtonsFromLeaf l (addButtonsToLeaf w l s) in
  leafButtonContainers s' = leafButtonContainers s
  ∧ settings s' = settings s ∧ styleEl s' = styleEl s
  ∧ ∃ created,
      dom s' = dom s ++ created
      ∧ (length created ≤ 1)%nat
      ∧ Forall (fun el => Dom.parentNode el = None) created.
Proof.
  intros Hl s'. subst s'.
  destruct (decide (attachable w l)) as [[Hmd [vc Hvc]]|Hno].
  - rewrite (addButtonsToLeaf_attach w l s vc) by done.
    unfold removeButtonsFromLeaf. fields.
    assert (Hhas : JS.map_has l (leafButtonContainers s ++ [(l, length (dom s))])
                   = true).
    { apply map_has_true. unfold JS.map_keys. rewrite fmap_app.
      apply elem_of_app. right. by apply list_elem_of_singleton. }
    rewrite Hhas, map_get_snoc by done. fields.
    rewrite map_delete_snoc by done. split_and!; try done.
    rewrite alter_created. eexists. split; [reflexivity|].
    split; [simpl; lia|]. by repeat constructor.
  - destruct (addButtonsToLeaf_scratch w l s) as (E1 & E2 & E3 & g & Eg & Hg).
    { tauto. }
    rewrite removeButtonsFromLeaf_untracked
      by (unfold tracked; by rewrite E2).
    split_and!; try done. exists g. split; [done|].
    split; [|by eapply Forall_impl; [exact Hg|]; intros ? [? _]].
    unfold addButtonsToLeaf, Dom.createElement in Eg.
    apply (f_equal length) in Eg. rewrite length_app in Eg.
    destruct (negb _ || _); [fields; lia|].
    destruct (viewContent w l); cbv beta iota zeta in Eg.
    + unfold updateSingleLeafVisibility, createFloatingButtons in Eg.
      revert Eg. fields. destruct (JS.map_get _ _); fields;
        rewrite ?length_alter, length_app; simpl; lia.
    + revert Eg. fields. rewrite length_alter, length_app. simpl. lia.
Qed.

Lemma removeButtonsFromLeaf_after_add_witness :
  leafButtonContainers
    (removeButtonsFromLeaf 5%nat (addButtonsToLeaf workspaceB 5%nat loadedA))
  = leafButtonContainers loadedA.
Proof.
  apply (removeButtonsFromLeaf_after_add workspaceB 5%nat loadedA).
  change (tracked loadedA) with [1; 4]%nat. set_solver.
Defined.

End AddRemove.

(* ================================================================== *)
(** * The first pass over the open panes                                *)
(* ================================================================== *)

Section Initialize.
Implicit Types (w : Workspace) (s : State) (l : leaf) (c e : Dom.elem)
  (el : Dom.Element).

(** [addButtonsToLeaf] leaves the entries and elements that exist alone. *)
Lemma addButtonsToLeaf_frame w l0 s l c :
  JS.map_get l (leafButtonContainers s) = Some c →
  (c < length (dom s))%nat →
  JS.map_get l (leafButtonContainers (addButtonsToLeaf w l0 s)) = Some c
  ∧ dom (addButtonsToLeaf w l0 s) !! c = dom s !! c.
Proof.
  intros Hget Hc. split.
  - rewrite containers_addButtonsToLeaf.
    destruct (isMarkdownView w l0); simpl; [|done].
    destruct (JS.map_has l0 _) eqn:Hhas; simpl; [done|].
    destruct (viewContent w l0); [|done].
    rewrite map_get_map_set_ne; [done|]. intros ->.
    apply map_has_false in Hhas. apply map_get_Some in Hget.
    apply Hhas. apply list_elem_of_fmap. by exists (l0, c).
  - destruct (addButtonsToLeaf_extends w l0 s) as (_ & _ & g & ->).
    by rewrite lookup_app_l.
Qed.

Lemma initialize_extends w ls s :
  let s' := fold_left (fun st l => addButtonsToLeaf w l st) ls s in
  settings s' = settings s ∧ styleEl s' = styleEl s
  ∧ ∃ g, dom s' = dom s ++ g.
Proof.
  revert s. induction ls as [|l ls IH]; intros s.
  { simpl. split_and!; try done. exists []. by rewrite app_nil_r. }
  rewrite fold_left_cons. intros s'. subst s'.
  destruct (IH (addButtonsToLeaf w l s)) as (E1 & E2 & g & E3).
  destruct (addButtonsToLeaf_extends w l s) as (F1 & F2 & g' & F3).
  rewrite E1, E2, E3, F1, F2, F3. split_and!; try done.
  exists (g' ++ g). by rewrite app_assoc.
Qed.

Lemma initialize_frame w ls s l c :
  JS.map_get l (leafButtonContainers s) = Some c →
  (c < length (dom s))%nat →
  let s' := fold_left (fun st l => addButtonsToLeaf w l st) ls s in
  JS.map_get l (leafButtonContainers s') = Some c
  ∧ dom s' !! c = dom s !! c.
Proof.
  revert s. induction ls as [|l0 ls IH]; intros s Hget Hc; [by simpl|].
  rewrite fold_left_cons. intros s'. subst s'.
  destruct (addButtonsToLeaf_frame w l0 s l c Hget Hc) as [F1 F2].
  destruct (IH (addButtonsToLeaf w l0 s) F1) as [G1 G2].
  { destruct (addButtonsToLeaf_extends w l0 s) as (_ & _ & g & ->).
    rewrite length_app. lia. }
  by rewrite G2, F2.
Qed.

(** The pass gives each listed pane that is not tracked and can be
    attached to a new overlay. *)
Lemma initialize_creates w ls s l vc :
  l ∈ ls → l ∉ tracked s →
  isMarkdownView w l = true → viewContent w l = Some vc →
  let s' := fold_left (fun st l => addButtonsToLeaf w l st) ls s in
  ∃ c,
    JS.map_get l (leafButtonContainers s') = Some c
    ∧ (length (dom s) ≤ c)%nat
    ∧ dom s' !! c = Some (overlayFor w (settings s) l vc).
Proof.
  intros Hin Hl Hmd Hvc. revert s Hl Hin.
  induction ls as [|l0 ls IH]; intros s Hl Hin.
  { by apply elem_of_nil in Hin. }
  rewrite fold_left_cons. intros s'. subst s'.
  destruct (addButtonsToLeaf_extends w l0 s) as (F1 & _ & g & F3).
  destruct (decide (l ∈ tracked (addButtonsToLeaf w l0 s))) as [Ht|Hnt].
  - apply tracked_addButtonsToLeaf in Ht as [?|[-> _]]; [done|].
    pose proof (addButtonsToLeaf_attach w l0 s vc Hmd Hl Hvc) as Eadd.
    destruct (initialize_frame w ls (addButtonsToLeaf w l0 s) l0
                (length (dom s))) as [G1 G2].
    { rewrite Eadd. fields. by apply map_get_snoc. }
    { rewrite Eadd. fields. rewrite length_app. simpl. lia. }
    exists (length (dom s)). split_and!; try done.
    rewrite G2, Eadd. fields. rewrite lookup_app_r by done.
    by rewrite Nat.sub_diag.
  - assert (Hin' : l ∈ ls).
    { apply elem_of_cons in Hin as [->|?]; [|done]. destruct Hnt.
      apply tracked_addButtonsToLeaf. right. split; [done|].
      split; [done|by eexists]. }
    destruct (IH _ Hnt Hin') as (c & E1 & E2 & E3).
    exists c. rewrite F1 in E3. split_and!; try done.
    rewrite F3, length_app in E2. lia.
Qed.

(** X10. The first pass. [initializeAllButtons] keeps every entry and every
    element there is, and gives each open Markdown pane that is not yet
    tracked and whose [.view-content] element is found a new overlay: under
    that element, with the buttons of the current settings, marked visible
    exactly when the pane is the active one. The panes tracked afterwards
    are those tracked before and these. *)
Theorem initializeAllButtons_overlays w s :
  let s' := initializeAllButtons w s in
  (∀ l, l ∈ tracked s'
        ↔ l ∈ tracked s ∨ (l ∈ markdownLeaves w ∧ attachable w l))
  ∧ (∃ created, dom s' = dom s ++ created)
  ∧ (∀ l c, JS.map_get l (leafButtonContainers s) = Some c →
            (c < length (dom s))%nat →
            JS.map_get l (leafButtonContainers s') = Some c)
  ∧ (∀ l vc, l ∈ markdownLeaves w → l ∉ tracked s →
       isMarkdownView w l = true → viewContent w l = Some vc →
       ∃ c el,
         JS.map_get l (leafButtonContainers s') = Some c
         ∧ (length (dom s) ≤ c)%nat
         ∧ dom s' !! c = Some el
         ∧ Dom.parentNode el = Some (Dom.InViewContent vc)
         ∧ Dom.childNodes el = floatingButtons (settings s) (leafView w l)
         ∧ if bool_decide (activeLeaf w = Some l) then markedVisible el
           else markedHidden el).
Proof.
  intros s'. subst s'. unfold initializeAllButtons, forAllMarkdownLeaves.
  split_and!.
  - intros l. apply tracked_initializeAllButtons.
  - by destruct (initialize_extends w (markdownLeaves w) s) as (_ & _ & ?).
  - intros l c Hget Hc.
    by destruct (initialize_frame w (markdownLeaves w) s l c Hget Hc).
  - intros l vc Hin Hl Hmd Hvc.
    destruct (initialize_creates w (markdownLeaves w) s l vc)
      as (c & E1 & E2 & E3); try done.
    exists c, (overlayFor w (settings s) l vc). split_and!; try done.
    + apply parentNode_overlayFor.
    + apply childNodes_overlayFor.
    + apply visibility_overlayFor.
Qed.

Lemma initializeAllButtons_overlays_witness :
  ∃ c el,
    JS.map_get 1%nat
      (leafButtonContainers (initializeAllButtons workspaceA (addStyle constructor)))
    = Some c
    ∧ dom (initializeAllButtons workspaceA (addStyle constructor)) !! c = Some el
    ∧ markedVisible el.
Proof.
  destruct (proj2 (proj2 (proj2
              (initializeAllButtons_overlays workspaceA (addStyle constructor))))
              1%nat 101%nat)
    as (c & el & E1 & _ & E3 & _ & _ & E6).
  - set_solver.
  - change (tracked (addStyle constructor)) with (@nil leaf). set_solver.
  - reflexivity.
  - reflexivity.
  - exists c, el. split; [exact E1|]. split; [exact E3|exact E6].
Defined.

End Initialize.

(* ================================================================== *)
(** * The shape of the elements                                         *)
(* ================================================================== *)

Section Shapes.
Implicit Types (w : Workspace) (s : State) (l : leaf) (c e : Dom.elem)
  (el : Dom.Element) (f : Dom.Element → Dom.Element)
  (views : leaf → viewObject → Prop).

Lemma hasClass_toggleClass_ne (c c' : string) v el :
  c ≠ c' → Dom.hasClass c (Dom.toggleClass c' v el) ↔ Dom.hasClass c el.
Proof.
  intros Hne. unfold Dom.hasClass, Dom.toggleClass. destruct v; simpl.
  - case_decide; [done|]. rewrite elem_of_app, list_elem_of_singleton.
    naive_solver.
  - rewrite list_elem_of_filter. naive_solver.
Qed.

Lemma overlayShape_setVisibility views b l el :
  overlayShape views l el → overlayShape views l (setVisibility b el).
Proof.
  intros (T & C & K). unfold overlayShape, setVisibility.
  rewrite !hasClass_toggleClass_ne by done.
  split_and!; [by destruct b|done|by destruct b].
Qed.

Lemma styleShape_setVisibility b el :
  styleShape el → styleShape (setVisibility b el).
Proof. intros (T & I & P & K). by destruct b. Qed.

Lemma overlayShape_overlayFor views w cfg l vc :
  views l (leafView w l) → overlayShape views l (overlayFor w cfg l vc).
Proof.
  intros Hv. apply overlayShape_setVisibility.
  split_and!; [done| |by exists cfg, (leafView w l)].
  unfold Dom.hasClass. simpl. set_solver.
Qed.

Lemma shaped_alter views f c s :
  (∀ l el, overlayShape views l el → overlayShape views l (f el)) →
  (styleEl s = Some c → ∀ el, styleShape el → styleShape (f el)) →
  shaped views s → shaped views (with_dom (alter f c) s).
Proof.
  intros Ho Hs [O S]. split; fields.
  - intros l c' Hin. destruct (O l c' Hin) as (el & Hel & Hsh).
    rewrite list_lookup_alter. case_decide as E.
    + subst c'. rewrite Hel. simpl. eauto.
    + eauto.
  - intros e He. destruct (S e He) as (el & Hel & Hsh).
    rewrite list_lookup_alter. case_decide as E.
    + subst e. rewrite Hel. simpl. eauto.
    + eauto.
Qed.

Lemma shaped_extend views g s :
  shaped views s → shaped views (with_dom (fun h => h ++ g) s).
Proof.
  intros [O S]. split; fields.
  - intros l c Hin. destruct (O l c Hin) as (el & Hel & Hsh). exists el.
    split; [|done]. rewrite lookup_app_l; [done|by eapply lookup_lt_Some].
  - intros e He. destruct (S e He) as (el & Hel & Hsh). exists el.
    split; [|done]. rewrite lookup_app_l; [done|by eapply lookup_lt_Some].
Qed.

Lemma shaped_addButtonsToLeaf views w l s :
  (∀ l, views l (leafView w l)) →
  shaped views s → shaped views (addButtonsToLeaf w l s).
Proof.
  intros Hv H.
  destruct (decide (attachable w l ∧ l ∉ tracked s)) as [[[Hmd [vc Hvc]] Hl]|Hno].
  - rewrite (addButtonsToLeaf_attach w l s vc) by done.
    destruct (shaped_extend views [overlayFor w (settings s) l vc] s H)
      as [O S].
    split; fields.
    + intros l' c'. rewrite elem_of_app, list_elem_of_singleton.
      intros [Hin|[= -> ->]]; [by apply O|].
      eexists. split; [|by apply overlayShape_overlayFor].
      rewrite lookup_app_r by done. by rewrite Nat.sub_diag.
    + exact S.
  - destruct (addButtonsToLeaf_scratch w l s Hno) as (_ & E & E' & g & Eg & _).
    destruct (shaped_extend views g s H) as [O S].
    split; rewrite ?E, ?E', Eg; [exact O|exact S].
Qed.

Lemma shaped_removeButtonsFromLeaf views l s :
  wf s → shaped views s → shaped views (removeButtonsFromLeaf l s).
Proof.
  intros (_ & _ & _ & _ & Sd) H. unfold removeButtonsFromLeaf.
  destruct (JS.map_has l _); [|done].
  assert (H' : shaped views
    match JS.map_get l (leafButtonContainers s) with
    | Some container => with_dom (alter Dom.remove container) s
    | None => s
    end).
  { destruct (JS.map_get l _) as [c|] eqn:Hget; [|done].
    apply shaped_alter; [by intros ? ? (? & ? & ?)| |done].
    intros He. destruct (Sd c He) as [Hn _]. destruct Hn.
    apply map_get_Some in Hget. apply list_elem_of_fmap. by exists (l, c). }
  destruct H' as [O S]. split.
  - intros l' c'. fields. intros [_ Hin]%elem_of_map_delete. revert Hin.
    destruct (JS.map_get l _); apply O.
  - revert S. by destruct (JS.map_get l _).
Qed.

Lemma shaped_updateStyle views s : shaped views s → shaped views (updateStyle s).
Proof.
  intros H. unfold updateStyle. destruct (styleEl s) as [e|] eqn:E; [|done].
  apply shaped_alter; [by intros ? ? (? & ? & ?)| |done].
  intros _ el (T & I & P & _). split_and!; try done. by eexists.
Qed.

Lemma shaped_addStyle views s :
  wf s → shaped views s → shaped views (addStyle s).
Proof.
  intros (_ & _ & _ & _ & Sd) [O S].
  unfold addStyle, Dom.createElement. cbv beta iota zeta.
  rewrite !alter_created. unfold updateStyle. fields.
  unfold with_dom. fields. rewrite alter_created. split; fields.
  - rewrite containers_removeStyleEl. intros l c Hin.
    destruct (O l c Hin) as (el & Hel & Hsh). exists el. split; [|done].
    assert (Hc : dom (removeStyleEl s) !! c = Some el).
    { unfold removeStyleEl. destruct (styleEl s) as [e0|] eqn:E0; [|done].
      fields. rewrite list_lookup_alter_ne; [done|]. intros ->.
      destruct (Sd _ eq_refl) as [Hn _]. apply Hn.
      apply list_elem_of_fmap. by exists (l, c). }
    rewrite lookup_app_l; [done|by eapply lookup_lt_Some].
  - intros e [= <-]. eexists. split.
    { rewrite lookup_app_r by done. by rewrite Nat.sub_diag. }
    split_and!; try done. by eexists.
Qed.

Lemma reachable_reachableIn s : reachable s → reachableIn (fun _ => True) s.
Proof. induction 1; by constructor. Qed.

(** Every state reached through workspaces that satisfy [ok] satisfies
    both invariants, for the view objects these workspaces give. *)
Lemma reachableIn_shaped (ok : Workspace → Prop) views s :
  (∀ w l, ok w → views l (leafView w l)) →
  reachableIn ok s → wf s ∧ shaped views s.
Proof.
  intros Hok.
  induction 1 as [|s cfg _ [Hw Ha]|s _ [Hw Ha]|w s Hk _ [Hw Ha]
                  |w s Hk _ [Hw Ha]|w a s Hk _ [Hw Ha]|w s Hk _ [Hw Ha]
                  |s _ [Hw Ha]].
  - split; [apply wf_constructor|]. split.
    + intros l c Hin. by apply elem_of_nil in Hin.
    + intros e [=].
  - done.
  - split; [by apply wf_addStyle|by apply shaped_addStyle].
  - apply (fold_left_preserves (fun st => wf st ∧ shaped views st)); [|done].
    intros st x [? ?]. split; [by apply wf_addButtonsToLeaf|].
    apply shaped_addButtonsToLeaf; [|done]. intros l. by apply Hok.
  - unfold handleLayoutChange.
    apply (fold_left_preserves (fun st => wf st ∧ shaped views st)).
    { intros st x [? ?]. destruct (negb _); [|done].
      split; [by apply wf_removeButtonsFromLeaf
             |by apply shaped_removeButtonsFromLeaf]. }
    apply (fold_left_preserves (fun st => wf st ∧ shaped views st)); [|done].
    intros st x [? ?]. destruct (negb _); [|done].
    split; [by apply wf_addButtonsToLeaf|].
    apply shaped_addButtonsToLeaf; [|done]. intros l. by apply Hok.
  - split; [by apply wf_handleActiveLeafChange|].
    unfold handleActiveLeafChange.
    apply (fold_left_preserves (shaped views)); [|done].
    intros st [l c] Hst. destruct (isMarkdownView w l); [|done].
    apply shaped_alter; [| |done].
    + intros ? ?. apply overlayShape_setVisibility.
    + intros _ ?. apply styleShape_setVisibility.
  - assert (Hu : wf (updateAllButtons w s)
                 ∧ shaped views (updateAllButtons w s)).
    { apply (fold_left_preserves (fun st => wf st ∧ shaped views st));
        [|done].
      intros st x [? ?].
      split; [by apply wf_addButtonsToLeaf, wf_removeButtonsFromLeaf|].
      apply shaped_addButtonsToLeaf; [intros l; by apply Hok|].
      by apply shaped_removeButtonsFromLeaf. }
    split; [by apply wf_updateStyle, Hu|by apply shaped_updateStyle, Hu].
  - split; [by apply wf_onunload|]. split.
    + intros l c. rewrite containers_onunload. intros Hin.
      by apply elem_of_nil in Hin.
    + intros e [=].
Qed.

(** Every state of the plugin satisfies both invariants. *)
Lemma reachable_shaped s :
  reachable s → wf s ∧ shaped (fun _ _ => True) s.
Proof.
  intros H%reachable_reachableIn.
  by apply (reachableIn_shaped (fun _ => True)).
Qed.

Lemma floatingButtons_callback cfg (view : viewObject) (b : Dom.Button) :
  b ∈ floatingButtons cfg view →
  Dom.btnOnClick b = (top, view) ∨ Dom.btnOnClick b = (bottom, view).
Proof.
  unfold floatingButtons. intros (d & -> & Hd)%list_elem_of_fmap.
  rewrite sortByOrder_Permutation in Hd. simpl.
  unfold buttonData in Hd. apply elem_of_app in Hd as [Hd|Hd].
  - destruct (showScrollTopButton cfg); [|by apply elem_of_nil in Hd].
    apply list_elem_of_singleton in Hd as ->. by left.
  - destruct (showScrollBottomButton cfg); [|by apply elem_of_nil in Hd].
    apply list_elem_of_singleton in Hd as ->. by right.
Qed.

Lemma floatingButtons_length cfg (view : viewObject) :
  (length (floatingButtons cfg view) ≤ 2)%nat.
Proof.
  unfold floatingButtons. rewrite length_fmap, sortByOrder_Permutation.
  unfold buttonData. rewrite length_app.
  destruct (showScrollTopButton cfg), (showScrollBottomButton cfg); simpl; lia.
Qed.

(** A listener keeps the view object it was made for. Panes 1 and 4 are
    tracked with overlays made in [workspaceA], where pane 1 has the view
    object 201; pane 1 then gets the view object 301. The reconciliation
    finds pane 1 tracked and leaves its overlay alone: its listeners
    still scroll the view object 201. *)
Lemma listener_keeps_view_object :
  reachable (handleLayoutChange workspaceD loadedA)
  ∧ leafView workspaceD 1%nat = 301%nat
  ∧ (1%nat, 1%nat) ∈ leafButtonContainers (handleLayoutChange workspaceD loadedA)
  ∧ ∃ el, dom (handleLayoutChange workspaceD loadedA) !! 1%nat = Some el
          ∧ Dom.btnOnClick <$> Dom.childNodes el
            = [(top, 201%nat); (bottom, 201%nat)].
Proof.
  split; [apply reach_handleLayoutChange, reachable_loadedA|].
  split; [reflexivity|]. split; [vm_compute; left|].
  eexists. split; [by vm_compute|]. reflexivity.
Qed.

(** X11. The overlays of the table. In every state of the plugin, the
    element stored for a pane exists and is a [div] with the container
    class; it holds at most two buttons, and their click listeners all
    scroll one and the same view object, to the top or to the bottom.
    In the states reached while every pane keeps its view object, this
    is the view object of that very pane. (When a tracked pane gets
    another view object, the listeners keep the one they were made for:
    [listener_keeps_view_object].) *)
Theorem tracked_overlay_scrolls_own_pane s l c :
  reachable s → (l, c) ∈ leafButtonContainers s →
  ∃ el, dom s !! c = Some el
    ∧ Dom.tagName el = Dom.DIV
    ∧ Dom.hasClass "scroll-control-button-container" el
    ∧ (length (Dom.childNodes el) ≤ 2)%nat
    ∧ (∃ view, ∀ b, b ∈ Dom.childNodes el →
         Dom.btnOnClick b = (top, view) ∨ Dom.btnOnClick b = (bottom, view))
    ∧ (∀ paneView, reachableIn (keepsViews paneView) s →
         ∀ b, b ∈ Dom.childNodes el →
           Dom.btnOnClick b = (top, paneView l)
           ∨ Dom.btnOnClick b = (bottom, paneView l)).
Proof.
  intros [_ [O _]]%reachable_shaped Hin.
  destruct (O l c Hin) as (el & Hel & T & C & cfg & view & _ & K). exists el.
  split_and!; try done.
  - rewrite K. apply floatingButtons_length.
  - exists view. intros b. rewrite K. apply floatingButtons_callback.
  - intros paneView Hr.
    destruct (reachableIn_shaped (keepsViews paneView)
                (fun l view => view = paneView l) s) as [_ [O' _]];
      [by intros w l' Hk|done|].
    destruct (O' l c Hin) as (el' & Hel' & _ & _ & cfg' & view' & -> & K').
    assert (el' = el) as -> by congruence.
    intros b. rewrite K'. apply floatingButtons_callback.
Qed.

Lemma tracked_overlay_scrolls_own_pane_witness :
  ∃ el, dom loadedA !! 2%nat = Some el
    ∧ ∀ b, b ∈ Dom.childNodes el →
           Dom.btnOnClick b = (top, 204%nat)
           ∨ Dom.btnOnClick b = (bottom, 204%nat).
Proof.
  destruct (tracked_overlay_scrolls_own_pane loadedA 4%nat 2%nat)
    as (el & Hel & _ & _ & _ & _ & Hb).
  - exact reachable_loadedA.
  - change (leafButtonContainers loadedA) with [(1, 1); (4, 2)]%nat.
    set_solver.
  - exists el. split; [exact Hel|].
    apply (Hb (fun l => (200 + l)%nat)).
    apply reachIn_initializeAllButtons; [by intros l|].
    apply reachIn_addStyle, reachIn_constructor.
Defined.

(** X12. One style element. In every state of the plugin, an element with
    tag [style] that has a parent is the one the plugin holds in
    [styleEl]; it carries the plugin's id and sits in the document head.
    So [addStyle], however often it runs, leaves one style element in
    the document. *)
Theorem attached_style_is_styleEl s e el :
  reachable s → dom s !! e = Some el → Dom.tagName el = Dom.STYLE →
  Dom.attached el →
  styleEl s = Some e
  ∧ Dom.idAttr el = Some "scroll-control-styles"
  ∧ Dom.parentNode el = Some Dom.InHead.
Proof.
  intros [(_ & _ & _ & Od & _) [O S]]%reachable_shaped Hel Htag Ha.
  destruct (Od e el Hel Ha) as [Hin|He].
  - apply list_elem_of_fmap in Hin as ([l c] & -> & Hin).
    destruct (O l c Hin) as (el' & Hel' & T & _). simpl in Hel.
    congruence.
  - destruct (S e He) as (el' & Hel' & T & I & P & _).
    assert (el' = el) as -> by congruence. done.
Qed.

Lemma attached_style_is_styleEl_witness :
  styleEl (addStyle (addStyle loadedA)) = Some 4%nat
  ∧ ∀ e el, dom (addStyle (addStyle loadedA)) !! e = Some el →
      Dom.tagName el = Dom.STYLE → Dom.attached el → e = 4%nat.
Proof.
  assert (Hr : reachable (addStyle (addStyle loadedA))).
  { apply reach_addStyle, reach_addStyle, reachable_loadedA. }
  split; [reflexivity|]. intros e el Hel Htag Ha.
  destruct (attached_style_is_styleEl _ e el Hr Hel Htag Ha) as [He _].
  change (styleEl (addStyle (addStyle loadedA))) with (Some 4%nat) in He.
  congruence.
Defined.

End Shapes.

(* ================================================================== *)
(** * Saving the settings                                               *)
(* ================================================================== *)

Section Settings.
Implicit Types (w : Workspace) (s : State) (l : leaf) (c e : Dom.elem)
  (el : Dom.Element).

Lemma updateAllButtons_extends w s :
  settings (updateAllButtons w s) = settings s
  ∧ styleEl (updateAllButtons w s) = styleEl s
  ∧ (length (dom s) ≤ length (dom (updateAllButtons w s)))%nat.
Proof. apply (rebuild_extends w (markdownLeaves w) s). Qed.

Lemma saveSettings_cases w s :
  saveSettings w s
  = match styleEl s with
    | Some e =>
        with_dom (alter (Dom.setTextContent (css (settings s))) e)
          (updateAllButtons w s)
    | None => updateAllButtons w s
    end.
Proof.
  destruct (updateAllButtons_extends w s) as (E1 & E2 & _).
  unfold saveSettings, updateStyle. by rewrite E1, E2.
Qed.

Lemma saveSettings_text w s e :
  wf s → styleEl s = Some e →
  ∃ el, dom (saveSettings w s) !! e = Some el
        ∧ Dom.textContent el = Some (css (settings s)).
Proof.
  intros (_ & _ & _ & _ & Sd) He. destruct (Sd e He) as [_ Hlt].
  destruct (updateAllButtons_extends w s) as (_ & _ & U3).
  rewrite saveSettings_cases, He. fields. rewrite list_lookup_alter_eq.
  destruct (lookup_lt_is_Some_2 (dom (updateAllButtons w s)) e) as [el ->];
    [lia|].
  by eexists.
Qed.

Lemma saveSettings_overlay w s l :
  wf s → l ∈ markdownLeaves w → attachable w l →
  ∃ c vc,
    viewContent w l = Some vc
    ∧ JS.map_get l (leafButtonContainers (saveSettings w s)) = Some c
    ∧ dom (saveSettings w s) !! c = Some (overlayFor w (settings s) l vc).
Proof.
  intros Hwf Ho Ha. pose proof Hwf as (_ & _ & _ & _ & Sd).
  destruct (rebuild_recreates w (markdownLeaves w) s l Hwf Ho Ha)
    as (c & vc & Hvc & R1 & R2 & R3).
  fold (forAllMarkdownLeaves w
          (fun l st => addButtonsToLeaf w l (removeButtonsFromLeaf l st)) s)
    in R1, R3.
  fold (updateAllButtons w s) in R1, R3.
  exists c, vc. rewrite saveSettings_cases.
  destruct (styleEl s) as [e0|] eqn:E0; [|done]. fields.
  split_and!; try done.
  rewrite list_lookup_alter_ne; [done|].
  destruct (Sd e0 eq_refl) as [_ ?]. lia.
Qed.

(** X13. The style sheet follows the settings. [saveSettings] keeps the
    settings and the style element the plugin holds; when it holds one,
    the text of that element afterwards is the style sheet of the current
    settings, and the element is still a [style] element in the document
    head; every other element, and the table, are as [updateAllButtons]
    leaves them. Without a style element [saveSettings] creates none. *)
Theorem saveSettings_style w s :
  reachable s →
  let s' := saveSettings w s in
  settings s' = settings s
  ∧ styleEl s' = styleEl s
  ∧ leafButtonContainers s' = leafButtonContainers (updateAllButtons w s)
  ∧ (∀ e, styleEl s = Some e →
       ∃ el, dom s' !! e = Some el
             ∧ Dom.textContent el = Some (css (settings s))
             ∧ Dom.tagName el = Dom.STYLE
             ∧ Dom.parentNode el = Some Dom.InHead)
  ∧ (∀ e, styleEl s ≠ Some e → dom s' !! e = dom (updateAllButtons w s) !! e).
Proof.
  intros Hr s'.
  destruct (reachable_shaped _ (reach_saveSettings w s Hr)) as [_ [_ S']].
  fold s' in S'. revert S'. subst s'.
  rewrite saveSettings_cases.
  destruct (updateAllButtons_extends w s) as (E1 & E2 & _).
  destruct (styleEl s) as [e0|] eqn:E0; fields; intros S'.
  - split_and!; try done.
    + intros e [= <-]. destruct (S' e0 E2) as (el & Hel & T & _ & P & _).
      exists el. split_and!; try done.
      rewrite list_lookup_alter_eq in Hel.
      destruct (dom (updateAllButtons w s) !! e0); [|done].
      by injection Hel as <-.
    + intros e He. rewrite list_lookup_alter_ne; [done|congruence].
  - split_and!; try done.
Qed.

Lemma saveSettings_style_witness :
  ∃ el,
    dom (saveSettings workspaceB (with_settings compactSettings loadedA)) !! 0%nat
    = Some el
    ∧ Dom.textContent el = Some (8, 16, 4, 150).
Proof.
  destruct (proj1 (proj2 (proj2 (proj2
     (saveSettings_style workspaceB (with_settings compactSettings loadedA)
        (reach_settings _ _ reachable_loadedA))))) 0%nat eq_refl)
    as (el & Hel & Ht & _).
  exists el. split; [exact Hel|exact Ht].
Defined.

End Settings.

(* ================================================================== *)
(** * More on the focus handler                                         *)
(* ================================================================== *)

Section FocusMore.
Implicit Types (w : Workspace) (s : State) (l : leaf) (c e : Dom.elem)
  (el : Dom.Element) (a : option leaf).

Lemma State_eq s1 s2 :
  settings s1 = settings s2 →
  leafButtonContainers s1 = leafButtonContainers s2 →
  styleEl s1 = styleEl s2 → dom s1 = dom s2 → s1 = s2.
Proof. destruct s1, s2; simpl. congruence. Qed.

Lemma filter_ne_idem (c : string) (cl : list string) :
  filter (fun x => x ≠ c) (filter (fun x => x ≠ c) cl)
  = filter (fun x => x ≠ c) cl.
Proof.
  induction cl as [|x cl IH]; [done|].
  rewrite (filter_cons _ x cl). case_decide as E; [|done].
  rewrite filter_cons, decide_True by done. by rewrite IH.
Qed.

Lemma addClass_elem (c : string) el :
  c ∈ Dom.classList el → Dom.addClass c el = el.
Proof.
  destruct el as [t i cl p k x]. unfold Dom.addClass.
  cbn [Dom.tagName Dom.idAttr Dom.classList Dom.parentNode Dom.childNodes
       Dom.textContent].
  intros H. by rewrite decide_True.
Qed.

Lemma classList_addClass (c : string) el :
  c ∈ Dom.classList (Dom.addClass c el).
Proof.
  unfold Dom.addClass. cbn [Dom.classList]. case_decide; [done|].
  apply elem_of_app. right. by apply list_elem_of_singleton.
Qed.

Lemma removeClass_idem (c : string) el :
  Dom.removeClass c (Dom.removeClass c el) = Dom.removeClass c el.
Proof.
  unfold Dom.removeClass.
  cbn [Dom.tagName Dom.idAttr Dom.classList Dom.parentNode Dom.childNodes
       Dom.textContent].
  by rewrite filter_ne_idem.
Qed.

Lemma removeClass_addClass (c c' : string) el :
  c ≠ c' →
  Dom.removeClass c (Dom.addClass c' el) = Dom.addClass c' (Dom.removeClass c el).
Proof.
  intros Hne. unfold Dom.removeClass, Dom.addClass.
  cbn [Dom.tagName Dom.idAttr Dom.classList Dom.parentNode Dom.childNodes
       Dom.textContent].
  f_equal.
  destruct (decide (c' ∈ Dom.classList el)) as [Hin|Hn].
  - rewrite decide_True; [done|]. apply list_elem_of_filter. by split.
  - rewrite decide_False.
    + rewrite filter_app, (filter_cons _ c'), decide_True by done.
      by rewrite filter_nil.
    + intros [_ ?]%list_elem_of_filter. done.
Qed.

Lemma visible_ne_hidden :
  "scroll-control-hidden" ≠ "scroll-control-visible".
Proof. discriminate. Qed.

Lemma setVisibility_idem b el :
  setVisibility b (setVisibility b el) = setVisibility b el.
Proof.
  unfold setVisibility. destruct b; unfold Dom.toggleClass, negb.
  - rewrite <- (removeClass_addClass _ _ (Dom.addClass _ el))
      by exact visible_ne_hidden.
    rewrite (addClass_elem _ (Dom.addClass _ el)) by apply classList_addClass.
    apply removeClass_idem.
  - rewrite (removeClass_addClass "scroll-control-visible"
               "scroll-control-hidden")
      by (intros E; symmetry in E; exact (visible_ne_hidden E)).
    rewrite removeClass_idem.
    apply addClass_elem, classList_addClass.
Qed.

Lemma focusOn_idem w a l el :
  focusOn w a l (focusOn w a l el) = focusOn w a l el.
Proof.
  unfold focusOn. destruct (isMarkdownView w l); [|done].
  apply setVisibility_idem.
Qed.

Lemma focus_keeps w a (entries : list (leaf * Dom.elem)) s :
  let s' :=
    fold_left
      (fun st '(l, container) =>
         if isMarkdownView w l then
           let shouldBeVisible := bool_decide (Some l = a) in
           with_dom (alter (setVisibility shouldBeVisible) container) st
         else st)
      entries s in
  settings s' = settings s ∧ styleEl s' = styleEl s
  ∧ length (dom s') = length (dom s).
Proof.
  apply (fold_left_preserves
           (fun st => settings st = settings s ∧ styleEl st = styleEl s
                      ∧ length (dom st) = length (dom s))); [|done].
  intros st [l c] (E1 & E2 & E3). destruct (isMarkdownView w l); [|done].
  fields. by rewrite length_alter.
Qed.

Lemma handleActiveLeafChange_facts w a s :
  let s' := handleActiveLeafChange w a s in
  settings s' = settings s
  ∧ leafButtonContainers s' = leafButtonContainers s
  ∧ styleEl s' = styleEl s
  ∧ length (dom s') = length (dom s)
  ∧ (∀ e, e ∉ containers s → dom s' !! e = dom s !! e)
  ∧ (NoDup (containers s) →
     ∀ l c, (l, c) ∈ leafButtonContainers s →
            dom s' !! c = focusOn w a l <$> dom s !! c).
Proof.
  destruct (focus_loop w a (leafButtonContainers s) s) as (E1 & _ & E3 & E4).
  destruct (focus_keeps w a (leafButtonContainers s) s) as (G1 & G2 & G3).
  by split_and!.
Qed.

(** X14. The focus handler is idempotent. In every state of the plugin,
    running [handleActiveLeafChange] a second time for the same pane in
    the same workspace changes nothing. *)
Theorem handleActiveLeafChange_idempotent w a s :
  reachable s →
  handleActiveLeafChange w a (handleActiveLeafChange w a s)
  = handleActiveLeafChange w a s.
Proof.
  intros (_ & C & B & _ & _)%reachable_wf.
  set (s1 := handleActiveLeafChange w a s).
  destruct (handleActiveLeafChange_facts w a s) as (_ & E1 & _ & _ & E3 & E4).
  destruct (handleActiveLeafChange_facts w a s1) as (G1 & F1 & G2 & _ & F3 & F4).
  fold s1 in E1, E3, E4. unfold containers in *. rewrite E1 in F3, F4.
  apply State_eq; try done.
  apply list_eq. intros i.
  destruct (decide (i ∈ (leafButtonContainers s).*2)) as [Hin|Hn].
  - apply list_elem_of_fmap in Hin as ([l c] & -> & Hin). simpl.
    rewrite (F4 C l c Hin), (E4 C l c Hin).
    destruct (dom s !! c); [|done]. simpl. by rewrite focusOn_idem.
  - by apply F3.
Qed.

Lemma handleActiveLeafChange_idempotent_witness :
  handleActiveLeafChange workspaceC (Some 4%nat)
    (handleActiveLeafChange workspaceC (Some 4%nat) loadedA)
  = handleActiveLeafChange workspaceC (Some 4%nat) loadedA.
Proof.
  exact (handleActiveLeafChange_idempotent workspaceC (Some 4%nat) loadedA
           reachable_loadedA).
Defined.

Lemma sameButVisibility_refl el : sameButVisibility el el.
Proof. by repeat split. Qed.

Lemma sameButVisibility_setVisibility b el el' :
  sameButVisibility el el' → sameButVisibility el (setVisibility b el').
Proof.
  intros (T & I & P & K & X & Cl). unfold sameButVisibility.
  split_and!; [by destruct b..|].
  intros cls Hv Hh. rewrite <- (Cl cls Hv Hh). unfold setVisibility.
  by rewrite !hasClass_toggleClass_ne.
Qed.

(** X15. The focus handler touches the two visibility classes only. After
    [handleActiveLeafChange], settings, table and style element are what
    they were and no element was created; every element has its tag, id,
    parent, children and text as before, and has any class other than
    the two visibility classes exactly when it had it before; an element
    that is not in the table is unchanged. *)
Theorem handleActiveLeafChange_only_visibility w a s :
  let s' := handleActiveLeafChange w a s in
  settings s' = settings s
  ∧ leafButtonContainers s' = leafButtonContainers s
  ∧ styleEl s' = styleEl s
  ∧ length (dom s') = length (dom s)
  ∧ (∀ e el, dom s !! e = Some el →
       ∃ el', dom s' !! e = Some el' ∧ sameButVisibility el el')
  ∧ (∀ e, e ∉ containers s → dom s' !! e = dom s !! e).
Proof.
  intros s'.
  destruct (handleActiveLeafChange_facts w a s) as (G1 & E1 & G2 & G3 & E3 & _).
  split_and!; try done.
  intros e el Hel. subst s'. unfold handleActiveLeafChange.
  apply (fold_left_preserves
           (fun st => ∃ el', dom st !! e = Some el' ∧ sameButVisibility el el')).
  - intros st [l c] (el' & Hel' & Hs). destruct (isMarkdownView w l); [|eauto].
    fields. rewrite list_lookup_alter. case_decide as E; [|eauto].
    subst c. rewrite Hel'. simpl. eexists. split; [done|].
    by apply sameButVisibility_setVisibility.
  - exists el. split; [done|apply sameButVisibility_refl].
Qed.

End FocusMore.

(* ================================================================== *)
(** * Commands, loading and the settings tab                            *)
(* ================================================================== *)

Section Commands.
Implicit Types (w : Workspace) (s : State) (l : leaf) (c e : Dom.elem)
  (cfg : ScrollControlSettings) (reading : viewObject → MarkdownView).

(** X16. What a command asks for. A command sends no scroll request
    exactly when no pane is active, or the view of the active pane is not
    a [MarkdownView], or that view is in preview mode and its
    [.markdown-preview-view] element is not found. When the active pane
    has a [MarkdownView]: in source mode [scroll-to-top] asks the editor
    for line 0 and [scroll-to-bottom] for the last line, both centred;
    in preview mode, with the element found, [scroll-to-top] asks for
    offset 0 and [scroll-to-bottom] for the scroll height, smoothly
    exactly when animations are on. *)
Theorem commandCallback_request cfg w reading :
  (∀ cmd,
     commandCallback cfg w reading cmd = NoRequest
     ↔ activeLeaf w = None
       ∨ (∃ l, activeLeaf w = Some l
               ∧ (isMarkdownView w l = false
                  ∨ (getMode (reading (leafView w l)) = preview
                     ∧ previewEl (reading (leafView w l)) = None))))
  ∧ (∀ l, activeLeaf w = Some l → isMarkdownView w l = true →
       let view := reading (leafView w l) in
       match getMode view with
       | source =>
           commandCallback cfg w reading scroll_to_top
           = EditorScrollIntoView 0 0 0 0 true
           ∧ commandCallback cfg w reading scroll_to_bottom
             = EditorScrollIntoView (lineCount view - 1) 0
                 (lineCount view - 1) 0 true
       | preview =>
           ∀ scrollHeight, previewEl view = Some scrollHeight →
             commandCallback cfg w reading scroll_to_top
             = PreviewScrollTo 0 (if useAnimations cfg then smooth else auto)
             ∧ commandCallback cfg w reading scroll_to_bottom
               = PreviewScrollTo scrollHeight
                   (if useAnimations cfg then smooth else auto)
       end).
Proof.
  split.
  - intros cmd. unfold commandCallback, getActiveMarkdownView, scrollToPosition.
    destruct (activeLeaf w) as [l|]; [|destruct cmd; naive_solver].
    destruct (isMarkdownView w l) eqn:Hmd; [|destruct cmd; naive_solver].
    cbn [fmap option_fmap option_map].
    destruct cmd, (getMode (reading (leafView w l))) eqn:Hm,
      (previewEl (reading (leafView w l))) eqn:Hp;
      (split; [try done; naive_solver|]);
      intros [[=]|(l' & [= <-] & [?|[? ?]])]; congruence.
  - intros l Ha Hmd view. subst view.
    unfold commandCallback, getActiveMarkdownView, scrollToPosition.
    rewrite Ha, Hmd. cbn [fmap option_fmap option_map].
    destruct (getMode (reading (leafView w l))); [done|].
    by intros scrollHeight ->.
Qed.

End Commands.

Section Loading.
Implicit Types (w : Workspace) (s : State) (l : leaf) (c e : Dom.elem)
  (cfg : ScrollControlSettings) (data : option StoredData).

Lemma loadSettings_saveData cfg : loadSettings (Some (saveData cfg)) = cfg.
Proof. by destruct cfg. Qed.

Lemma reachable_onload data w : reachable (onload data w).
Proof.
  unfold onload. apply reach_initializeAllButtons, reach_addStyle,
    reach_settings, reach_constructor.
Qed.

Lemma tracked_onload data w l :
  l ∈ tracked (onload data w) ↔ l ∈ markdownLeaves w ∧ attachable w l.
Proof.
  unfold onload. rewrite tracked_initializeAllButtons.
  change (tracked (addStyle _)) with (@nil leaf). set_solver.
Qed.

Lemma onload_style data w :
  styleEl (onload data w) = Some 0%nat
  ∧ dom (onload data w) !! 0%nat
    = Some {| Dom.tagName := Dom.STYLE;
              Dom.idAttr := Some "scroll-control-styles";
              Dom.classList := [];
              Dom.parentNode := Some Dom.InHead;
              Dom.childNodes := [];
              Dom.textContent := Some (css (loadSettings data)) |}.
Proof.
  set (s0 := addStyle (with_settings (loadSettings data) constructor)).
  change (onload data w) with (initializeAllButtons w s0).
  destruct (initialize_extends w (markdownLeaves w) s0) as (_ & E2 & g & E3).
  fold (forAllMarkdownLeaves w (fun l st => addButtonsToLeaf w l st) s0)
    in E2, E3.
  fold (initializeAllButtons w s0) in E2, E3.
  split; [by rewrite E2|].
  rewrite E3, lookup_app_l; [done|]. simpl. lia.
Qed.

(** X17. The state after loading. After [onload] the settings are the
    stored ones over the defaults; the first element created is the
    style element, in the document head, with the style sheet of these
    settings; the tracked panes are the open Markdown panes whose
    [.view-content] element was found, and the overlay of each of them
    shows the buttons of these settings under that element; a
    [layout-change] event in the same workspace then changes nothing
    (but for scratch elements). *)
Theorem onload_state data w :
  let s := onload data w in
  settings s = loadSettings data
  ∧ styleEl s = Some 0%nat
  ∧ dom s !! 0%nat
    = Some {| Dom.tagName := Dom.STYLE;
              Dom.idAttr := Some "scroll-control-styles";
              Dom.classList := [];
              Dom.parentNode := Some Dom.InHead;
              Dom.childNodes := [];
              Dom.textContent := Some (css (loadSettings data)) |}
  ∧ (∀ l, l ∈ tracked s ↔ l ∈ markdownLeaves w ∧ attachable w l)
  ∧ (∀ l c, (l, c) ∈ leafButtonContainers s →
       ∃ el vc, dom s !! c = Some el
         ∧ viewContent w l = Some vc
         ∧ Dom.parentNode el = Some (Dom.InViewContent vc)
         ∧ Dom.childNodes el = floatingButtons (loadSettings data) (leafView w l))
  ∧ scratchOnly s (handleLayoutChange w s).
Proof.
  intros s. subst s.
  set (s0 := addStyle (with_settings (loadSettings data) constructor)).
  assert (H0 : dom s0 !! 0%nat
    = Some {| Dom.tagName := Dom.STYLE;
              Dom.idAttr := Some "scroll-control-styles";
              Dom.classList := [];
              Dom.parentNode := Some Dom.InHead;
              Dom.childNodes := [];
              Dom.textContent := Some (css (loadSettings data)) |}) by done.
  change (onload data w) with (initializeAllButtons w s0).
  destruct (initialize_extends w (markdownLeaves w) s0) as (E1 & E2 & g & E3).
  fold (forAllMarkdownLeaves w (fun l st => addButtonsToLeaf w l st) s0)
    in E1, E2, E3.
  fold (initializeAllButtons w s0) in E1, E2, E3.
  split_and!.
  - by rewrite E1.
  - by rewrite E2.
  - rewrite E3, lookup_app_l; [done|]. simpl. lia.
  - intros l. apply (tracked_onload data w).
  - intros l c Hin.
    assert (Hl : l ∈ tracked (onload data w)).
    { apply list_elem_of_fmap. by exists (l, c). }
    apply tracked_onload in Hl as [Ho [Hmd [vc Hvc]]].
    destruct (initialize_creates w (markdownLeaves w) s0 l vc)
      as (c' & G1 & _ & G3); try done.
    { change (tracked s0) with (@nil leaf). apply not_elem_of_nil. }
    destruct (reachable_wf _ (reachable_onload data w)) as (K & _).
    apply (map_get_NoDup _ _ _ K) in Hin.
    change (onload data w) with (initializeAllButtons w s0) in Hin.
    unfold initializeAllButtons, forAllMarkdownLeaves in Hin.
    assert (c' = c) as -> by congruence.
    exists (overlayFor w (settings s0) l vc), vc. split_and!; try done.
    + apply parentNode_overlayFor.
    + apply childNodes_overlayFor.
  - apply handleLayoutChange_scratch.
    + intros l Ho Ha. by apply (tracked_onload data w).
    + intros l Hl. by apply (tracked_onload data w) in Hl as [? _].
Qed.

(** X18. Settings survive a restart. Let the plugin save its settings,
    and let [loadData] resolve, at the next start in the same workspace,
    to the object that was handed to [saveData]. Then the plugin starts
    with the saved settings, and every open Markdown pane whose
    [.view-content] element is found has, in both sessions, an overlay
    that is the same element for element: parent, classes and buttons;
    the style sheet text is the same too. *)
Theorem restart_same_overlays w s :
  reachable s →
  let s1 := saveSettings w s in
  let s2 := onload (Some (saveData (settings s1))) w in
  settings s2 = settings s1
  ∧ (∀ l, l ∈ markdownLeaves w → attachable w l →
       ∃ c1 c2 el,
         JS.map_get l (leafButtonContainers s1) = Some c1
         ∧ JS.map_get l (leafButtonContainers s2) = Some c2
         ∧ dom s1 !! c1 = Some el ∧ dom s2 !! c2 = Some el)
  ∧ (∀ e el1, styleEl s1 = Some e → dom s1 !! e = Some el1 →
       ∃ el2, dom s2 !! 0%nat = Some el2
              ∧ Dom.textContent el2 = Dom.textContent el1).
Proof.
  intros Hr s1 s2.
  pose proof (reachable_wf _ Hr) as Hwf.
  pose proof Hwf as (_ & _ & _ & _ & Sd).
  destruct (updateAllButtons_extends w s) as (U1 & U2 & U3).
  assert (E1 : settings s1 = settings s).
  { subst s1. rewrite saveSettings_cases. by destruct (styleEl s). }
  assert (E2 : settings s2 = settings s).
  { subst s2. rewrite E1.
    destruct (initialize_extends w (markdownLeaves w)
                (addStyle (with_settings
                   (loadSettings (Some (saveData (settings s)))) constructor)))
      as (G1 & _).
    unfold onload, initializeAllButtons, forAllMarkdownLeaves.
    rewrite G1. apply loadSettings_saveData. }
  split_and!.
  - by rewrite E1, E2.
  - intros l Ho Ha.
    destruct (saveSettings_overlay w s l Hwf Ho Ha) as (c1 & vc & Hvc & R1 & R3).
    destruct Ha as [Hmd _].
    destruct (initialize_creates w (markdownLeaves w)
                (addStyle (with_settings
                   (loadSettings (Some (saveData (settings s1)))) constructor))
                l vc) as (c2 & I1 & _ & I3); try done.
    { change (tracked (addStyle _)) with (@nil leaf). apply not_elem_of_nil. }
    exists c1, c2, (overlayFor w (settings s) l vc). split_and!; try done.
    unfold s2, onload, initializeAllButtons, forAllMarkdownLeaves.
    cbv zeta. rewrite I3. f_equal. f_equal.
    change (settings (addStyle ?x)) with (settings x). fields.
    rewrite loadSettings_saveData. exact E1.
  - intros e el1 He Hel1.
    destruct (onload_style (Some (saveData (settings s1))) w) as (_ & O2).
    fold s2 in O2. eexists. split; [exact O2|]. cbn [Dom.textContent].
    rewrite loadSettings_saveData, E1.
    revert He Hel1. subst s1. rewrite saveSettings_cases.
    destruct (styleEl s) as [e0|] eqn:E0; [|by rewrite U2].
    fields. rewrite U2. intros [= <-].
    rewrite list_lookup_alter_eq.
    destruct (dom (updateAllButtons w s) !! e0); [|done].
    by intros [= <-].
Qed.

Lemma restart_same_overlays_witness :
  settings (onload (Some (saveData (settings
              (saveSettings workspaceB (with_settings compactSettings loadedA)))))
              workspaceB)
  = compactSettings.
Proof.
  exact (proj1 (restart_same_overlays workspaceB
                  (with_settings compactSettings loadedA)
                  (reach_settings _ _ reachable_loadedA))).
Defined.

End Loading.

(* ================================================================== *)
(** * The preview of the settings tab                                   *)
(* ================================================================== *)

Section Preview.
Implicit Types (cssAccepts : JS.jsstring → bool) (cfg : ScrollControlSettings)
  (view : viewObject) (pb : PreviewButton) (b : Dom.Button).

Lemma previewContent_cases cssAccepts cfg :
  previewContent (updatePreviewButtons cssAccepts cfg)
  = match previewData cfg with
    | [] => NoButtonsEnabled
    | _ =>
        PreviewWrapper (buttonSpacing cfg)
          (previewButton cssAccepts cfg
             (previewColors cssAccepts cfg).1.1.1
             (previewColors cssAccepts cfg).1.1.2
             <$> sortPreviewByOrder (previewData cfg))
    end.
Proof.
  unfold updatePreviewButtons.
  by destruct (previewColors cssAccepts cfg) as [[[? ?] ?] ?].
Qed.

Lemma previewBackgroundColor_cases cssAccepts cfg :
  previewBackgroundColor (updatePreviewButtons cssAccepts cfg)
  = (previewColors cssAccepts cfg).1.2
  ∧ previewTextColor (updatePreviewButtons cssAccepts cfg)
    = (previewColors cssAccepts cfg).2.
Proof.
  unfold updatePreviewButtons.
  by destruct (previewColors cssAccepts cfg) as [[[? ?] ?] ?].
Qed.

Lemma previewButton_icon_label cssAccepts cfg bb fic d :
  pvIcon (previewButton cssAccepts cfg bb fic d) = pvDataIcon d
  ∧ pvAriaLabel (previewButton cssAccepts cfg bb fic d) = pvDataTooltip d.
Proof.
  unfold previewButton. by destruct (useCustomColor cfg), (cssAccepts bb).
Qed.

Lemma previewData_buttonData cfg view :
  previewData cfg = toPreview <$> buttonData cfg view.
Proof.
  unfold previewData, buttonData.
  by destruct (showScrollTopButton cfg), (showScrollBottomButton cfg).
Qed.

Lemma insertPreviewByOrder_toPreview d ds :
  insertPreviewByOrder (toPreview d) (toPreview <$> ds)
  = toPreview <$> insertByOrder d ds.
Proof.
  induction ds as [|y ds IH]; [done|].
  cbn [fmap list_fmap insertPreviewByOrder insertByOrder toPreview pvDataOrder].
  destruct (order d <=? order y); [done|].
  cbn [fmap list_fmap]. f_equal. exact IH.
Qed.

Lemma sortPreviewByOrder_toPreview ds :
  sortPreviewByOrder (toPreview <$> ds) = toPreview <$> sortByOrder ds.
Proof.
  unfold sortPreviewByOrder, sortByOrder.
  induction ds as [|d ds IH]; [done|].
  cbn [fmap list_fmap foldr]. rewrite IH.
  apply insertPreviewByOrder_toPreview.
Qed.

Lemma buttonData_nil cfg view :
  buttonData cfg view = []
  → showScrollTopButton cfg = false ∧ showScrollBottomButton cfg = false.
Proof.
  unfold buttonData.
  by destruct (showScrollTopButton cfg), (showScrollBottomButton cfg).
Qed.

Lemma sortByOrder_nil ds : sortByOrder ds = [] → ds = [].
Proof.
  intros H. apply Permutation_nil_r. rewrite <- H.
  symmetry. apply sortByOrder_Permutation.
Qed.

Lemma previewWrapper_buttons cssAccepts cfg view gap bs :
  previewContent (updatePreviewButtons cssAccepts cfg) = PreviewWrapper gap bs →
  gap = buttonSpacing cfg
  ∧ buttonData cfg view ≠ []
  ∧ bs = (fun d => previewButton cssAccepts cfg
                     (previewColors cssAccepts cfg).1.1.1
                     (previewColors cssAccepts cfg).1.1.2 (toPreview d))
           <$> sortByOrder (buttonData cfg view).
Proof.
  rewrite previewContent_cases, (previewData_buttonData cfg view).
  rewrite sortPreviewByOrder_toPreview, <- list_fmap_compose.
  destruct (buttonData cfg view); [done|]. by intros [= <- <-].
Qed.

Lemma getContrastColor_twice s :
  getContrastColor (getContrastColor s) ≠ getContrastColor s.
Proof.
  destruct (getContrastColor_cases s) as [-> | ->]; by vm_compute.
Qed.

(** X19. The preview shows the buttons of the overlays. The preview holds
    the text [No buttons enabled] exactly when both buttons are switched
    off, which is when an overlay is empty. Otherwise it holds a wrapper
    whose gap is the configured spacing, with the icons of an overlay in
    the same order, each labelled as in the overlay followed by
    [(Preview)]; every preview button has the class of the configured
    size and the preview class, and never the animation class. *)
Theorem updatePreviewButtons_mirrors_overlay cssAccepts cfg view :
  match previewContent (updatePreviewButtons cssAccepts cfg) with
  | NoButtonsEnabled =>
      floatingButtons cfg view = []
      ∧ showScrollTopButton cfg = false
      ∧ showScrollBottomButton cfg = false
  | PreviewWrapper gap bs =>
      gap = buttonSpacing cfg
      ∧ floatingButtons cfg view ≠ []
      ∧ pvIcon <$> bs = Dom.btnIcon <$> floatingButtons cfg view
      ∧ pvAriaLabel <$> bs
        = (fun b => String.append (Dom.btnAriaLabel b) " (Preview)")
            <$> floatingButtons cfg view
      ∧ ∀ pb, pb ∈ bs →
          sizeClass (buttonSize cfg) ∈ pvClassList pb
          ∧ "scroll-control-preview-button" ∈ pvClassList pb
          ∧ ("scroll-control-button-animated" ∉ pvClassList pb)
  end.
Proof.
  destruct (previewContent _) as [|gap bs] eqn:Hc.
  - revert Hc. rewrite previewContent_cases, (previewData_buttonData cfg view).
    destruct (buttonData cfg view) eqn:Hd; [|done]. intros _.
    unfold floatingButtons. rewrite Hd. split; [done|].
    by apply (buttonData_nil cfg view).
  - apply (previewWrapper_buttons _ _ view) in Hc as (-> & Hne & ->).
    unfold floatingButtons. rewrite <- !list_fmap_compose. split_and!.
    + done.
    + intros H%fmap_nil_inv%sortByOrder_nil. done.
    + apply list_fmap_ext. intros i d _. simpl.
      by rewrite (proj1 (previewButton_icon_label _ _ _ _ _)).
    + apply list_fmap_ext. intros i d _. simpl.
      by rewrite (proj2 (previewButton_icon_label _ _ _ _ _)).
    + intros pb (d & -> & _)%list_elem_of_fmap. unfold previewButton.
      destruct (useCustomColor cfg),
        (cssAccepts (previewColors cssAccepts cfg).1.1.1), (buttonSize cfg);
        cbn [pvClassList sizeClass app]; split_and!; set_solver.
Qed.

(** X20. The colours of the preview. Whatever the settings and whatever
    colours the browser accepts, the text colour assigned to the preview
    differs from its background colour; and every preview button has its
    icon drawn, by a [stroke] attribute, in the background colour of the
    preview. With the custom colour switched off the buttons get the
    theme colours inline and the default class. *)
Theorem updatePreviewButtons_colours cssAccepts cfg :
  let p := updatePreviewButtons cssAccepts cfg in
  previewTextColor p ≠ previewBackgroundColor p
  ∧ ∀ gap bs pb, previewContent p = PreviewWrapper gap bs → pb ∈ bs →
      pvStroke pb = Some (previewBackgroundColor p)
      ∧ (useCustomColor cfg = false →
         pvBackgroundColor pb = Some themeBackground
         ∧ pvColor pb = Some themeText
         ∧ "scroll-control-button-default" ∈ pvClassList pb).
Proof.
  intros p. subst p.
  destruct (previewBackgroundColor_cases cssAccepts cfg) as [-> ->].
  rewrite previewContent_cases. split.
  - unfold previewColors.
    destruct (useCustomColor cfg); [|by vm_compute].
    destruct (cssAccepts (buttonColor cfg)); [|by vm_compute].
    cbn [fst snd]. apply getContrastColor_twice.
  - intros gap bs pb Hc Hpb.
    destruct (previewData cfg) as [|d0 ds]; [done|].
    injection Hc as <- <-.
    apply list_elem_of_fmap in Hpb as (d & -> & _).
    unfold previewButton, previewColors.
    destruct (useCustomColor cfg).
    + split; [|done].
      destruct (cssAccepts (buttonColor cfg)) eqn:Hv; cbn [fst snd].
      * rewrite Hv. cbn [pvStroke].
        by rewrite (bool_decide_eq_false_2 _
                      (currentColor_not_result (buttonColor cfg))).
      * by destruct (cssAccepts themeBackground).
    + cbn [fst snd pvStroke pvBackgroundColor pvColor pvClassList].
      split; [done|]. intros _. split_and!; try done. set_solver.
Qed.

(** X21. Preview and overlay under a custom colour. With the custom colour
    switched on: when the browser accepts the configured colour, every
    preview button has the icon, the inline background, text colour and
    stroke, and the custom class of the overlay button at the same
    place; when it does not, the preview falls back to theme colours
    while the overlay buttons are still given the configured colour, so
    the two backgrounds differ. *)
Theorem preview_and_overlay_custom cssAccepts cfg view gap bs :
  useCustomColor cfg = true →
  previewContent (updatePreviewButtons cssAccepts cfg) = PreviewWrapper gap bs →
  Forall2
    (fun pb b =>
       pvIcon pb = Dom.btnIcon b
       ∧ if cssAccepts (buttonColor cfg) then
           pvBackgroundColor pb = Dom.btnBackgroundColor b
           ∧ pvColor pb = Dom.btnColor b
           ∧ pvStroke pb = Dom.btnStroke b
           ∧ "scroll-control-button-custom" ∈ pvClassList pb
           ∧ "scroll-control-button-custom" ∈ Dom.btnClassList b
         else
           pvBackgroundColor pb ≠ Dom.btnBackgroundColor b
           ∧ Dom.btnBackgroundColor b = Some (buttonColor cfg))
    bs (floatingButtons cfg view).
Proof.
  intros Hcustom.
  assert (Hone : ∀ d d',
    pvDataIcon d = icon d' →
    let pb := previewButton cssAccepts cfg
                (previewColors cssAccepts cfg).1.1.1
                (previewColors cssAccepts cfg).1.1.2 d in
    let b := createButton cfg (icon d') (tooltip d') (callback d') in
    pvIcon pb = Dom.btnIcon b
    ∧ if cssAccepts (buttonColor cfg) then
        pvBackgroundColor pb = Dom.btnBackgroundColor b
        ∧ pvColor pb = Dom.btnColor b
        ∧ pvStroke pb = Dom.btnStroke b
        ∧ "scroll-control-button-custom" ∈ pvClassList pb
        ∧ "scroll-control-button-custom" ∈ Dom.btnClassList b
      else
        pvBackgroundColor pb ≠ Dom.btnBackgroundColor b
        ∧ Dom.btnBackgroundColor b = Some (buttonColor cfg)).
  { intros d d' Hd pb b. subst pb b. split.
    { by rewrite (proj1 (previewButton_icon_label _ _ _ _ _)). }
    unfold previewButton, previewColors, createButton. rewrite Hcustom.
    destruct (cssAccepts (buttonColor cfg)) eqn:Hv; cbn [fst snd].
    - rewrite Hv.
      cbn [pvBackgroundColor pvColor pvStroke pvClassList Dom.btnBackgroundColor
           Dom.btnColor Dom.btnStroke Dom.btnClassList].
      split_and!; try done; set_solver.
    - cbn [Dom.btnBackgroundColor]. split; [|done].
      destruct (cssAccepts themeBackground) eqn:Hv'; cbn [pvBackgroundColor];
        [|done].
      intros [= E]. rewrite <- E, Hv' in Hv. done. }
  intros (_ & _ & ->)%(previewWrapper_buttons _ _ view).
  unfold floatingButtons. apply Forall2_fmap, Forall_Forall2_diag.
  apply Forall_forall. intros d _. by apply Hone.
Qed.

Lemma preview_and_overlay_custom_witness :
  Forall2
    (fun pb b =>
       pvIcon pb = Dom.btnIcon b
       ∧ pvBackgroundColor pb = Dom.btnBackgroundColor b
       ∧ pvColor pb = Dom.btnColor b
       ∧ pvStroke pb = Dom.btnStroke b
       ∧ "scroll-control-button-custom" ∈ pvClassList pb
       ∧ "scroll-control-button-custom" ∈ Dom.btnClassList b)
    [previewButton (fun _ => true) compactSettings
       (buttonColor compactSettings)
       (getContrastColor (buttonColor compactSettings))
       {| pvDataIcon := Dom.scrollTopIcon;
          pvDataTooltip := "Scroll to Top (Preview)";
          pvDataOrder := 1 |}]
    (floatingButtons compactSettings 1%nat).
Proof.
  exact (preview_and_overlay_custom (fun _ => true) compactSettings 1%nat
           4 _ eq_refl eq_refl).
Defined.

End Preview.

(* ================================================================== *)
(** * A change in the settings tab                                      *)
(* ================================================================== *)

Section SettingsTab.
Implicit Types (w : Workspace) (s : State) (l : leaf) (c e : Dom.elem)
  (cfg : ScrollControlSettings) (chg : SettingChange).

Lemma buttonSizeOf_None value :
  buttonSizeOf value = None →
  value ≠ "small" ∧ value ≠ "medium" ∧ value ≠ "large".
Proof.
  unfold buttonSizeOf.
  destruct (String.eqb value "small") eqn:E1; [done|].
  destruct (String.eqb value "medium") eqn:E2; [done|].
  destruct (String.eqb value "large") eqn:E3; [done|].
  intros _. by rewrite <- !String.eqb_neq.
Qed.

(** X22. A changed setting shows at once. When a control of the settings
    tab reports a change that its callback accepts, the plugin holds the
    changed settings afterwards, the text of its style element is the
    style sheet of the changed settings, and every open Markdown pane
    whose [.view-content] element is found is tracked with an overlay
    under that element that holds the buttons of the changed settings.
    The only change a callback does not accept is a button size other
    than [small], [medium] and [large]: then the plugin is left as it
    is. A colour change never stores the empty string. *)
Theorem settingChanged_applies w chg s :
  reachable s →
  let s' := settingChanged w chg s in
  match onChange chg (settings s) with
  | None =>
      s' = s
      ∧ ∃ value, chg = ButtonSizeChanged value
                 ∧ value ≠ "small" ∧ value ≠ "medium" ∧ value ≠ "large"
  | Some cfg =>
      settings s' = cfg
      ∧ (∀ value, chg = ButtonColorChanged value → buttonColor cfg ≠ [])
      ∧ (∀ e, styleEl s = Some e →
           ∃ el, dom s' !! e = Some el
                 ∧ Dom.textContent el = Some (css cfg))
      ∧ (∀ l, l ∈ markdownLeaves w → attachable w l →
           ∃ c el vc,
             JS.map_get l (leafButtonContainers s') = Some c
             ∧ dom s' !! c = Some el
             ∧ viewContent w l = Some vc
             ∧ Dom.parentNode el = Some (Dom.InViewContent vc)
             ∧ Dom.childNodes el = floatingButtons cfg (leafView w l))
  end.
Proof.
  intros Hr s'. subst s'. unfold settingChanged.
  destruct (onChange chg (settings s)) as [cfg|] eqn:Hc.
  - assert (Hwf : wf (with_settings cfg s)).
    { by apply wf_with_settings, reachable_wf. }
    split_and!.
    + rewrite saveSettings_cases.
      destruct (updateAllButtons_extends w (with_settings cfg s)) as (U1 & _).
      by destruct (styleEl _).
    + intros value ->. simpl in Hc. injection Hc as <-. by destruct value.
    + intros e He. by apply (saveSettings_text w (with_settings cfg s) e).
    + intros l Ho Ha.
      destruct (saveSettings_overlay w _ l Hwf Ho Ha)
        as (c & vc & Hvc & R1 & R3).
      exists c, (overlayFor w cfg l vc), vc. split_and!; try done.
      * apply parentNode_overlayFor.
      * apply childNodes_overlayFor.
  - split; [done|]. destruct chg; simpl in Hc; try done.
    destruct (buttonSizeOf value) eqn:E; [done|].
    exists value. split; [done|]. by apply buttonSizeOf_None.
Qed.

Lemma settingChanged_applies_witness :
  settings (settingChanged workspaceA (VerticalPaddingChanged 64) loadedA)
  = set_verticalPadding 64 DEFAULT_SETTINGS
  ∧ ∃ el,
      dom (settingChanged workspaceA (VerticalPaddingChanged 64) loadedA) !! 0%nat
      = Some el
      ∧ Dom.textContent el = Some (20, 64, 12, 300).
Proof.
  pose proof (settingChanged_applies workspaceA (VerticalPaddingChanged 64)
                loadedA reachable_loadedA) as (E1 & _ & E3 & _).
  split; [exact E1|]. exact (E3 0%nat eq_refl).
Defined.

End SettingsTab.

(* ================================================================== *)
(** * The earlier variant                                               *)
(* ================================================================== *)

Section LegacyFacts.
Implicit Types (cfg : Legacy.ScrollControlSettings) (view : Legacy.View).

(** X23. In the earlier variant, scrolling by lines stays in the
    document. In source mode [scrollPartial] asks for a line: scrolling
    up never for one before the first, scrolling down never for one
    after the last.
    With a step that is not negative and the cursor on a line of the
    document, both targets are at most a step away from the cursor, in
    the direction asked for. *)
Theorem legacy_scrollPartial_target cfg view :
  Legacy.getMode view = source →
  ∃ u d,
    Legacy.scrollPartial cfg Legacy.up (Some view)
    = Legacy.EditorScrollIntoView u 0 u 0 true
    ∧ Legacy.scrollPartial cfg Legacy.down (Some view)
      = Legacy.EditorScrollIntoView d 0 d 0 true
    ∧ 0 ≤ u
    ∧ d ≤ Legacy.lineCount view - 1
    ∧ (0 ≤ Legacy.scrollStep cfg →
       0 ≤ Legacy.cursorLine view ≤ Legacy.lineCount view - 1 →
       u ≤ Legacy.cursorLine view ≤ d
       ∧ Legacy.cursorLine view - u ≤ Legacy.scrollStep cfg
       ∧ d - Legacy.cursorLine view ≤ Legacy.scrollStep cfg).
Proof.
  intros Hm. unfold Legacy.scrollPartial. rewrite Hm.
  eexists _, _. split; [reflexivity|]. split; [reflexivity|]. lia.
Qed.

Lemma legacy_scrollPartial_target_witness :
  ∃ u d,
    Legacy.scrollPartial Legacy.DEFAULT_SETTINGS Legacy.up
      (Some {| Legacy.getMode := source; Legacy.lineCount := 15;
               Legacy.cursorLine := 8; Legacy.previewEl := None |})
    = Legacy.EditorScrollIntoView u 0 u 0 true
    ∧ Legacy.scrollPartial Legacy.DEFAULT_SETTINGS Legacy.down
        (Some {| Legacy.getMode := source; Legacy.lineCount := 15;
                 Legacy.cursorLine := 8; Legacy.previewEl := None |})
      = Legacy.EditorScrollIntoView d 0 d 0 true
    ∧ 0 ≤ u ∧ d ≤ 14.
Proof.
  destruct (legacy_scrollPartial_target Legacy.DEFAULT_SETTINGS
              {| Legacy.getMode := source; Legacy.lineCount := 15;
                 Legacy.cursorLine := 8; Legacy.previewEl := None |} eq_refl)
    as (u & d & E1 & E2 & H1 & H2 & _).
  exists u, d. split; [exact E1|]. split; [exact E2|].
  split; [exact H1|exact H2].
Defined.

Lemma number_eqb_eq (x y : JS.number) : number_eqb x y = true → x = y.
Proof.
  destruct x as [[]|[]| |sx mx ex], y as [[]|[]| |sy my ey]; try done.
  cbn [number_eqb]. rewrite !andb_true_iff.
  intros [[Hs%eqb_prop Hm%Pos.eqb_eq] He%Z.eqb_eq]. congruence.
Qed.

Lemma number_eqb_refl (x : JS.number) : number_eqb x x = true.
Proof.
  destruct x as [[]|[]| |sx mx ex]; try done.
  cbn [number_eqb]. by rewrite Bool.eqb_reflx, Pos.eqb_refl, Z.eqb_refl.
Qed.

Lemma paddings_checked : forallb stackChecked paddings = true.
Proof. vm_compute. reflexivity. Qed.

Lemma elem_of_paddings z : 0 ≤ z ≤ 1000 → z ∈ paddings.
Proof.
  intros Hz. unfold paddings. apply list_elem_of_fmap.
  exists (Z.to_nat z). split; [lia|]. apply elem_of_seq. lia.
Qed.

(** For a padding of 0 to 1000 pixels, the sums of the four places are
    exact, and are four numbers. *)
Lemma stack_exact padding :
  0 ≤ padding ≤ 1000 →
  (∀ i, 0 ≤ i < 4 →
     JS.add (JS.of_Z padding false)
            (JS.mul (JS.of_Z i false) (JS.of_Z 48 false))
     = JS.of_Z (padding + 48 * i) false)
  ∧ (∀ i j, 0 ≤ i < 4 → 0 ≤ j < 4 →
       JS.of_Z (padding + 48 * i) false = JS.of_Z (padding + 48 * j) false →
       i = j).
Proof.
  intros Hp.
  pose proof (proj1 (forallb_forall stackChecked paddings) paddings_checked
                padding (proj1 (list_elem_of_In _ _) (elem_of_paddings _ Hp)))
    as Hc.
  unfold stackChecked in Hc. apply andb_true_iff in Hc as [Hsum Hdiff].
  rewrite forallb_forall in Hsum. rewrite forallb_forall in Hdiff.
  assert (Hd : ∀ i j, 0 ≤ i < j → j < 4 →
            JS.of_Z (padding + 48 * i) false
            ≠ JS.of_Z (padding + 48 * j) false).
  { intros i j Hi Hj E.
    assert (Hin : In (i, j) [(0, 1); (0, 2); (0, 3); (1, 2); (1, 3); (2, 3)]).
    { apply list_elem_of_In.
      assert (i = 0 ∨ i = 1 ∨ i = 2) as [->|[->| ->]] by lia;
        assert (j = 1 ∨ j = 2 ∨ j = 3) as [->|[->| ->]] by lia;
        try lia; set_solver. }
    specialize (Hdiff _ Hin). cbv beta iota in Hdiff.
    rewrite E, number_eqb_refl in Hdiff. done. }
  split.
  - intros i Hi. apply number_eqb_eq, Hsum, list_elem_of_In.
    assert (i = 0 ∨ i = 1 ∨ i = 2 ∨ i = 3) as [->|[->|[->| ->]]] by lia;
      set_solver.
  - intros i j Hi Hj E.
    destruct (Z.lt_trichotomy i j) as [Hlt|[->|Hgt]]; [|done|].
    + destruct (Hd i j); [lia|lia|done].
    + destruct (Hd j i); [lia|lia|done].
Qed.

(** The place of each button: its index is the value of the counter
    when it was made. *)
Lemma legacy_floatingButtons_places cfg i (b : Legacy.Button) :
  Legacy.createFloatingButtons cfg !! i = Some b →
  (i < 4)%nat
  ∧ Legacy.btnBottom b
    = JS.add (JS.of_Z (Legacy.verticalPadding cfg) false)
             (JS.mul (JS.of_Z (Z.of_nat i) false) (JS.of_Z 48 false))
  ∧ Legacy.btnRight b = Legacy.horizontalPadding cfg.
Proof.
  unfold Legacy.createFloatingButtons, Legacy.pushButton.
  destruct (Legacy.showScrollTopButton cfg), (Legacy.showScrollUpButton cfg),
    (Legacy.showScrollDownButton cfg), (Legacy.showScrollBottomButton cfg);
    cbn [fst snd app];
    destruct i as [|[|[|[|i]]]]; cbn [lookup list_lookup]; intros H;
    try discriminate H; injection H as <-;
    cbn [Legacy.btnBottom Legacy.btnRight Legacy.createButton];
    (split; [lia|split; [|done]]); reflexivity.
Qed.

(** X24. In the earlier variant, the floating buttons are stacked. The
    buttons that [createFloatingButtons] creates are the enabled ones in
    the order top, up, down, bottom. With a vertical padding of 0 to
    1000 pixels (the slider gives 20 to 100), the button at place [i] is
    put [verticalPadding + 48 * i] pixels from the bottom, the binary64
    sum being exact, and [horizontalPadding] pixels from the right, so
    that no two buttons are put at the same place. (For a padding that
    binary64 cannot tell from its neighbours the buttons do collide:
    [legacy_huge_padding_collides].) *)
Theorem legacy_floatingButtons_stacked cfg :
  0 ≤ Legacy.verticalPadding cfg ≤ 1000 →
  Legacy.btnIcon <$> Legacy.createFloatingButtons cfg
  = (if Legacy.showScrollTopButton cfg then [Legacy.scrollTop] else [])
    ++ (if Legacy.showScrollUpButton cfg then [Legacy.scrollUp] else [])
    ++ (if Legacy.showScrollDownButton cfg then [Legacy.scrollDown] else [])
    ++ (if Legacy.showScrollBottomButton cfg then [Legacy.scrollBottom] else [])
  ∧ (∀ i b, Legacy.createFloatingButtons cfg !! i = Some b →
       Legacy.btnBottom b
       = JS.of_Z (Legacy.verticalPadding cfg + 48 * Z.of_nat i) false
       ∧ Legacy.btnRight b = Legacy.horizontalPadding cfg)
  ∧ (∀ i j b b', Legacy.createFloatingButtons cfg !! i = Some b →
       Legacy.createFloatingButtons cfg !! j = Some b' →
       Legacy.btnBottom b = Legacy.btnBottom b' → i = j).
Proof.
  intros Hp. destruct (stack_exact _ Hp) as [Hsum Hdiff].
  assert (Hpos : ∀ i b, Legacy.createFloatingButtons cfg !! i = Some b →
       (i < 4)%nat
       ∧ Legacy.btnBottom b
         = JS.of_Z (Legacy.verticalPadding cfg + 48 * Z.of_nat i) false
       ∧ Legacy.btnRight b = Legacy.horizontalPadding cfg).
  { intros i b Hb.
    destruct (legacy_floatingButtons_places cfg i b Hb) as (Hi & -> & Hr).
    split; [done|]. split; [|done]. apply Hsum. lia. }
  split_and!.
  - unfold Legacy.createFloatingButtons, Legacy.pushButton.
    by destruct (Legacy.showScrollTopButton cfg),
      (Legacy.showScrollUpButton cfg), (Legacy.showScrollDownButton cfg),
      (Legacy.showScrollBottomButton cfg).
  - intros i b Hb. by destruct (Hpos i b Hb) as (_ & ? & ?).
  - intros i j b b' Hi Hj E.
    destruct (Hpos i b Hi) as (Hi4 & Ei & _).
    destruct (Hpos j b' Hj) as (Hj4 & Ej & _).
    rewrite Ei, Ej in E. apply Hdiff in E; lia.
Qed.

Lemma legacy_floatingButtons_stacked_witness :
  Legacy.btnBottom <$> Legacy.createFloatingButtons Legacy.DEFAULT_SETTINGS
  = [JS.of_Z 40 false; JS.of_Z 88 false]
  ∧ ∀ i j b b',
      Legacy.createFloatingButtons Legacy.DEFAULT_SETTINGS !! i = Some b →
      Legacy.createFloatingButtons Legacy.DEFAULT_SETTINGS !! j = Some b' →
      Legacy.btnBottom b = Legacy.btnBottom b' → i = j.
Proof.
  assert (Hp : 0 ≤ Legacy.verticalPadding Legacy.DEFAULT_SETTINGS ≤ 1000)
    by (simpl; lia).
  split; [by vm_compute|].
  exact (proj2 (proj2 (legacy_floatingButtons_stacked Legacy.DEFAULT_SETTINGS Hp))).
Defined.

(** With a vertical padding of 2^60 the two buttons are put at the same
    place: 2^60 + 48 is rounded to 2^60. *)
Lemma legacy_huge_padding_collides :
  Legacy.btnBottom <$> Legacy.createFloatingButtons hugePadding
  = [JS.of_Z (2 ^ 60) false; JS.of_Z (2 ^ 60) false].
Proof. by vm_compute. Qed.

End LegacyFacts.

(* ================================================================== *)
(** * The debounced reconciliation                                      *)
(* ================================================================== *)

Section Debounce.
Implicit Types (workspaceAt : Z → Workspace) (s : State) (t : Z)
  (later calls : list Z) (d : Debounced).

Lemma last_default_cons t t' later :
  default t (last (t' :: later)) = default t' (last later).
Proof. rewrite last_cons. by destruct (last later). Qed.

Lemma burst_take t later n : burst t later → burst t (take n later).
Proof.
  revert t n. induction later as [|t' later IH]; intros t [|n]; try done.
  intros [? ?]. split; [done|]. by apply IH.
Qed.

(** While a burst lasts the timer is reset by each event and never
    expires: nothing runs. *)
Lemma layoutChanges_burst workspaceAt s calls t later :
  burst t later →
  layoutChanges workspaceAt later
    {| plugin := s; pendingTimer := Some (t + quiescenceWindow);
       reconciliations := calls |}
  = {| plugin := s;
       pendingTimer := Some (default t (last later) + quiescenceWindow);
       reconciliations := calls |}.
Proof.
  revert t. induction later as [|t' later IH]; intros t; [done|].
  intros [Ht Hb]. rewrite last_default_cons. rewrite <- (IH t' Hb).
  unfold layoutChanges. rewrite fold_left_cons. f_equal.
  unfold layoutChange, expire. cbn [pendingTimer].
  by rewrite (proj2 (Z.leb_gt _ _)) by lia.
Qed.

Lemma layoutChanges_idle workspaceAt s calls t later :
  burst t later →
  layoutChanges workspaceAt (t :: later) (idle s calls)
  = {| plugin := s;
       pendingTimer := Some (default t (last later) + quiescenceWindow);
       reconciliations := calls |}.
Proof.
  intros Hb. rewrite <- (layoutChanges_burst workspaceAt s calls t later Hb).
  reflexivity.
Qed.

(** C8. Let [layout-change] events arrive in a burst, the first at time
    [t] and each later one less than 300 ms after the one before, while
    no timer is pending. Whatever part of the burst has arrived, no
    reconciliation has run and the plugin is as it was (the leading edge
    is suppressed). After the burst exactly one reconciliation has run,
    300 ms after the last event; it has read the workspace, and so the
    list of open panes, of that time, which is the workspace as of the
    last event when nothing changes in between; and no timer is left
    pending. *)
Theorem debounce_coalesces workspaceAt s calls t later :
  burst t later →
  let final := default t (last later) in
  let d := afterEvents workspaceAt (t :: later) (idle s calls) in
  quiescenceWindow = 300
  ∧ (∀ n, let during :=
            layoutChanges workspaceAt (t :: take n later) (idle s calls) in
          reconciliations during = calls ∧ plugin during = s
          ∧ is_Some (pendingTimer during))
  ∧ reconciliations d = calls ++ [final + 300]
  ∧ plugin d = handleLayoutChange (workspaceAt (final + 300)) s
  ∧ pendingTimer d = None
  ∧ ((∀ u, final ≤ u ≤ final + 300 → workspaceAt u = workspaceAt final) →
     plugin d = handleLayoutChange (workspaceAt final) s).
Proof.
  intros Hb final d.
  assert (Hd : d = {| plugin := handleLayoutChange (workspaceAt (final + 300)) s;
                      pendingTimer := None;
                      reconciliations := calls ++ [final + 300] |}).
  { subst d. unfold afterEvents. rewrite layoutChanges_idle by done.
    cbn [pendingTimer]. unfold expire. cbn [pendingTimer].
    by rewrite Z.leb_refl. }
  split; [done|]. split.
  - intros n during. subst during.
    rewrite layoutChanges_idle by (by apply burst_take).
    by split_and!.
  - rewrite Hd. split_and!; try done.
    intros Hquiet. cbn [plugin]. rewrite Hquiet; [done|lia].
Qed.

Lemma debounce_coalesces_witness :
  burst 0 [100; 250]
  ∧ reconciliations
      (afterEvents (fun _ => workspaceB) [0; 100; 250] (idle loadedA []))
    = [550]
  ∧ plugin (afterEvents (fun _ => workspaceB) [0; 100; 250] (idle loadedA []))
    = handleLayoutChange workspaceB loadedA.
Proof.
  assert (Hb : burst 0 [100; 250]).
  { unfold burst, quiescenceWindow. split; [lia|]. split; [lia|exact I]. }
  pose proof (debounce_coalesces (fun _ => workspaceB) loadedA [] 0 [100; 250] Hb)
    as (_ & _ & E3 & E4 & _).
  split; [exact Hb|]. split; [exact E3|exact E4].
Defined.

(** Two bursts that lie more than a window apart give two
    reconciliations, each at the end of its burst. *)
Lemma debounce_two_bursts :
  reconciliations
    (afterEvents (fun _ => workspaceB) [0; 100; 250; 1000; 1100]
       (idle loadedA []))
  = [550; 1400].
Proof. reflexivity. Qed.

End Debounce.
